(** * map-bot: the conversational session orchestrator

    A shallow embedding of the backend server (tool-schema translation,
    chunk text extraction, the per-turn streaming handler, the session
    store), of the client's map handler, and the properties of the
    specification.

    Conventions of the embedding.
    - A JavaScript string is a sequence of code units; a [string] here is
      such a sequence with every code unit below 256, one [ascii] each.
    - A JavaScript value is a tree ([value]); a number is kept as its
      decimal rendering (what [Number.prototype.toString] prints), which
      determines it up to the sign of zero.
    - A thrown exception is the [Throw] case of [result], or the [Raised]
      case of [outcome] where what was sent before it must survive.
    - The fields of an object of the tree are data, never functions: an
      object with an own [toString] field cannot be converted to a string
      (the conversion throws a TypeError), and neither can an array that
      holds one.  [printable] tells whether the conversion returns, and
      [toString] is what it returns then.
    - [JSON.parse] belongs to the platform, not to the repository: the
      handlers take it as a parameter ([None] is a thrown SyntaxError).
    - The agent is the environment of a turn.  What it does while the
      turn awaits it is a feed: the callbacks it fires, with arguments of
      the types the agent library declares (a token and a tool name are
      strings), and the events its stream yields, whose [data] is any
      value.  A turn is run as one unit; the socket may close under it.
      An exception that leaves a callback is the agent library's to
      handle: the callback's effects up to the throw stay, and whether
      the agent carries on or fails is what the rest of the feed says. *)

From Stdlib Require Import String Ascii List NArith DecimalString Lia.
From stdpp Require Import gmap strings list.

Open Scope string_scope.
Open Scope list_scope.

(** ** Strings *)

(** [s.startsWith(t)] *)
Fixpoint starts_with (s t : string) {struct t} : bool :=
  match t, s with
  | EmptyString, _ => true
  | String a t', String b s' => Ascii.eqb a b && starts_with s' t'
  | String _ _, EmptyString => false
  end.

(** [s.includes(t)]: [t] occurs in [s] as a contiguous run. *)
Fixpoint includes (s t : string) : bool :=
  if starts_with s t then true
  else match s with
       | EmptyString => false
       | String _ s' => includes s' t
       end.

(** White space of [String.prototype.trim] among code units below 256:
    TAB, LF, VT, FF, CR, SPACE and NO-BREAK SPACE. *)
Definition is_white_space (c : ascii) : bool :=
  let n := nat_of_ascii c in
  (Nat.leb 9 n && Nat.leb n 13) || Nat.eqb n 32 || Nat.eqb n 160.

(** [s.trim()] is the empty string, which is the only falsy string. *)
Fixpoint trim_is_empty (s : string) : bool :=
  match s with
  | EmptyString => true
  | String c s' => is_white_space c && trim_is_empty s'
  end.

(** [s.replace(/_/g, " ")]. *)
Fixpoint replace_underscores (s : string) : string :=
  match s with
  | EmptyString => EmptyString
  | String c s' =>
      String (if Ascii.eqb c "_"%char then " "%char else c) (replace_underscores s')
  end.

(** [s.slice(-k)]: the last [k] code units of [s], all of [s] when it is
    shorter. *)
Definition slice_last (k : nat) (s : string) : string :=
  String.substring (String.length s - k) k s.

(** [n.toString()] for a non-negative integer below [10^21], which
    prints in plain decimal. *)
Definition N_toString (n : N) : string :=
  NilZero.string_of_uint (N.to_uint n).

(** ** Values *)

#[warnings="-register-all"] Inductive value : Type :=
  | VUndefined
  | VNull
  | VBool (b : bool)
  | VNum (rendering : string)
  | VStr (s : string)
  | VArr (items : list value)
  | VObj (fields : list (string * value)).

(** The outcome of code that may throw. *)
Inductive result (A : Type) : Type :=
  | Ok (a : A)
  | Throw.
Arguments Ok {A} a.
Arguments Throw {A}.

(** ToBoolean. *)
Definition truthy (v : value) : bool :=
  match v with
  | VUndefined | VNull => false
  | VBool b => b
  | VNum r => negb (String.eqb r "0" || String.eqb r "NaN")
  | VStr s => negb (String.eqb s "")
  | VArr _ | VObj _ => true
  end.

Definition is_nullish (v : value) : bool :=
  match v with
  | VUndefined | VNull => true
  | _ => false
  end.

(** [typeof v === 'string'] *)
Definition is_string (v : value) : bool :=
  match v with VStr _ => true | _ => false end.

(** The operand of [in] must be an object (arrays included). *)
Definition is_object (v : value) : bool :=
  match v with VArr _ | VObj _ => true | _ => false end.

Fixpoint lookup_field (k : string) (fields : list (string * value)) : value :=
  match fields with
  | [] => VUndefined
  | (k', v) :: rest => if String.eqb k k' then v else lookup_field k rest
  end.

(** Assigning a field: a key already present keeps its position and
    takes the new value, a new key goes last. *)
Fixpoint set_field (k : string) (v : value) (fields : list (string * value))
    : list (string * value) :=
  match fields with
  | [] => [(k, v)]
  | (k', v') :: rest =>
      if String.eqb k k' then (k, v) :: rest else (k', v') :: set_field k v rest
  end.

(** [v.k] for a [v] that is neither null nor undefined, and for a key [k]
    that no prototype defines (every key read by this program is one):
    own fields of a plain object, undefined on anything else. *)
Definition get (v : value) (k : string) : value :=
  match v with
  | VObj fields => lookup_field k fields
  | _ => VUndefined
  end.

(** [v.k], which throws a TypeError on null and undefined. *)
Definition get_strict (v : value) (k : string) : result value :=
  if is_nullish v then Throw else Ok (get v k).

(** [v?.k]. *)
Definition get_opt (v : value) (k : string) : value :=
  if is_nullish v then VUndefined else get v k.

(** [a || b]. *)
Definition or_else (a b : value) : value :=
  if truthy a then a else b.

(** [items.join(sep)] over strings already converted. *)
Fixpoint join_strings (sep : string) (items : list string) : string :=
  match items with
  | [] => ""
  | [x] => x
  | x :: rest => x +:+ sep +:+ join_strings sep rest
  end.

(** What ToString returns on the values of this embedding, when it
    returns ([printable]); an array prints as its elements joined by
    commas, null and undefined elements as nothing. *)
Fixpoint toString (v : value) : string :=
  match v with
  | VUndefined => "undefined"
  | VNull => "null"
  | VBool true => "true"
  | VBool false => "false"
  | VNum r => r
  | VStr s => s
  | VArr items =>
      join_strings ","
        (map (fun x => if is_nullish x then "" else toString x) items)
  | VObj _ => "[object Object]"
  end.

(** Whether ToString returns on a value, and with it ToPrimitive, the
    operand conversion of [+], and a template literal.  On an object the
    conversion calls [toString] and [valueOf]; an own [toString] field,
    which is not a function, hides the inherited method, and then no
    method yields a primitive: a TypeError.  On an array it joins the
    elements, converting each one that is neither null nor undefined. *)
Fixpoint printable (v : value) : bool :=
  match v with
  | VArr items => forallb (fun x => is_nullish x || printable x) items
  | VObj fields => negb (existsb (fun kv => String.eqb (fst kv) "toString") fields)
  | _ => true
  end.

(** What [items.join(sep)] returns when it returns. *)
Definition join (sep : string) (items : list value) : string :=
  join_strings sep (map (fun x => if is_nullish x then "" else toString x) items).

(** [items.join(sep)], which converts the elements. *)
Definition join_checked (sep : string) (items : list value) : result string :=
  if printable (VArr items) then Ok (join sep items) else Throw.

(** ** extractTextFromChunk *)

(** The callback of the first [map]:
    [typeof part === 'string' ? part : part?.text || part?.content || ''] *)
Definition part_text (part : value) : value :=
  if is_string part then part
  else or_else (get_opt part "text") (or_else (get_opt part "content") (VStr "")).

(** The callback of the second [map]:
    [part?.text || part?.content || (typeof part === 'string' ? part : '')] *)
Definition part_text_kwargs (part : value) : value :=
  or_else (get_opt part "text")
    (or_else (get_opt part "content") (if is_string part then part else VStr "")).

(** The probes of [extractTextFromChunk], in the order of the source; each
    answers [Some v] when its [return v] is reached, and throws when its
    [join] does. *)
Definition probe_content (chunk : value) : result (option value) :=
  let content := get chunk "content" in
  Ok (if is_string content && truthy content then Some content else None).

Definition probe_content_parts (chunk : value) : result (option value) :=
  match get chunk "content" with
  | VArr (p :: ps) =>
      match join_checked "" (map part_text (p :: ps)) with
      | Ok text => Ok (if truthy (VStr text) then Some (VStr text) else None)
      | Throw => Throw
      end
  | _ => Ok None
  end.

Definition probe_text (chunk : value) : result (option value) :=
  Ok (if truthy (get chunk "text") then Some (get chunk "text") else None).

Definition probe_kwargs (chunk : value) : result (option value) :=
  let content := get_opt (get chunk "kwargs") "content" in
  if truthy content then
    match content with
    | VStr _ => Ok (Some content)
    | VArr (p :: ps) =>
        match join_checked "" (map part_text_kwargs (p :: ps)) with
        | Ok text => Ok (Some (VStr text))
        | Throw => Throw
        end
    | _ => Ok None
    end
  else Ok None.

Definition probe_lc_kwargs (chunk : value) : result (option value) :=
  let content := get_opt (get chunk "lc_kwargs") "content" in
  Ok (if truthy content && is_string content then Some content else None).

Definition probe_message (chunk : value) : result (option value) :=
  let content := get_opt (get chunk "message") "content" in
  Ok (if truthy content && is_string content then Some content else None).

Fixpoint first_probe (probes : list (value -> result (option value)))
    (chunk : value) : result value :=
  match probes with
  | [] => Ok (VStr "")
  | p :: rest =>
      match p chunk with
      | Ok (Some v) => Ok v
      | Ok None => first_probe rest chunk
      | Throw => Throw
      end
  end.

(** [extractTextFromChunk(chunk, eventName)].  A falsy chunk gives [''];
    the debug record evaluates ['content' in chunk], a TypeError on a
    truthy primitive; then the probes run in order. *)
Definition extractTextFromChunk (chunk : value) : result value :=
  if negb (truthy chunk) then Ok (VStr "")
  else if negb (is_object chunk) then Throw
  else first_probe
         [probe_content; probe_content_parts; probe_text;
          probe_kwargs; probe_lc_kwargs; probe_message] chunk.

(** ** Outbound messages and the transport *)

(** The messages the server writes to a socket; [Thinking None] is
    [{type: "thinking", status: null}], a null [mapAction] is [VNull], and
    [Response] is the greeting, whose fixed text plays no role here. *)
Inductive outbound : Type :=
  | Thinking (status : option string)
  | Stream (content : value)
  | MapAction (action : value)
  | StreamEnd (content : value) (action : value)
  | Error (content : string)
  | Response.

(** A WebSocket as the server sees it: whether [readyState] is [OPEN], and
    what has been handed to [ws.send] so far. *)
Record socket : Type := {
  readyState_OPEN : bool;
  sent : list outbound
}.

(** [wsSend(ws, data)] *)
Definition wsSend (ws : socket) (data : outbound) : socket :=
  if readyState_OPEN ws
  then {| readyState_OPEN := true; sent := sent ws ++ [data] |}
  else ws.

(** ** The per-turn streaming state *)

(** The four [let] variables of the message handler, with the socket the
    handler writes to. *)
Record turn_state : Type := {
  fullResponse : value;
  mapAction : value;
  toolsUsed : list string;
  streamStarted : bool;
  ws : socket
}.

Definition send (data : outbound) (st : turn_state) : turn_state :=
  {| fullResponse := fullResponse st; mapAction := mapAction st;
     toolsUsed := toolsUsed st; streamStarted := streamStarted st;
     ws := wsSend (ws st) data |}.

Definition set_fullResponse (v : value) (st : turn_state) : turn_state :=
  {| fullResponse := v; mapAction := mapAction st;
     toolsUsed := toolsUsed st; streamStarted := streamStarted st;
     ws := ws st |}.

Definition set_mapAction (v : value) (st : turn_state) : turn_state :=
  {| fullResponse := fullResponse st; mapAction := v;
     toolsUsed := toolsUsed st; streamStarted := streamStarted st;
     ws := ws st |}.

Definition push_toolsUsed (name : string) (st : turn_state) : turn_state :=
  {| fullResponse := fullResponse st; mapAction := mapAction st;
     toolsUsed := toolsUsed st ++ [name]; streamStarted := streamStarted st;
     ws := ws st |}.

Definition set_streamStarted (st : turn_state) : turn_state :=
  {| fullResponse := fullResponse st; mapAction := mapAction st;
     toolsUsed := toolsUsed st; streamStarted := true;
     ws := ws st |}.

Definition close_socket (st : turn_state) : turn_state :=
  {| fullResponse := fullResponse st; mapAction := mapAction st;
     toolsUsed := toolsUsed st; streamStarted := streamStarted st;
     ws := {| readyState_OPEN := false; sent := sent (ws st) |} |}.

(** How a piece of handler code ends: normally, or by an exception that
    reaches the [catch] of the turn; the state (what was sent) survives. *)
Inductive outcome (A : Type) : Type :=
  | Done (a : A)
  | Raised (a : A).
Arguments Done {A} a.
Arguments Raised {A} a.

Definition state_of {A : Type} (o : outcome A) : A :=
  match o with Done a | Raised a => a end.

(** What [fullResponse += x] assigns when it returns: both operands go
    through ToPrimitive and, one of them being a string wherever the
    handler reaches this statement, the result is the concatenation of
    their renderings. *)
Definition append_response (x : value) (st : turn_state) : turn_state :=
  set_fullResponse (VStr (toString (fullResponse st) +:+ toString x)) st.

(** The two statements that forward a fragment, [fullResponse += x] and
    the [wsSend] of the stream message; the first throws when one of its
    operands cannot be converted. *)
Definition forward (x : value) (st : turn_state) : outcome turn_state :=
  if printable (fullResponse st) && printable x
  then Done (send (Stream x) (append_response x st))
  else Raised st.

(** The [if (!streamStarted) { ... }] block of both streaming paths. *)
Definition start_stream (st : turn_state) : turn_state :=
  if streamStarted st then st
  else send (Thinking None) (set_streamStarted st).

(** [`Using ${toolName.replace(/_/g, " ")}...`] *)
Definition using_status (toolName : string) : string :=
  "Using " +:+ replace_underscores toolName +:+ "...".

(** SameValueZero on values that are not objects; two objects are the
    same only when they are one object, which a tree cannot tell, and the
    arrays compared here come from different events. *)
Definition same_value_zero (a b : value) : bool :=
  match a, b with
  | VUndefined, VUndefined => true
  | VNull, VNull => true
  | VBool x, VBool y => Bool.eqb x y
  | VNum x, VNum y => String.eqb x y
  | VStr x, VStr y => String.eqb x y
  | _, _ => false
  end.

(** [fullResponse.includes(text)]: the string method on a string, which
    converts [text]; the array method on an array, which compares; a
    TypeError on anything else (no such method). *)
Definition response_includes (response text : value) : result bool :=
  match response with
  | VStr s => if printable text then Ok (includes s (toString text)) else Throw
  | VArr items => Ok (existsb (same_value_zero text) items)
  | _ => Throw
  end.

Section Handlers.

(** [JSON.parse]; [None] when it throws. *)
Variable JSON_parse : string -> option value.

(** The [try] block shared by [handleToolEnd] and the [on_tool_end]
    branch: parse the tool output and read its [mapAction]; [None] when
    the parse throws, when reading the field throws (a parsed [null]), or
    when the field is falsy. *)
Definition extractSideAction (resultText : string) : option value :=
  match JSON_parse resultText with
  | None => None
  | Some parsed =>
      match get_strict parsed "mapAction" with
      | Throw => None
      | Ok action => if truthy action then Some action else None
      end
  end.

(** *** The callbacks *)

Definition handleLLMNewToken (token : string) (st : turn_state) : turn_state :=
  if truthy (VStr token) then state_of (forward (VStr token) (start_stream st))
  else st.

Definition handleToolStart (toolName : string) (st : turn_state) : turn_state :=
  send (Thinking (Some (using_status toolName))) (push_toolsUsed toolName st).

(** [JSON.parse(output)] converts its argument to a string first; inside
    the [try], a conversion that throws yields no action either. *)
Definition side_action_of (output : value) : option value :=
  if printable output then extractSideAction (toString output) else None.

(** What follows the extraction inside the [try]: the assignment, the
    log line, whose template converts [mapAction.type], and the [wsSend].
    When the conversion throws the action stays captured and is not
    sent. *)
Definition capture (action : value) (st : turn_state) : turn_state :=
  if printable (get action "type")
  then send (MapAction action) (set_mapAction action st)
  else set_mapAction action st.

Definition handleToolEnd (output : value) (st : turn_state) : turn_state :=
  let st1 :=
    match side_action_of output with
    | Some action => capture action st
    | None => st
    end in
  send (Thinking (Some "Generating response...")) st1.

(** *** The body of the [for await] loop *)

(** An item of [agent.streamEvents(...)]: [event.event], [event.name] and
    [event.data]. *)
Record stream_event : Type := {
  event : string;
  name : string;
  data : value
}.

Definition on_tool_start (e : stream_event) (st : turn_state) : turn_state :=
  if String.eqb (event e) "on_tool_start"
     && negb (existsb (String.eqb (name e)) (toolsUsed st))
  then send (Thinking (Some (using_status (name e)))) (push_toolsUsed (name e) st)
  else st.

Definition on_tool_end (e : stream_event) (st : turn_state) : turn_state :=
  if String.eqb (event e) "on_tool_end" && negb (truthy (mapAction st))
  then
    let toolOutput := get_opt (data e) "output" in
    let st1 :=
      if truthy toolOutput then
        match side_action_of toolOutput with
        | Some action => capture action st
        | None => st
        end
      else st in
    send (Thinking (Some "Generating response...")) st1
  else st.

Definition on_chat_model_stream (e : stream_event) (st : turn_state) : outcome turn_state :=
  if String.eqb (event e) "on_chat_model_stream" then
    match extractTextFromChunk (get_opt (data e) "chunk") with
    | Throw => Raised st
    | Ok text =>
        if truthy text then
          match response_includes (fullResponse st) text with
          | Throw => Raised st
          | Ok true => Done st
          | Ok false => forward text (start_stream st)
          end
        else Done st
    end
  else Done st.

Definition on_chain_end (e : stream_event) (st : turn_state) : turn_state :=
  if String.eqb (event e) "on_chain_end" && String.eqb (name e) "AgentExecutor"
  then
    let output := get_opt (get_opt (data e) "output") "output" in
    if truthy output && negb (streamStarted st)
    then set_fullResponse output st
    else st
  else st.

(** One iteration of the loop: the four [if] statements in order. *)
Definition handle_event (e : stream_event) (st : turn_state) : outcome turn_state :=
  match on_chat_model_stream e (on_tool_end e (on_tool_start e st)) with
  | Done st' => Done (on_chain_end e st')
  | Raised st' => Raised st'
  end.

(** *** Driving the agent *)

(** What happens, in order, while the turn awaits the agent: a callback
    fires, the stream yields an event, or the socket closes under it. *)
Inductive feed_item : Type :=
  | CbLLMNewToken (token : string)
  | CbToolStart (toolName : string)
  | CbToolEnd (output : value)
  | Event (e : stream_event)
  | Closed.

Definition step (item : feed_item) (st : turn_state) : outcome turn_state :=
  match item with
  | CbLLMNewToken token => Done (handleLLMNewToken token st)
  | CbToolStart toolName => Done (handleToolStart toolName st)
  | CbToolEnd output => Done (handleToolEnd output st)
  | Event e => handle_event e st
  | Closed => Done (close_socket st)
  end.

Fixpoint drive (feed : list feed_item) (st : turn_state) : outcome turn_state :=
  match feed with
  | [] => Done st
  | item :: rest =>
      match step item st with
      | Done st' => drive rest st'
      | Raised st' => Raised st'
      end
  end.

(** *** Chat history *)

Inductive chat_message : Type :=
  | HumanMessage (content : string)
  | AIMessage (content : string).

(** The condition [x?.trim()]: false on null and undefined (the call is
    skipped) and on a string of white space, true on any other string, a
    TypeError on a value that has no [trim]. *)
Definition trim_is_truthy (x : value) : result bool :=
  match x with
  | VUndefined | VNull => Ok false
  | VStr s => Ok (negb (trim_is_empty s))
  | _ => Throw
  end.

(** [if (h.length > 20) h = h.slice(-20)] *)
Definition keep_manageable (h : list chat_message) : list chat_message :=
  if Nat.ltb 20 (length h) then drop (length h - 20) h else h.

(** The "Update chat history" block; [HumanMessage] and [AIMessage] are
    only built from strings, [trim] having succeeded. *)
Definition update_history (userMessage response : value)
    (h : list chat_message) : outcome (list chat_message) :=
  match trim_is_truthy userMessage with
  | Throw => Raised h
  | Ok pushUser =>
      let h1 := if pushUser then h ++ [HumanMessage (toString userMessage)] else h in
      match trim_is_truthy response with
      | Throw => Raised h1
      | Ok pushAI =>
          let h2 := if pushAI then h1 ++ [AIMessage (toString response)] else h1 in
          Done (keep_manageable h2)
      end
  end.

(** *** One chat message *)

Definition initial_state (s : socket) : turn_state :=
  {| fullResponse := VStr ""; mapAction := VNull; toolsUsed := [];
     streamStarted := false; ws := s |}.

Definition error_text : string :=
  "Sorry, I encountered an error processing your request. Please try again.".

(** The inner [try] block.  [history] is [session.chatHistory], [None]
    when [sessions.get(sessionId)] found nothing, in which case reading the
    field throws before the agent runs.  [agent_raises] tells whether the
    agent ends the feed by throwing (a model error, a network failure). *)
Definition try_block (history : option (list chat_message))
    (userMessage : value) (feed : list feed_item) (agent_raises : bool)
    (s : socket) : outcome (socket * option (list chat_message)) :=
  match history with
  | None => Raised (s, None)
  | Some h =>
      match drive feed (initial_state s) with
      | Raised st => Raised (ws st, Some h)
      | Done st =>
          if agent_raises then Raised (ws st, Some h)
          else
            let s1 := wsSend (ws st) (StreamEnd (fullResponse st) (mapAction st)) in
            match update_history userMessage (fullResponse st) h with
            | Done h' => Done (s1, Some h')
            | Raised h' => Raised (s1, Some h')
            end
      end
  end.

(** The [if (message.type === "chat") { ... }] block from its first
    [wsSend] on: the indicator, the [try] with its [catch], and the final
    clearing of the indicator. *)
Definition chat_block (history : option (list chat_message))
    (userMessage : value) (feed : list feed_item) (agent_raises : bool)
    (s : socket) : socket * option (list chat_message) :=
  let s0 := wsSend s (Thinking (Some "Thinking...")) in
  let r :=
    match try_block history userMessage feed agent_raises s0 with
    | Done r => r
    | Raised (s1, h) => (wsSend s1 (Error error_text), h)
    end in
  (wsSend (fst r) (Thinking None), snd r).

(** The [if (message.type === "chat") { ... }] block.  Its first
    statement after reading the content logs the user's message through a
    template, which converts it to a string; this is outside the inner
    [try], so a content that cannot be converted ends the handler in the
    outer [catch], which only logs: nothing is sent and nothing changes. *)
Definition chat_turn (history : option (list chat_message))
    (userMessage : value) (feed : list feed_item) (agent_raises : bool)
    (s : socket) : socket * option (list chat_message) :=
  if printable userMessage
  then chat_block history userMessage feed agent_raises s
  else (s, history).

End Handlers.

(** ** The server: connections and the session store *)

(** A session object, [{ chatHistory, ws }]; the socket is named by the
    index of its connection. *)
Record session : Type := {
  chatHistory : list chat_message;
  session_ws : nat
}.

(** What one run of the [connection] callback closes over: its
    [sessionId] and its [ws]. *)
Record connection : Type := {
  sessionId : string;
  conn_ws : socket
}.

(** The module state: the [sessions] Map, which holds references to
    session objects; the objects themselves, by address; and the
    connections accepted so far, in order. *)
Record server : Type := {
  sessions : gmap string nat;
  heap : list session;
  connections : list connection
}.

Definition empty_server : server :=
  {| sessions := ∅; heap := []; connections := [] |}.

(** [Date.now().toString().slice(-6)] *)
Definition new_sessionId (now : N) : string :=
  slice_last 6 (N_toString now).

(** [session.chatHistory = h] on the object at [loc]. *)
Definition set_chatHistory (h : list chat_message) (s : session) : session :=
  {| chatHistory := h; session_ws := session_ws s |}.

(** The [connection] callback, for a client accepted when [Date.now()]
    is [now]: a new session object is stored under the new identifier and
    the greeting is sent. *)
Definition on_connection (now : N) (srv : server) : server :=
  let id := new_sessionId now in
  let c := length (connections srv) in
  let loc := length (heap srv) in
  {| sessions := <[id := loc]> (sessions srv);
     heap := heap srv ++ [{| chatHistory := []; session_ws := c |}];
     connections := connections srv ++
       [{| sessionId := id;
           conn_ws := wsSend {| readyState_OPEN := true; sent := [] |} Response |}] |}.

(** The [close] handler of connection [c]. *)
Definition on_close (c : nat) (srv : server) : server :=
  match connections srv !! c with
  | None => srv
  | Some conn =>
      {| sessions := delete (sessionId conn) (sessions srv);
         heap := heap srv;
         connections :=
           <[c := {| sessionId := sessionId conn;
                     conn_ws := {| readyState_OPEN := false;
                                   sent := sent (conn_ws conn) |} |}]>
             (connections srv) |}
  end.

(** [session.chatHistory] for [session = sessions.get(id)]; [None] when
    the Map has no such entry. *)
Definition history_of (srv : server) (id : string) : option (list chat_message) :=
  match sessions srv !! id with
  | Some loc => chatHistory <$> heap srv !! loc
  | None => None
  end.

Section Server.

Variable JSON_parse : string -> option value.

(** The [message] handler of connection [c].  A payload that does not
    parse, a parsed [null] (reading [message.type] throws), or a chat
    request whose content cannot be logged, ends in the outer [catch],
    which only logs.  The session is looked up once, before the turn; the
    turn mutates that object.  When the socket closes while the turn
    awaits the agent, the [close] handler has run as well. *)
Definition on_message (c : nat) (payload : string) (feed : list feed_item)
    (agent_raises : bool) (srv : server) : server :=
  match connections srv !! c with
  | None => srv
  | Some conn =>
      match JSON_parse payload with
      | None => srv
      | Some message =>
          let found := sessions srv !! sessionId conn in
          match get_strict message "type" with
          | Throw => srv
          | Ok (VStr "chat") =>
              let userMessage := get message "content" in
              if negb (printable userMessage) then srv else
              let r := chat_turn JSON_parse (history_of srv (sessionId conn))
                         userMessage feed agent_raises (conn_ws conn) in
              let closed := readyState_OPEN (conn_ws conn)
                            && negb (readyState_OPEN (fst r)) in
              {| sessions :=
                   if closed then delete (sessionId conn) (sessions srv)
                   else sessions srv;
                 heap :=
                   match found, snd r with
                   | Some loc, Some h => alter (set_chatHistory h) loc (heap srv)
                   | _, _ => heap srv
                   end;
                 connections :=
                   <[c := {| sessionId := sessionId conn; conn_ws := fst r |}]>
                     (connections srv) |}
          | Ok _ => srv
          end
      end
  end.

(** What the event loop delivers to the server. *)
Inductive input : Type :=
  | Connection (now : N)
  | Message (c : nat) (payload : string) (feed : list feed_item) (agent_raises : bool)
  | Close (c : nat).

Definition serve (i : input) (srv : server) : server :=
  match i with
  | Connection now => on_connection now srv
  | Message c payload feed agent_raises => on_message c payload feed agent_raises srv
  | Close c => on_close c srv
  end.

Definition serve_all (inputs : list input) (srv : server) : server :=
  fold_left (fun s i => serve i s) inputs srv.

End Server.

(** ** Tool schemas: jsonSchemaToZod *)

(** The validators the translation builds: [z.string()],
    [z.enum(values)], [z.number()], [z.boolean()], [z.any()]. *)
Inductive zod_base : Type :=
  | ZString
  | ZEnum (values : list string)
  | ZNumber
  | ZBoolean
  | ZAny.

(** A validator with what [.describe(text)] and [.optional()] add. *)
Record zod : Type := {
  base : zod_base;
  description : option string;
  optional : bool
}.

(** One entry of [inputSchema.properties]: [type] is any JSON value,
    [enum] an array of strings when present, [description] a string when
    present. *)
Record property : Type := {
  prop_type : value;
  prop_enum : option (list string);
  prop_description : option string
}.

(** A tool's [inputSchema]; either field may be missing. *)
Record json_schema : Type := {
  properties : option (gmap string property);
  required : option (list string)
}.

(** The [switch (prop.type)], whose cases compare with [===]. *)
Definition zod_base_of (prop : property) : zod_base :=
  match prop_type prop with
  | VStr t =>
      if String.eqb t "string" then
        match prop_enum prop with
        | Some values => ZEnum values
        | None => ZString
        end
      else if String.eqb t "number" then ZNumber
      else if String.eqb t "boolean" then ZBoolean
      else ZAny
  | _ => ZAny
  end.

(** The body of the [for] loop, for the entry [key]: the base type, then
    [describe] under a truthy description, then [optional] unless
    [required.includes(key)]. *)
Definition zod_of (required : list string) (key : string) (prop : property) : zod :=
  {| base := zod_base_of prop;
     description :=
       match prop_description prop with
       | Some d => if truthy (VStr d) then Some d else None
       | None => None
       end;
     optional := negb (existsb (String.eqb key) required) |}.

(** [jsonSchemaToZod(jsonSchema)]: the shape handed to [z.object], that
    is the own keys of [zodProps].  The assignment [zodProps[key] = zodType]
    on an object literal creates the key, except for the key ["__proto__"],
    where it runs the setter inherited from [Object.prototype] and creates
    none. *)
Definition jsonSchemaToZod (jsonSchema : json_schema) : gmap string zod :=
  let props := default ∅ (properties jsonSchema) in
  let req := default [] (required jsonSchema) in
  map_imap (fun key prop =>
              if String.eqb key "__proto__" then None
              else Some (zod_of req key prop)) props.

(** ** A reader for a fragment of JSON

    Used to run the handlers on concrete tool outputs.  On the fragment
    it reads (objects, arrays, strings without unicode escapes, integers of
    at most fifteen digits, [true], [false], [null], with white space) it
    returns what [JSON.parse] returns; outside it answers [None]. *)
Module JsonFragment.

Definition quote : ascii := "034"%char.
Definition backslash : ascii := "092"%char.

Definition is_digit (c : ascii) : bool :=
  let n := nat_of_ascii c in Nat.leb 48 n && Nat.leb n 57.

Definition is_json_space (c : ascii) : bool :=
  let n := nat_of_ascii c in
  Nat.eqb n 32 || Nat.eqb n 9 || Nat.eqb n 10 || Nat.eqb n 13.

Fixpoint skip_space (cs : list ascii) : list ascii :=
  match cs with
  | c :: rest => if is_json_space c then skip_space rest else cs
  | [] => []
  end.

Fixpoint expect (word cs : list ascii) : option (list ascii) :=
  match word, cs with
  | [], _ => Some cs
  | w :: word', c :: cs' => if Ascii.eqb w c then expect word' cs' else None
  | _ :: _, [] => None
  end.

Fixpoint take_digits (cs : list ascii) : list ascii * list ascii :=
  match cs with
  | c :: rest =>
      if is_digit c then let '(ds, tl) := take_digits rest in (c :: ds, tl)
      else ([], cs)
  | [] => ([], [])
  end.

(** An integer literal, an optional minus sign before zero or before
    digits that do not start with zero, of at most fifteen digits and not
    continued by a fraction or an exponent; the value is its own
    rendering, minus zero printing as zero. *)
Definition read_number (negative : bool) (cs : list ascii) : option (value * list ascii) :=
  let '(ds, rest) := take_digits cs in
  let continued :=
    match rest with
    | c :: _ => Ascii.eqb c "."%char || Ascii.eqb c "e"%char || Ascii.eqb c "E"%char
    | [] => false
    end in
  match ds with
  | [] => None
  | d :: more =>
      if continued || Nat.ltb 15 (length ds) then None
      else if Ascii.eqb d "0"%char then
        match more with
        | [] => Some (VNum "0", rest)
        | _ :: _ => None
        end
      else
        let digits := string_of_list_ascii ds in
        Some (VNum (if negative then "-" +:+ digits else digits), rest)
  end.

Definition unescape (c : ascii) : option ascii :=
  if Ascii.eqb c quote then Some quote
  else if Ascii.eqb c backslash then Some backslash
  else if Ascii.eqb c "/"%char then Some "/"%char
  else if Ascii.eqb c "b"%char then Some "008"%char
  else if Ascii.eqb c "f"%char then Some "012"%char
  else if Ascii.eqb c "n"%char then Some "010"%char
  else if Ascii.eqb c "r"%char then Some "013"%char
  else if Ascii.eqb c "t"%char then Some "009"%char
  else None.

(** The characters of a string literal after its opening quote. *)
Fixpoint read_string (cs : list ascii) : option (string * list ascii) :=
  match cs with
  | [] => None
  | c :: rest =>
      if Ascii.eqb c quote then Some ("", rest)
      else if Nat.ltb (nat_of_ascii c) 32 then None
      else if Ascii.eqb c backslash then
        match rest with
        | e :: rest' =>
            match unescape e, read_string rest' with
            | Some c', Some (s, tl) => Some (String c' s, tl)
            | _, _ => None
            end
        | [] => None
        end
      else
        match read_string rest with
        | Some (s, tl) => Some (String c s, tl)
        | None => None
        end
  end.

Fixpoint read_value (fuel : nat) (cs : list ascii) : option (value * list ascii) :=
  match fuel with
  | O => None
  | S fuel' =>
      match skip_space cs with
      | [] => None
      | c :: rest =>
          if Ascii.eqb c "n"%char then
            option_map (pair VNull) (expect (list_ascii_of_string "ull") rest)
          else if Ascii.eqb c "t"%char then
            option_map (pair (VBool true)) (expect (list_ascii_of_string "rue") rest)
          else if Ascii.eqb c "f"%char then
            option_map (pair (VBool false)) (expect (list_ascii_of_string "alse") rest)
          else if Ascii.eqb c quote then
            match read_string rest with
            | Some (s, tl) => Some (VStr s, tl)
            | None => None
            end
          else if Ascii.eqb c "-"%char then read_number true rest
          else if is_digit c then read_number false (c :: rest)
          else if Ascii.eqb c "["%char then
            match skip_space rest with
            | c' :: tl =>
                if Ascii.eqb c' "]"%char then Some (VArr [], tl)
                else
                  match read_items fuel' rest with
                  | Some (items, tl') => Some (VArr items, tl')
                  | None => None
                  end
            | [] => None
            end
          else if Ascii.eqb c "{"%char then
            match skip_space rest with
            | c' :: tl =>
                if Ascii.eqb c' "}"%char then Some (VObj [], tl)
                else
                  match read_members fuel' [] rest with
                  | Some (fields, tl') => Some (VObj fields, tl')
                  | None => None
                  end
            | [] => None
            end
          else None
      end
  end
with read_items (fuel : nat) (cs : list ascii) : option (list value * list ascii) :=
  match fuel with
  | O => None
  | S fuel' =>
      match read_value fuel' cs with
      | Some (v, tl) =>
          match skip_space tl with
          | c :: tl' =>
              if Ascii.eqb c "]"%char then Some ([v], tl')
              else if Ascii.eqb c ","%char then
                match read_items fuel' tl' with
                | Some (vs, tl'') => Some (v :: vs, tl'')
                | None => None
                end
              else None
          | [] => None
          end
      | None => None
      end
  end
with read_members (fuel : nat) (acc : list (string * value)) (cs : list ascii)
    : option (list (string * value) * list ascii) :=
  match fuel with
  | O => None
  | S fuel' =>
      match skip_space cs with
      | q :: tl =>
          if Ascii.eqb q quote then
            match read_string tl with
            | Some (k, tl1) =>
                match skip_space tl1 with
                | colon :: tl2 =>
                    if Ascii.eqb colon ":"%char then
                      match read_value fuel' tl2 with
                      | Some (v, tl3) =>
                          let acc' := set_field k v acc in
                          match skip_space tl3 with
                          | c :: tl4 =>
                              if Ascii.eqb c "}"%char then Some (acc', tl4)
                              else if Ascii.eqb c ","%char
                              then read_members fuel' acc' tl4
                              else None
                          | [] => None
                          end
                      | None => None
                      end
                    else None
                | [] => None
                end
            | None => None
            end
          else None
      | [] => None
      end
  end.

(** The whole text must be one value, white space around it allowed. *)
Definition parse (text : string) : option value :=
  let cs := list_ascii_of_string text in
  match read_value (2 * length cs + 2) cs with
  | Some (v, rest) =>
      match skip_space rest with
      | [] => Some v
      | _ :: _ => None
      end
  | None => None
  end.

(** A string literal of JSON text, for keys and strings without quotes,
    backslashes or control characters in them. *)
Definition q (s : string) : string :=
  String quote (s +:+ String quote "").

End JsonFragment.

(** ** Observations on what a socket was sent *)

Definition is_stream (m : outbound) : bool :=
  match m with Stream _ => true | _ => false end.

Definition is_map_action (m : outbound) : bool :=
  match m with MapAction _ => true | _ => false end.

Definition is_status_null (m : outbound) : bool :=
  match m with Thinking None => true | _ => false end.

Definition is_error (m : outbound) : bool :=
  match m with Error _ => true | _ => false end.

Definition is_stream_end (m : outbound) : bool :=
  match m with StreamEnd _ _ => true | _ => false end.

(** How many of the messages satisfy [p]. *)
Definition count (p : outbound -> bool) (out : list outbound) : nat :=
  length (List.filter p out).

(** The contents of the [stream] messages, in order. *)
Fixpoint stream_contents (out : list outbound) : list value :=
  match out with
  | [] => []
  | Stream content :: rest => content :: stream_contents rest
  | _ :: rest => stream_contents rest
  end.

Fixpoint concat_strings (l : list string) : string :=
  match l with
  | [] => ""
  | x :: rest => x +:+ concat_strings rest
  end.

(** The text a client assembles from the [stream] messages
    ([streamingRef.current += data.content]). *)
Definition streamed_text (out : list outbound) : string :=
  concat_strings (map toString (stream_contents out)).

(** ** The chunk shapes the extraction supports *)

(** A content part: a bare string, [{type: "text", text}], or [{content}]. *)
Inductive part_shape : Type :=
  | PlainPart
  | TextPart
  | ContentPart.

Definition part_value (p : part_shape * string) : value :=
  match p with
  | (PlainPart, s) => VStr s
  | (TextPart, s) => VObj [("type", VStr "text"); ("text", VStr s)]
  | (ContentPart, s) => VObj [("content", VStr s)]
  end.

(** The shapes in the order the source probes them: [content] a string,
    [content] a list of parts, a top-level [text], [kwargs.content] a
    string or a list of parts, [lc_kwargs.content], [message.content]. *)
Inductive chunk_shape : Type :=
  | ContentString (t : string)
  | ContentParts (parts : list (part_shape * string))
  | TextField (t : string)
  | KwargsString (t : string)
  | KwargsParts (parts : list (part_shape * string))
  | LcKwargsString (t : string)
  | MessageString (t : string).

(** The text a chunk of a given shape carries. *)
Definition chunk_text (sh : chunk_shape) : string :=
  match sh with
  | ContentString t | TextField t | KwargsString t
  | LcKwargsString t | MessageString t => t
  | ContentParts parts | KwargsParts parts => concat_strings (map snd parts)
  end.

Definition chunk_value (sh : chunk_shape) : value :=
  match sh with
  | ContentString t => VObj [("content", VStr t)]
  | ContentParts parts => VObj [("content", VArr (map part_value parts))]
  | TextField t => VObj [("text", VStr t)]
  | KwargsString t => VObj [("kwargs", VObj [("content", VStr t)])]
  | KwargsParts parts =>
      VObj [("kwargs", VObj [("content", VArr (map part_value parts))])]
  | LcKwargsString t => VObj [("lc_kwargs", VObj [("content", VStr t)])]
  | MessageString t => VObj [("message", VObj [("content", VStr t)])]
  end.

(** The event-log replay of a chunk. *)
Definition stream_chunk (sh : chunk_shape) : feed_item :=
  Event {| event := "on_chat_model_stream"; name := "ChatMistralAI";
           data := VObj [("chunk", chunk_value sh)] |}.

(** A fragment arriving by the token callback ([inl]) or by the event
    log ([inr]). *)
Definition fragment_item (f : string + chunk_shape) : feed_item :=
  match f with
  | inl token => CbLLMNewToken token
  | inr sh => stream_chunk sh
  end.

Fixpoint callback_tokens (feed : list (string + chunk_shape)) : list string :=
  match feed with
  | [] => []
  | inl token :: rest => token :: callback_tokens rest
  | inr _ :: rest => callback_tokens rest
  end.

(** Every event-log fragment replays a token the callback has already
    delivered ([seen] holds the tokens delivered so far). *)
Fixpoint replays_follow (seen : list string) (feed : list (string + chunk_shape)) : bool :=
  match feed with
  | [] => true
  | inl token :: rest => replays_follow (token :: seen) rest
  | inr sh :: rest =>
      existsb (String.eqb (chunk_text sh)) seen && replays_follow seen rest
  end.

(** No fragment occurs in the text accumulated before it. *)
Fixpoint fresh_fragments (accumulated : string) (texts : list string) : bool :=
  match texts with
  | [] => true
  | t :: rest =>
      negb (includes accumulated t) && fresh_fragments (accumulated +:+ t) rest
  end.

Definition non_empty (t : string) : bool := negb (String.eqb t "").

(** ** Shapes of a feed *)

Definition is_closed (item : feed_item) : bool :=
  match item with Closed => true | _ => false end.

(** The socket does not close while the turn runs. *)
Definition stays_open (feed : list feed_item) : bool :=
  forallb (fun item => negb (is_closed item)) feed.

(** The event by which the agent hands over its final answer. *)
Definition agent_end (output : value) : feed_item :=
  Event {| event := "on_chain_end"; name := "AgentExecutor";
           data := VObj [("output", VObj [("output", output)])] |}.

Definition is_agent_end (item : feed_item) : bool :=
  match item with
  | Event e => String.eqb (event e) "on_chain_end" && String.eqb (name e) "AgentExecutor"
  | _ => false
  end.

(** An item ahead of the final answer, on a socket that stays open. *)
Definition before_answer (item : feed_item) : bool :=
  negb (is_closed item) && negb (is_agent_end item).

Definition open_socket : socket :=
  {| readyState_OPEN := true; sent := [] |}.

(** ** Invariants of a turn, over the messages sent since [base] *)

(** The indicator is cleared when streaming starts, and only then; a
    stream message is sent only once it has started, and, as long as the
    accumulator is a string, exactly when it has started; no error and no
    stream end is sent. *)
Definition cleared_once (base : list outbound) (st : turn_state) : Prop :=
  readyState_OPEN (ws st) = true
  /\ exists new,
       sent (ws st) = base ++ new
       /\ count is_status_null new = (if streamStarted st then 1 else 0)
       /\ (existsb is_stream new = true -> streamStarted st = true)
       /\ (is_string (fullResponse st) = true ->
           existsb is_stream new = streamStarted st)
       /\ count is_error new = 0
       /\ count is_stream_end new = 0.

(** The final answer of the agent, when the item brings one, is a string
    or is falsy (and then ignored). *)
Definition string_answer (item : feed_item) : bool :=
  match item with
  | Event e =>
      negb (is_agent_end item)
      || (let output := get_opt (get_opt (data e) "output") "output" in
          is_string output || negb (truthy output))
  | _ => true
  end.

(** Until the final answer arrives, the accumulator holds the text of the
    stream messages, and streaming has started exactly when there is
    one. *)
Definition accumulating (base : list outbound) (st : turn_state) : Prop :=
  readyState_OPEN (ws st) = true
  /\ exists new,
       sent (ws st) = base ++ new
       /\ fullResponse st = VStr (streamed_text new)
       /\ existsb is_stream new = streamStarted st
       /\ count is_stream_end new = 0.

(** An action has been sent exactly when one is captured whose type the
    log line can convert, and then it is the captured one. *)
Definition one_action (base : list outbound) (st : turn_state) : Prop :=
  readyState_OPEN (ws st) = true
  /\ exists new,
       sent (ws st) = base ++ new
       /\ List.filter is_map_action new =
          (if truthy (mapAction st) && printable (get (mapAction st) "type")
           then [MapAction (mapAction st)] else []).

Definition is_event (item : feed_item) : bool :=
  match item with Event _ => true | _ => false end.

(** ** Side actions *)

(** The tags the client acts on ([handleMapAction]). *)
Definition recognized_tag (action : value) : bool :=
  match get action "type" with
  | VStr tag =>
      String.eqb tag "SHOW_MARKERS" || String.eqb tag "SHOW_ROUTE"
      || String.eqb tag "CENTER"
  | _ => false
  end.

(** Tool outputs as the tool server prints them,
    [{"result": ..., "mapAction": {...}}]. *)
Definition tool_output (result action : string) : string :=
  "{" +:+ JsonFragment.q "result" +:+ ":" +:+ result +:+ ","
  +:+ JsonFragment.q "mapAction" +:+ ":" +:+ action +:+ "}".

Definition tagged (tag : string) (fields : string) : string :=
  "{" +:+ JsonFragment.q "type" +:+ ":" +:+ JsonFragment.q tag +:+ fields +:+ "}".

Definition markers_output : string :=
  tool_output "[]"
    (tagged "SHOW_MARKERS"
       ("," +:+ JsonFragment.q "markers" +:+ ":[],"
        +:+ JsonFragment.q "fitBounds" +:+ ":true")).

Definition route_output : string :=
  tool_output "{}" (tagged "SHOW_ROUTE" ("," +:+ JsonFragment.q "route" +:+ ":[]")).

Definition teleport_output : string :=
  tool_output "[]" (tagged "TELEPORT" "").

Definition markers_action : value :=
  VObj [("type", VStr "SHOW_MARKERS"); ("markers", VArr []);
        ("fitBounds", VBool true)].

Definition route_action : value :=
  VObj [("type", VStr "SHOW_ROUTE"); ("route", VArr [])].

(** An inbound chat message, [{"type": "chat", "content": text}], for a
    text without quotes, backslashes or control characters. *)
Definition chat_payload (text : string) : string :=
  "{" +:+ JsonFragment.q "type" +:+ ":" +:+ JsonFragment.q "chat" +:+ ","
  +:+ JsonFragment.q "content" +:+ ":" +:+ JsonFragment.q text +:+ "}".

(** ** The client's map *)

(** [{...prev, k1: v1, ...}]: the fields of [prev] with the listed ones
    assigned in order. *)
Definition spread (prev : value) (updates : list (string * value)) : value :=
  VObj (fold_left (fun fields kv => set_field (fst kv) (snd kv) fields) updates
          (match prev with VObj fields => fields | _ => [] end)).

(** [handleMapAction(action)] of the client, as the next [mapState];
    [now] is what [Date.now()] returns.  The [switch] has no default
    case. *)
Definition handleMapAction (now : N) (action prev : value) : value :=
  match get action "type" with
  | VStr tag =>
      if String.eqb tag "SHOW_MARKERS" then
        spread prev
          [("markers", or_else (get action "markers") (VArr []));
           ("route", VNull);
           ("routeKey", VNull);
           ("center", or_else (get action "center") (get prev "center"));
           ("zoom", or_else (get action "zoom") (get prev "zoom"));
           ("fitBounds", get action "fitBounds");
           ("bounds", get action "bounds");
           ("markersKey", VNum (N_toString now))]
      else if String.eqb tag "SHOW_ROUTE" then
        spread prev
          [("markers", VArr []);
           ("route", get action "route");
           ("fitBounds", VBool true);
           ("bounds", get action "bounds");
           ("routeKey", VNum (N_toString now))]
      else if String.eqb tag "CENTER" then
        spread prev
          [("center", get action "center");
           ("zoom", or_else (get action "zoom") (get prev "zoom"))]
      else prev
  | _ => prev
  end.

(** ** Completed exchanges *)

(** A completed exchange: the user's text and the assistant's response. *)
Definition exchange : Type := string * string.

(** The history block run for one exchange. *)
Definition record_exchange (h : list chat_message) (x : exchange) : list chat_message :=
  state_of (update_history (VStr (fst x)) (VStr (snd x)) h).

Definition after_exchanges (xs : list exchange) (h : list chat_message)
    : list chat_message :=
  fold_left record_exchange xs h.

(** The messages an exchange contributes: a text that trims to nothing
    contributes none. *)
Definition exchange_entries (x : exchange) : list chat_message :=
  (if trim_is_empty (fst x) then [] else [HumanMessage (fst x)])
  ++ (if trim_is_empty (snd x) then [] else [AIMessage (snd x)]).

(** Both texts of the exchange are kept. *)
Definition is_complete (x : exchange) : bool :=
  negb (trim_is_empty (fst x)) && negb (trim_is_empty (snd x)).

(** The last [k] elements. *)
Definition last_n {A : Type} (k : nat) (l : list A) : list A :=
  drop (length l - k) l.



(** ** Further observations *)

Definition is_response (m : outbound) : bool :=
  match m with Response => true | _ => false end.

(** The action of the last [map_action] message, null when there is
    none. *)
Definition last_action (out : list outbound) : value :=
  fold_left (fun a m => match m with MapAction action => action | _ => a end)
    out VNull.

(** The messages that follow the first [stream_end]. *)
Fixpoint after_stream_end (out : list outbound) : list outbound :=
  match out with
  | [] => []
  | StreamEnd _ _ :: rest => rest
  | _ :: rest => after_stream_end rest
  end.

(** The event-log report of a tool start. *)
Definition tool_start_event (toolName : string) : feed_item :=
  Event {| event := "on_tool_start"; name := toolName; data := VUndefined |}.

(** The messages the streaming step sends: statuses, tokens, actions. *)
Definition is_step_message (m : outbound) : bool :=
  match m with
  | Thinking _ | Stream _ | MapAction _ => true
  | _ => false
  end.

(** The action is the one of the last [map_action] message of [out]
    (null when there is none), or it is an action whose [type] the log
    line could not convert, which was captured without being sent. *)
Definition sent_or_unlogged (out : list outbound) (action : value) : Prop :=
  action = last_action out \/ printable (get action "type") = false.

(** Over the messages sent since [base] on an open socket: they are step
    messages and the captured action is the one sent last, unless it could
    not be logged. *)
Definition reporting (base : list outbound) (st : turn_state) : Prop :=
  readyState_OPEN (ws st) = true
  /\ exists new,
       sent (ws st) = base ++ new
       /\ sent_or_unlogged new (mapAction st)
       /\ forallb is_step_message new = true.

(** On any socket: what was sent before is still there, only step
    messages were added, and the socket did not reopen. *)
Definition appending (s : socket) (st : turn_state) : Prop :=
  (readyState_OPEN (ws st) = true -> readyState_OPEN s = true)
  /\ exists new,
       sent (ws st) = sent s ++ new
       /\ forallb is_step_message new = true
       /\ (readyState_OPEN s = false -> new = []).

(** ** Observations on the server *)

(** Every identifier of the store names a session object of the heap,
    and no two identifiers name the same object. *)
Definition store_ok (srv : server) : Prop :=
  forall id loc,
    sessions srv !! id = Some loc ->
    loc < length (heap srv)
    /\ forall id', sessions srv !! id' = Some loc -> id' = id.

(** Every identifier of the store is the identifier of an open
    connection. *)
Definition leak_free (srv : server) : Prop :=
  forall id loc,
    sessions srv !! id = Some loc ->
    exists c conn,
      connections srv !! c = Some conn
      /\ sessionId conn = id
      /\ readyState_OPEN (conn_ws conn) = true.

(** Every connection was sent the greeting first, and once. *)
Definition greeted (srv : server) : Prop :=
  forall c conn,
    connections srv !! c = Some conn ->
    exists rest,
      sent (conn_ws conn) = Response :: rest /\ count is_response rest = 0.

Section Requests.

Variable JSON_parse : string -> option value.

(** The payload parses to a document whose [type] is ["chat"]. *)
Definition is_chat_request (payload : string) : bool :=
  match JSON_parse payload with
  | Some message =>
      match get_strict message "type" with
      | Ok (VStr t) => String.eqb t "chat"
      | _ => false
      end
  | None => false
  end.

(** An inbound message that is not a chat request. *)
Definition is_other_request (i : input) : bool :=
  match i with
  | Message _ payload _ _ => negb (is_chat_request payload)
  | _ => false
  end.

End Requests.

(** ** The client: chat panel and message handler *)

(** [s.trimStart()], [s.trimEnd()] and [s.trim()]. *)
Fixpoint trim_start (s : string) : string :=
  match s with
  | EmptyString => EmptyString
  | String c s' => if is_white_space c then trim_start s' else s
  end.

Fixpoint trim_end (s : string) : string :=
  match s with
  | EmptyString => EmptyString
  | String c s' =>
      match trim_end s' with
      | EmptyString => if is_white_space c then EmptyString else String c EmptyString
      | rest => String c rest
      end
  end.

Definition trim (s : string) : string := trim_end (trim_start s).

Inductive role : Type :=
  | User
  | Assistant.

(** The content of a transcript entry: the greeting, whose fixed text
    plays no role here, or a text. *)
Inductive entry_content : Type :=
  | Greeting
  | Text (s : string).

(** An entry of the transcript, [{ role, content, isError }]. *)
Record chat_entry : Type := {
  entry_role : role;
  entry_text : entry_content;
  isError : bool
}.

(** The state of [App]: the transcript, the status shown by the
    indicator ([None] is null), the text being streamed as shown and as
    accumulated in [streamingRef], and the state of the map. *)
Record client : Type := {
  messages : list chat_entry;
  thinkingStatus : option string;
  streamingContent : string;
  streamingRef : string;
  mapState : value
}.

Definition assistant_says (s : string) : chat_entry :=
  {| entry_role := Assistant; entry_text := Text s; isError := false |}.

(** [socket.onmessage] on the parsed message [data]; [now] is what
    [Date.now()] returns.  On [stream], [streamingRef.current += data.content]
    converts the content, and throws before any update when that cannot be
    done.  On [stream_end] the text is [streamingRef.current || data.content];
    when [trim] is missing on it the handler throws before any update. *)
Definition onmessage (now : N) (data : outbound) (cl : client) : client :=
  match data with
  | Response =>
      {| messages := messages cl ++
           [{| entry_role := Assistant; entry_text := Greeting; isError := false |}];
         thinkingStatus := thinkingStatus cl;
         streamingContent := streamingContent cl;
         streamingRef := streamingRef cl;
         mapState := mapState cl |}
  | Thinking status =>
      {| messages := messages cl;
         thinkingStatus := status;
         streamingContent := streamingContent cl;
         streamingRef := streamingRef cl;
         mapState := mapState cl |}
  | MapAction action =>
      {| messages := messages cl;
         thinkingStatus := thinkingStatus cl;
         streamingContent := streamingContent cl;
         streamingRef := streamingRef cl;
         mapState := handleMapAction now action (mapState cl) |}
  | Stream content =>
      if negb (printable content) then cl else
      {| messages := messages cl;
         thinkingStatus := thinkingStatus cl;
         streamingContent := streamingRef cl +:+ toString content;
         streamingRef := streamingRef cl +:+ toString content;
         mapState := mapState cl |}
  | StreamEnd content action =>
      let finalContent := or_else (VStr (streamingRef cl)) content in
      match trim_is_truthy finalContent with
      | Throw => cl
      | Ok shown =>
          {| messages :=
               if shown then messages cl ++ [assistant_says (toString finalContent)]
               else messages cl;
             thinkingStatus := None;
             streamingContent := "";
             streamingRef := "";
             mapState :=
               if truthy action then handleMapAction now action (mapState cl)
               else mapState cl |}
      end
  | Error content =>
      {| messages := messages cl ++
           [{| entry_role := Assistant; entry_text := Text content; isError := true |}];
         thinkingStatus := None;
         streamingContent := "";
         streamingRef := "";
         mapState := mapState cl |}
  end.

(** The client receiving messages in order, each with its clock. *)
Definition receive (timed : list (N * outbound)) (cl : client) : client :=
  fold_left (fun c tm => onmessage (fst tm) (snd tm) c) timed cl.

(** A status is truthy when it is a non-empty string. *)
Definition status_shown (status : option string) : bool :=
  match status with
  | Some s => truthy (VStr s)
  | None => false
  end.

(** [handleSubmit] of the chat panel: the text handed to [onSendMessage],
    if any.  [disabled] is [!connected]. *)
Definition handleSubmit (input : string) (disabled : bool) (cl : client)
    : option string :=
  if truthy (VStr (trim input)) && negb disabled
     && negb (status_shown (thinkingStatus cl))
     && negb (truthy (VStr (streamingContent cl)))
  then Some (trim input)
  else None.

(** [sendMessage] of [App]: on an open socket the text joins the
    transcript, the streaming state is reset and the request document is
    sent; otherwise nothing happens. *)
Definition sendMessage (socket_open : bool) (message : string) (cl : client)
    : client * option value :=
  if socket_open then
    ({| messages := messages cl ++
          [{| entry_role := User; entry_text := Text message; isError := false |}];
        thinkingStatus := thinkingStatus cl;
        streamingContent := "";
        streamingRef := "";
        mapState := mapState cl |},
     Some (VObj [("type", VStr "chat"); ("content", VStr message)]))
  else (cl, None).

(** Nothing shown by the indicator and nothing being streamed. *)
Definition is_idle (cl : client) : Prop :=
  thinkingStatus cl = None /\ streamingContent cl = "" /\ streamingRef cl = "".

(** What the client parses from a message the server serialized: [wire]
    is the round trip of a payload through [JSON.stringify] and
    [JSON.parse].  A status and an error text are strings or null and
    arrive unchanged. *)
Definition deliver (wire : value -> value) (m : outbound) : outbound :=
  match m with
  | Stream content => Stream (wire content)
  | MapAction action => MapAction (wire action)
  | StreamEnd content action => StreamEnd (wire content) (wire action)
  | Thinking _ | Error _ | Response => m
  end.

(** What the development relies on about the round trip: a string
    arrives as it was, null as null, and a property that is undefined,
    being left out, reads as undefined. *)
Definition faithful_on_text (wire : value -> value) : Prop :=
  (forall t, wire (VStr t) = VStr t)
  /\ wire VNull = VNull
  /\ wire VUndefined = VUndefined.

(** A feed item whose streamed text, if it has one, is a string: the
    token of a callback is one; the text extracted from an event's chunk
    must be a string or falsy. *)
Definition textual (item : feed_item) : bool :=
  match item with
  | Event e =>
      negb (String.eqb (event e) "on_chat_model_stream")
      || match extractTextFromChunk (get_opt (data e) "chunk") with
         | Ok text => is_string text || negb (truthy text)
         | Throw => true
         end
  | _ => true
  end.

(** A message of the streaming step whose streamed text is a string. *)
Definition text_message (m : outbound) : bool :=
  match m with
  | Thinking _ | MapAction _ => true
  | Stream content => is_string content
  | _ => false
  end.

(** Since [base], only such messages were sent. *)
Definition text_only (base : list outbound) (st : turn_state) : Prop :=
  exists new, sent (ws st) = base ++ new /\ forallb text_message new = true.

Definition user_says (s : string) : chat_entry :=
  {| entry_role := User; entry_text := Text s; isError := false |}.

(** ** The tool server: the call handler *)

Inductive tool : Type :=
  | SearchPlaces
  | GetPlaceDetails
  | GetDirections
  | Geocode
  | ReverseGeocode
  | NearbySearch.

(** The [case] labels of the [switch (name)]. *)
Definition tool_named (name : string) : option tool :=
  if String.eqb name "search_places" then Some SearchPlaces
  else if String.eqb name "get_place_details" then Some GetPlaceDetails
  else if String.eqb name "get_directions" then Some GetDirections
  else if String.eqb name "geocode" then Some Geocode
  else if String.eqb name "reverse_geocode" then Some ReverseGeocode
  else if String.eqb name "nearby_search" then Some NearbySearch
  else None.

(** What the handler reads of a place: [name], [address], [location.lat]
    and [location.lng]. *)
Record place : Type := {
  place_name : value;
  place_address : value;
  place_lat : value;
  place_lng : value
}.

(** What the handler reads of the directions: [routeCoordinates] and the
    coordinates of [startLocation] and [endLocation]. *)
Record directions : Type := {
  routeCoordinates : value;
  start_lat : value;
  start_lng : value;
  end_lat : value;
  end_lng : value
}.

(** What the handler reads of a geocoded address. *)
Record geocoded : Type := {
  formattedAddress : value;
  geo_lat : value;
  geo_lng : value
}.

(** What the helper of each tool returns, as far as the handler reads
    it; of [reverseGeocode], the [formattedAddress] of its one result. *)
Definition helper_result (t : tool) : Type :=
  match t with
  | SearchPlaces | NearbySearch => list place
  | GetPlaceDetails => place
  | GetDirections => directions
  | Geocode => geocoded
  | ReverseGeocode => value
  end.

(** A helper returns, or throws an error with a message. *)
Inductive helper_outcome (A : Type) : Type :=
  | Returned (a : A)
  | HelperThrew (message : string).

Arguments Returned {A} a.
Arguments HelperThrew {A} message.

(** [error.message]: the text of an error thrown by the program, or the
    engine's text for a TypeError. *)
Inductive failure : Type :=
  | ErrorMessage (text : string)
  | TypeErrorMessage.

(** What the handler returns: the [mapAction] it built for the document
    [{ result, mapAction }], as it is before the document is serialized,
    or the document [{ error, tool, args }] that goes with
    [isError: true]. *)
Inductive tool_reply : Type :=
  | ToolResult (action : value)
  | ToolError (error : failure) (tool_name : string) (tool_args : value).

Definition line_feed : string := String "010"%char EmptyString.

(** The marker of a place,
    [{ position: [lat, lng], title: name, info: `${name}\n${address}` }],
    when the template returns. *)
Definition place_marker (p : place) : value :=
  VObj [("position", VArr [place_lat p; place_lng p]);
        ("title", place_name p);
        ("info", VStr (toString (place_name p) +:+ line_feed
                       +:+ toString (place_address p)))].

(** The template of a marker converts the name and the address of the
    place, and throws when one of them cannot be converted. *)
Definition marker_ok (p : place) : bool :=
  printable (place_name p) && printable (place_address p).

(** Whether the [case] of a tool builds its action without throwing:
    the tools that list places build a marker for each, the details tool
    for its one place. *)
Definition builds_action (t : tool) : helper_result t -> bool :=
  match t with
  | SearchPlaces | NearbySearch => fun result => forallb marker_ok result
  | GetPlaceDetails => fun result => marker_ok result
  | _ => fun _ => true
  end.

(** The action the [case] of each tool builds once its helper has
    returned [result], when it builds one; [args] is not null or undefined
    here. *)
Definition mapAction_of (t : tool) (args : value) : helper_result t -> value :=
  match t with
  | SearchPlaces => fun result =>
      if Nat.ltb 0 (length result) then
        VObj [("type", VStr "SHOW_MARKERS");
              ("markers", VArr (map place_marker result));
              ("fitBounds", VBool true)]
      else VNull
  | GetPlaceDetails => fun result =>
      VObj [("type", VStr "SHOW_MARKERS");
            ("markers", VArr [place_marker result]);
            ("center", VArr [place_lat result; place_lng result]);
            ("zoom", VNum "16")]
  | GetDirections => fun result =>
      VObj [("type", VStr "SHOW_ROUTE");
            ("route", routeCoordinates result);
            ("bounds", VArr [VArr [start_lat result; start_lng result];
                             VArr [end_lat result; end_lng result]])]
  | Geocode => fun result =>
      VObj [("type", VStr "SHOW_MARKERS");
            ("markers",
             VArr [VObj [("position", VArr [geo_lat result; geo_lng result]);
                         ("title", formattedAddress result)]]);
            ("center", VArr [geo_lat result; geo_lng result]);
            ("zoom", VNum "15")]
  | ReverseGeocode => fun result =>
      VObj [("type", VStr "SHOW_MARKERS");
            ("markers",
             VArr [VObj [("position", VArr [get args "lat"; get args "lng"]);
                         ("title", or_else result (VStr "Location"))]]);
            ("center", VArr [get args "lat"; get args "lng"]);
            ("zoom", VNum "15")]
  | NearbySearch => fun result =>
      if Nat.ltb 0 (length result) then
        VObj [("type", VStr "SHOW_MARKERS");
              ("markers", VArr (map place_marker result));
              ("center", VArr [get args "lat"; get args "lng"]);
              ("fitBounds", VBool true)]
      else VNull
  end.

(** The handler of a tool call.  [helper t] is what the helper of tool
    [t] does on this call.  Every [case] reads a field of [args] before
    its helper runs, which throws a TypeError when the call came without
    arguments; the [default] throws without reading them; and a marker
    template that throws does so inside the [try], after the helper has
    returned. *)
Definition call_tool (name : string) (args : value)
    (helper : forall t, helper_outcome (helper_result t)) : tool_reply :=
  match tool_named name with
  | None => ToolError (ErrorMessage ("Unknown tool: " +:+ name)) name args
  | Some t =>
      if is_nullish args then ToolError TypeErrorMessage name args
      else
        match helper t with
        | HelperThrew message => ToolError (ErrorMessage message) name args
        | Returned result =>
            if builds_action t result
            then ToolResult (mapAction_of t args result)
            else ToolError TypeErrorMessage name args
        end
  end.

(** A call on which the place helpers find two cafes, the directions
    helper finds a route, and the other helpers fail. *)
Definition cafes : list place :=
  [{| place_name := VStr "Cafe A"; place_address := VStr "1 Main St";
      place_lat := VNum "40.7"; place_lng := VNum "-74" |};
   {| place_name := VStr "Cafe B"; place_address := VStr "2 Main St";
      place_lat := VNum "40.8"; place_lng := VNum "-73.9" |}].

Definition sample_helper (t : tool) : helper_outcome (helper_result t) :=
  match t with
  | SearchPlaces => Returned cafes
  | NearbySearch => Returned cafes
  | GetDirections =>
      Returned {| routeCoordinates := VArr [VArr [VNum "40.7"; VNum "-74"];
                                            VArr [VNum "40.8"; VNum "-73.9"]];
                  start_lat := VNum "40.7"; start_lng := VNum "-74";
                  end_lat := VNum "40.8"; end_lng := VNum "-73.9" |}
  | _ => HelperThrew "fetch failed"
  end.

(** The tool whose action draws a route. *)
Definition draws_route (t : tool) : bool :=
  match t with GetDirections => true | _ => false end.

(** The tools whose result is a list of places. *)
Definition lists_places (t : tool) : bool :=
  match t with SearchPlaces | NearbySearch => true | _ => false end.

(** ** Observations on the client's map *)

(** Reading a field after the assignments of a spread: the value of the
    last assignment to it, the previous value when there is none. *)
Definition assigned (k : string) (updates : list (string * value)) (old : value)
    : value :=
  fold_left (fun acc kv => if String.eqb k (fst kv) then snd kv else acc)
    updates old.

(** The fields an action of each kind assigns. *)
Definition assigned_fields (tag : string) : list string :=
  if String.eqb tag "SHOW_MARKERS" then
    ["markers"; "route"; "routeKey"; "center"; "zoom"; "fitBounds"; "bounds";
     "markersKey"]
  else if String.eqb tag "SHOW_ROUTE" then
    ["markers"; "route"; "fitBounds"; "bounds"; "routeKey"]
  else if String.eqb tag "CENTER" then ["center"; "zoom"]
  else [].


(** ** Values that cannot be converted to a string *)

(** A chat request whose content is the object [{"toString": 1}]. *)
Definition unprintable_payload : string :=
  "{" +:+ JsonFragment.q "type" +:+ ":" +:+ JsonFragment.q "chat" +:+ ","
  +:+ JsonFragment.q "content" +:+ ":{" +:+ JsonFragment.q "toString" +:+ ":1}}".

(** A tool output whose action has the object [{"toString": 1}] as its
    type. *)
Definition unprintable_type_output : string :=
  tool_output "[]"
    ("{" +:+ JsonFragment.q "type" +:+ ":{" +:+ JsonFragment.q "toString" +:+ ":1}}").

(** A place whose name is the object [{"toString": 1}]. *)
Definition unprintable_place : place :=
  {| place_name := VObj [("toString", VNum "1")]; place_address := VStr "1 Main St";
     place_lat := VNum "40.7"; place_lng := VNum "-74" |}.

(** A schema that declares, and requires, a parameter named
    ["__proto__"] beside an ordinary one. *)
Definition proto_schema : json_schema :=
  {| properties :=
       Some {[ "__proto__" := {| prop_type := VStr "string"; prop_enum := None;
                                 prop_description := None |};
               "query" := {| prop_type := VStr "string"; prop_enum := None;
                             prop_description := None |} ]};
     required := Some ["__proto__"; "query"] |}.
(** ** Facts about strings *)

Lemma append_cons (c : ascii) (s t : string) :
  String c s +:+ t = String c (s +:+ t).
Proof. reflexivity. Qed.

Lemma append_empty_r (s : string) : s +:+ "" = s.
Proof.
  induction s as [|c s IH]; [reflexivity |].
  now rewrite append_cons, IH.
Qed.

Lemma append_assoc (a b c : string) : (a +:+ b) +:+ c = a +:+ (b +:+ c).
Proof.
  induction a as [|x a IH]; [reflexivity |].
  now rewrite !append_cons, IH.
Qed.

Lemma starts_with_refl (t : string) : starts_with t t = true.
Proof.
  induction t as [|c t IH]; simpl; [reflexivity |].
  now rewrite Ascii.eqb_refl.
Qed.

Lemma starts_with_append (t s u : string) :
  starts_with s t = true -> starts_with (s +:+ u) t = true.
Proof.
  revert s; induction t as [|c t IH]; intros s H; [reflexivity |].
  destruct s as [|d s]; [discriminate |].
  rewrite append_cons. simpl in *.
  apply andb_true_iff in H as [-> H]. now apply IH.
Qed.

Lemma starts_with_split (t s : string) :
  starts_with s t = true -> exists b, s = t +:+ b.
Proof.
  revert s; induction t as [|c t IH]; intros s H; [now exists s |].
  destruct s as [|d s]; simpl in H; [discriminate |].
  apply andb_true_iff in H as [Hc H].
  apply Ascii.eqb_eq in Hc as ->.
  destruct (IH s H) as [b ->]. now exists b.
Qed.

Lemma includes_empty (s : string) : includes s "" = true.
Proof. destruct s; reflexivity. Qed.

Lemma includes_self (t : string) : includes t t = true.
Proof.
  destruct t; [reflexivity |].
  unfold includes. now rewrite starts_with_refl.
Qed.

Lemma includes_append_l (u s t : string) :
  includes s t = true -> includes (u +:+ s) t = true.
Proof.
  intros H; induction u as [|c u IH]; [exact H |].
  rewrite append_cons. simpl. rewrite IH.
  now destruct (starts_with (String c (u +:+ s)) t).
Qed.

Lemma includes_append_r (s u t : string) :
  includes s t = true -> includes (s +:+ u) t = true.
Proof.
  induction s as [|c s IH].
  - destruct t; [intros _; apply includes_empty | discriminate].
  - rewrite append_cons. simpl includes.
    destruct (starts_with (String c s) t) eqn:Hp.
    + intros _. rewrite <- append_cons.
      now rewrite (starts_with_append _ _ u Hp).
    + intros H. rewrite (IH H).
      now destruct (starts_with (String c (s +:+ u)) t).
Qed.

Lemma includes_suffix (s t : string) : includes (s +:+ t) t = true.
Proof. apply includes_append_l, includes_self. Qed.

(** [includes] is the substring relation. *)
Lemma includes_spec (s t : string) :
  includes s t = true <-> exists a b, s = a +:+ t +:+ b.
Proof.
  split.
  - induction s as [|c s IH]; simpl includes.
    + destruct t; [intros _; now exists "", "" | discriminate].
    + destruct (starts_with (String c s) t) eqn:Hp.
      * intros _. destruct (starts_with_split _ _ Hp) as [b Hb].
        exists "", b. exact Hb.
      * intros H. destruct (IH H) as (a & b & ->).
        now exists (String c a), b.
  - intros (a & b & ->). apply includes_append_l, includes_append_r, includes_self.
Qed.

(** ** Extraction on the supported shapes *)

Lemma join_strings_empty_sep (l : list string) :
  join_strings "" l = concat_strings l.
Proof.
  induction l as [|x l IH]; [reflexivity |].
  destruct l as [|y l]; simpl.
  - now rewrite append_empty_r.
  - simpl in IH. now rewrite IH.
Qed.

Lemma part_text_value (p : part_shape * string) :
  part_text (part_value p) = VStr (snd p).
Proof. destruct p as [[| |] [|c s]]; reflexivity. Qed.

Lemma part_text_kwargs_value (p : part_shape * string) :
  part_text_kwargs (part_value p) = VStr (snd p).
Proof. destruct p as [[| |] [|c s]]; reflexivity. Qed.

Lemma join_part_texts (f : value -> value) (parts : list (part_shape * string)) :
  (forall p, f (part_value p) = VStr (snd p)) ->
  join "" (map f (map part_value parts)) = concat_strings (map snd parts).
Proof.
  intros Hf. unfold join. rewrite join_strings_empty_sep.
  induction parts as [|p parts IH]; [reflexivity |].
  simpl. rewrite Hf, IH. reflexivity.
Qed.

Lemma join_checked_part_texts (f : value -> value)
    (parts : list (part_shape * string)) :
  (forall p, f (part_value p) = VStr (snd p)) ->
  join_checked "" (map f (map part_value parts))
  = Ok (concat_strings (map snd parts)).
Proof.
  intros Hf. unfold join_checked. rewrite (join_part_texts f parts Hf).
  assert (Hp : printable (VArr (map f (map part_value parts))) = true).
  { cbn [printable]. induction parts as [|p parts IH]; [reflexivity |].
    cbn [map forallb]. now rewrite Hf, IH. }
  now rewrite Hp.
Qed.

Lemma extract_chunk_value (sh : chunk_shape) :
  extractTextFromChunk (chunk_value sh) = Ok (VStr (chunk_text sh)).
Proof.
  destruct sh as [t|parts|t|t|parts|t|t].
  1,3,4,6,7: destruct t; reflexivity.
  - destruct parts as [|p parts]; [reflexivity |].
    pose proof (join_checked_part_texts part_text (p :: parts) part_text_value) as E.
    unfold extractTextFromChunk, chunk_value, chunk_text.
    cbn [truthy negb is_object first_probe probe_content get lookup_field
         String.eqb Ascii.eqb Bool.eqb is_string andb].
    unfold probe_content_parts.
    cbn [get lookup_field String.eqb Ascii.eqb Bool.eqb].
    change (map part_value (p :: parts))
      with (part_value p :: map part_value parts) in *.
    cbv beta iota. rewrite E.
    destruct (concat_strings (map snd (p :: parts))); reflexivity.
  - destruct parts as [|p parts]; [reflexivity |].
    pose proof (join_checked_part_texts part_text_kwargs (p :: parts)
                  part_text_kwargs_value) as E.
    unfold extractTextFromChunk, chunk_value, chunk_text.
    cbn [truthy negb is_object first_probe probe_content probe_content_parts
         probe_text get lookup_field String.eqb Ascii.eqb Bool.eqb is_string andb].
    unfold probe_kwargs.
    cbn [get get_opt is_nullish lookup_field String.eqb Ascii.eqb Bool.eqb truthy].
    change (map part_value (p :: parts))
      with (part_value p :: map part_value parts) in *.
    cbv beta iota. now rewrite E.
Qed.

(** ** Sending *)

Lemma wsSend_open (s : socket) (d : outbound) :
  readyState_OPEN s = true ->
  wsSend s d = {| readyState_OPEN := true; sent := sent s ++ [d] |}.
Proof. unfold wsSend. now intros ->. Qed.

Lemma wsSend_closed (s : socket) (d : outbound) :
  readyState_OPEN s = false -> wsSend s d = s.
Proof. unfold wsSend. now intros ->. Qed.

Lemma wsSend_readyState (s : socket) (d : outbound) :
  readyState_OPEN (wsSend s d) = readyState_OPEN s.
Proof. unfold wsSend. destruct (readyState_OPEN s) eqn:E; [reflexivity | exact E]. Qed.

Lemma sent_wsSend_open (s : socket) (d : outbound) :
  readyState_OPEN s = true -> sent (wsSend s d) = sent s ++ [d].
Proof. intros H. now rewrite wsSend_open. Qed.

Lemma stream_contents_app (a b : list outbound) :
  stream_contents (a ++ b) = stream_contents a ++ stream_contents b.
Proof.
  induction a as [|m a IH]; [reflexivity |].
  destruct m; simpl; now rewrite IH.
Qed.

Lemma streamed_text_app (a b : list outbound) :
  streamed_text (a ++ b) = streamed_text a +:+ streamed_text b.
Proof.
  unfold streamed_text. rewrite stream_contents_app, map_app.
  induction (map toString (stream_contents a)) as [|x l IH]; [reflexivity |].
  simpl. now rewrite append_assoc, IH.
Qed.

Lemma concat_strings_app (a b : list string) :
  concat_strings (a ++ b) = concat_strings a +:+ concat_strings b.
Proof.
  induction a as [|x a IH]; [reflexivity |].
  simpl. now rewrite append_assoc, IH.
Qed.

Lemma concat_strings_non_empty (l : list string) :
  concat_strings (List.filter non_empty l) = concat_strings l.
Proof.
  induction l as [|x l IH]; [reflexivity |].
  simpl. destruct x; simpl; now rewrite IH.
Qed.

(** ** The streaming step *)

#[local] Arguments extractTextFromChunk : simpl never.

Section Streaming.

Variable JSON_parse : string -> option value.

Lemma fullResponse_start_stream (st : turn_state) :
  fullResponse (start_stream st) = fullResponse st.
Proof. unfold start_stream. now destruct (streamStarted st). Qed.

(** With a string accumulated, forwarding a text that can be converted
    does not throw. *)
Lemma forward_string (x : value) (acc : string) (st : turn_state) :
  fullResponse st = VStr acc ->
  printable x = true ->
  forward x (start_stream st)
  = Done (send (Stream x) (append_response x (start_stream st))).
Proof.
  intros Hacc Hx. unfold forward.
  now rewrite fullResponse_start_stream, Hacc, Hx.
Qed.

Lemma handleLLMNewToken_string (token acc : string) (st : turn_state) :
  fullResponse st = VStr acc ->
  handleLLMNewToken token st
  = if truthy (VStr token)
    then send (Stream (VStr token)) (append_response (VStr token) (start_stream st))
    else st.
Proof.
  intros Hacc. unfold handleLLMNewToken.
  now rewrite (forward_string (VStr token) acc st Hacc eq_refl).
Qed.

(** What forwarding a fragment does to an open socket and the
    accumulator. *)
Lemma forward_fragment (text : string) (acc : string) (st : turn_state) :
  fullResponse st = VStr acc ->
  readyState_OPEN (ws st) = true ->
  let st' := send (Stream (VStr text)) (append_response (VStr text) (start_stream st)) in
  fullResponse st' = VStr (acc +:+ text)
  /\ readyState_OPEN (ws st') = true
  /\ streamStarted st' = true
  /\ mapAction st' = mapAction st
  /\ stream_contents (sent (ws st')) = stream_contents (sent (ws st)) ++ [VStr text].
Proof.
  intros Hacc Hopen. unfold start_stream.
  destruct (streamStarted st) eqn:Hs; simpl; rewrite Hacc; simpl.
  - rewrite wsSend_open by assumption. simpl.
    rewrite stream_contents_app. auto.
  - rewrite (wsSend_open (ws st)) by assumption.
    rewrite wsSend_open by reflexivity. simpl.
    rewrite !stream_contents_app. simpl. rewrite app_nil_r. auto.
Qed.

(** A chunk event whose text is empty, or already occurs in the
    accumulated text, changes nothing. *)
Lemma replay_suppressed (sh : chunk_shape) (acc : string) (st : turn_state) :
  fullResponse st = VStr acc ->
  includes acc (chunk_text sh) = true ->
  step JSON_parse (stream_chunk sh) st = Done st.
Proof.
  intros Hacc Hin. unfold step, stream_chunk, handle_event.
  unfold on_tool_start, on_tool_end, on_chat_model_stream, on_chain_end.
  simpl. change (get_opt _ "chunk") with (chunk_value sh).
  rewrite extract_chunk_value, Hacc. simpl.
  rewrite Hin. now destruct (chunk_text sh).
Qed.

(** A chunk event whose text is new is forwarded. *)
Lemma replay_forwarded (sh : chunk_shape) (acc : string) (st : turn_state) :
  fullResponse st = VStr acc ->
  chunk_text sh <> "" ->
  includes acc (chunk_text sh) = false ->
  step JSON_parse (stream_chunk sh) st =
  Done (send (Stream (VStr (chunk_text sh)))
          (append_response (VStr (chunk_text sh)) (start_stream st))).
Proof.
  intros Hacc Hne Hin. unfold step, stream_chunk, handle_event.
  unfold on_tool_start, on_tool_end, on_chat_model_stream, on_chain_end.
  simpl. change (get_opt _ "chunk") with (chunk_value sh).
  rewrite extract_chunk_value, Hacc. simpl.
  rewrite Hin. destruct (chunk_text sh) as [|c t] eqn:E; [congruence |].
  cbn [truthy String.eqb negb].
  now rewrite (forward_string (VStr (String c t)) acc st Hacc eq_refl).
Qed.

Lemma drive_cons (item : feed_item) (feed : list feed_item) (st : turn_state) :
  drive JSON_parse (item :: feed) st =
  match step JSON_parse item st with
  | Done st' => drive JSON_parse feed st'
  | Raised st' => Raised st'
  end.
Proof. reflexivity. Qed.

Lemma existsb_eqb_cons (t x : string) (seen : list string) :
  existsb (String.eqb t) (x :: seen) = true ->
  t = x \/ existsb (String.eqb t) seen = true.
Proof.
  simpl. intros H. apply orb_true_iff in H as [H|H]; [left | now right].
  now apply String.eqb_eq.
Qed.

(** Both channels: with every replay after its token, exactly the
    callback's non-empty tokens are forwarded. *)
Lemma drive_both_channels (feed : list (string + chunk_shape)) :
  forall (seen : list string) (acc : string) (st : turn_state),
    fullResponse st = VStr acc ->
    readyState_OPEN (ws st) = true ->
    (forall t, existsb (String.eqb t) seen = true -> includes acc t = true) ->
    replays_follow seen feed = true ->
    exists st',
      drive JSON_parse (map fragment_item feed) st = Done st'
      /\ fullResponse st' = VStr (acc +:+ concat_strings (callback_tokens feed))
      /\ readyState_OPEN (ws st') = true
      /\ stream_contents (sent (ws st')) =
         stream_contents (sent (ws st)) ++
         map VStr (List.filter non_empty (callback_tokens feed)).
Proof.
  induction feed as [|[token|sh] feed IH]; intros seen acc st Hacc Hopen Hseen Hrep.
  - exists st. simpl. rewrite append_empty_r, app_nil_r. auto.
  - simpl in Hrep. simpl drive. rewrite (handleLLMNewToken_string token acc st Hacc).
    destruct token as [|c token].
    + simpl truthy. cbv iota.
      destruct (IH ("" :: seen) acc st Hacc Hopen) as (st' & Hd & Hf & Ho & Hs).
      * intros t Ht. apply existsb_eqb_cons in Ht as [->|Ht];
          [apply includes_empty | now apply Hseen].
      * exact Hrep.
      * exists st'. simpl. auto.
    + simpl truthy. cbv iota.
      destruct (forward_fragment (String c token) acc st Hacc Hopen)
        as (Hf1 & Ho1 & _ & _ & Hs1).
      destruct (IH (String c token :: seen) _ _ Hf1 Ho1) as (st' & Hd & Hf & Ho & Hs).
      * intros t Ht. apply existsb_eqb_cons in Ht as [->|Ht];
          [apply includes_suffix | now apply includes_append_r, Hseen].
      * exact Hrep.
      * exists st'. split; [exact Hd |]. split; [| split; [exact Ho |]].
        -- rewrite Hf. simpl callback_tokens. simpl concat_strings.
           now rewrite append_assoc.
        -- rewrite Hs, Hs1. simpl. now rewrite <- app_assoc.
  - simpl in Hrep. apply andb_true_iff in Hrep as [Hin Hrep].
    cbn [map fragment_item]. rewrite drive_cons.
    rewrite (replay_suppressed sh acc st Hacc (Hseen _ Hin)).
    destruct (IH seen acc st Hacc Hopen Hseen Hrep) as (st' & Hd & Hf & Ho & Hs).
    exists st'. simpl. auto.
Qed.

(** The event log alone: with no fragment occurring in the text before
    it, exactly the non-empty fragments are forwarded. *)
Lemma drive_event_log (shapes : list chunk_shape) :
  forall (acc : string) (st : turn_state),
    fullResponse st = VStr acc ->
    readyState_OPEN (ws st) = true ->
    fresh_fragments acc (map chunk_text shapes) = true ->
    exists st',
      drive JSON_parse (map stream_chunk shapes) st = Done st'
      /\ fullResponse st' = VStr (acc +:+ concat_strings (map chunk_text shapes))
      /\ readyState_OPEN (ws st') = true
      /\ stream_contents (sent (ws st')) =
         stream_contents (sent (ws st)) ++ map VStr (map chunk_text shapes).
Proof.
  induction shapes as [|sh shapes IH]; intros acc st Hacc Hopen Hfresh.
  - exists st. simpl. rewrite append_empty_r, app_nil_r. auto.
  - simpl in Hfresh. apply andb_true_iff in Hfresh as [Hnew Hfresh].
    apply negb_true_iff in Hnew.
    assert (Hne : chunk_text sh <> "").
    { intros E. rewrite E, includes_empty in Hnew. discriminate. }
    cbn [map]. rewrite drive_cons.
    rewrite (replay_forwarded sh acc st Hacc Hne Hnew).
    destruct (forward_fragment (chunk_text sh) acc st Hacc Hopen)
      as (Hf1 & Ho1 & _ & _ & Hs1).
    destruct (IH _ _ Hf1 Ho1 Hfresh) as (st' & Hd & Hf & Ho & Hs).
    exists st'. split; [exact Hd |]. split; [| split; [exact Ho |]].
    + rewrite Hf. simpl. now rewrite append_assoc.
    + rewrite Hs, Hs1. simpl. now rewrite <- app_assoc.
Qed.

End Streaming.

(** ** Invariants of the streaming step *)

Section StepInvariant.

Variable JSON_parse : string -> option value.

(** A property of the turn state kept by the four things a step does:
    report a status, capture an action, note a tool, forward a fragment
    (a fragment that is forwarded over an accumulated string can be
    converted, the search for it in that string having converted it);
    and, on the items [allowed], by the final-answer branch and by the
    closing of the socket. *)
Variable P : turn_state -> Prop.
Variable allowed : feed_item -> bool.

Hypothesis P_status :
  forall st text, P st -> P (send (Thinking (Some text)) st).
Hypothesis P_action :
  forall st action, P st -> P (capture action st).
Hypothesis P_tool :
  forall st toolName, P st -> P (push_toolsUsed toolName st).
Hypothesis P_forward :
  forall st x,
    P st ->
    (is_string (fullResponse st) = true -> printable x = true) ->
    P (state_of (forward x (start_stream st))).
Hypothesis P_chain_end :
  forall e st, allowed (Event e) = true -> P st -> P (on_chain_end e st).
Hypothesis P_closed :
  forall st, allowed Closed = true -> P st -> P (close_socket st).

Lemma on_tool_start_preserves (e : stream_event) (st : turn_state) :
  P st -> P (on_tool_start e st).
Proof.
  intros H. unfold on_tool_start. destruct (_ && _); [| exact H].
  now apply P_status, P_tool.
Qed.

Lemma on_tool_end_preserves (e : stream_event) (st : turn_state) :
  P st -> P (on_tool_end JSON_parse e st).
Proof.
  intros H. unfold on_tool_end. destruct (_ && _); [| exact H].
  apply P_status. destruct (truthy _); [| exact H].
  destruct (side_action_of _ _); [now apply P_action | exact H].
Qed.

Lemma on_chat_model_stream_preserves (e : stream_event) (st : turn_state) :
  P st -> P (state_of (on_chat_model_stream e st)).
Proof.
  intros H. unfold on_chat_model_stream. destruct (String.eqb _ _); [| exact H].
  destruct (extractTextFromChunk _) as [text|]; [| exact H].
  destruct (truthy text); [| exact H].
  destruct (response_includes _ _) as [[|]|] eqn:Hin; try exact H.
  apply P_forward; [exact H |].
  unfold response_includes in Hin.
  destruct (fullResponse st); try discriminate.
  destruct (printable text); [reflexivity | discriminate].
Qed.

Lemma step_preserves (item : feed_item) (st : turn_state) :
  allowed item = true -> P st -> P (state_of (step JSON_parse item st)).
Proof.
  intros Hitem H. destruct item as [token|toolName|output|e|]; cbn [step state_of].
  - unfold handleLLMNewToken. destruct (truthy _); [| exact H].
    now apply P_forward.
  - now apply P_status, P_tool.
  - unfold handleToolEnd. apply P_status.
    destruct (side_action_of _ _); [now apply P_action | exact H].
  - unfold handle_event.
    pose proof (on_chat_model_stream_preserves e _
                  (on_tool_end_preserves e _ (on_tool_start_preserves e _ H))) as Hs.
    destruct (on_chat_model_stream e _); cbn [state_of] in *;
      [now apply P_chain_end | exact Hs].
  - now apply P_closed.
Qed.

Lemma drive_preserves (feed : list feed_item) :
  forall st, forallb allowed feed = true -> P st ->
             P (state_of (drive JSON_parse feed st)).
Proof.
  induction feed as [|item feed IH]; intros st Hfeed H; [exact H |].
  simpl in Hfeed. apply andb_true_iff in Hfeed as [Hitem Hfeed].
  pose proof (step_preserves item st Hitem H) as Hs. simpl.
  destruct (step JSON_parse item st); [now apply IH | exact Hs].
Qed.

End StepInvariant.
(** ** What a turn sends *)

Lemma count_app (p : outbound -> bool) (a b : list outbound) :
  count p (a ++ b) = count p a + count p b.
Proof. unfold count. now rewrite List.filter_app, length_app. Qed.

Section Turn.

Variable JSON_parse : string -> option value.

Lemma cleared_once_send (base : list outbound) (st : turn_state) (m : outbound) :
  cleared_once base st ->
  is_status_null m = false -> is_error m = false -> is_stream_end m = false ->
  is_stream m = false ->
  cleared_once base (send m st).
Proof.
  intros (Hopen & new & Hs & Hn & Hst & Hstr & He & Hse) H1 H2 H3 H4.
  split; [simpl; now rewrite wsSend_readyState |].
  exists (new ++ [m]). simpl. rewrite sent_wsSend_open, Hs, app_assoc by assumption.
  rewrite !count_app, existsb_app, Hn, He, Hse. unfold count. simpl.
  rewrite H1, H2, H3, H4. simpl. rewrite !orb_false_r.
  repeat split; try lia; assumption.
Qed.

Lemma cleared_once_capture (base : list outbound) (st : turn_state) (action : value) :
  cleared_once base st -> cleared_once base (capture action st).
Proof.
  intros H. unfold capture. destruct (printable _).
  - now apply (cleared_once_send base (set_mapAction action st)).
  - exact H.
Qed.

Lemma cleared_once_forward (base : list outbound) (st : turn_state) (x : value) :
  cleared_once base st ->
  (is_string (fullResponse st) = true -> printable x = true) ->
  cleared_once base (state_of (forward x (start_stream st))).
Proof.
  intros (Hopen & new & Hs & Hn & Hst & Hstr & He & Hse) Hx.
  unfold forward. rewrite fullResponse_start_stream.
  destruct (printable (fullResponse st) && printable x) eqn:Hp; cbn [state_of].
  - unfold start_stream. destruct (streamStarted st) eqn:Hstarted.
    + split; [simpl; now rewrite wsSend_readyState |].
      exists (new ++ [Stream x]). simpl.
      rewrite sent_wsSend_open, Hs, app_assoc by assumption.
      rewrite !count_app, existsb_app, Hn, He, Hse, Hstarted. unfold count. simpl.
      rewrite orb_true_r. repeat split; lia.
    + split; [simpl; now rewrite !wsSend_readyState |].
      exists (new ++ [Thinking None; Stream x]). simpl.
      rewrite (wsSend_open (ws st)) by assumption.
      rewrite sent_wsSend_open by reflexivity. simpl.
      rewrite Hs, <- !app_assoc. simpl.
      rewrite !count_app, existsb_app, Hn, He, Hse. unfold count. simpl.
      rewrite orb_true_r. repeat split; lia.
  - assert (Hns : is_string (fullResponse st) = false).
    { destruct (is_string (fullResponse st)) eqn:E; [| reflexivity].
      rewrite (Hx eq_refl), andb_true_r in Hp.
      destruct (fullResponse st); discriminate. }
    unfold start_stream. destruct (streamStarted st) eqn:Hstarted.
    + split; [exact Hopen |]. exists new. rewrite Hstarted.
      repeat split; assumption.
    + split; [simpl; now rewrite wsSend_readyState |].
      exists (new ++ [Thinking None]). simpl.
      rewrite sent_wsSend_open, Hs, app_assoc by assumption.
      rewrite !count_app, existsb_app, Hn, He, Hse, Hns. unfold count. simpl.
      repeat split; try lia; discriminate.
Qed.

(** The streaming step does not touch what [on_chain_end] and the
    bookkeeping assignments leave alone. *)
Lemma cleared_once_on_chain_end (base : list outbound) (e : stream_event)
    (st : turn_state) :
  cleared_once base st -> cleared_once base (on_chain_end e st).
Proof.
  intros H. unfold on_chain_end.
  destruct (_ && _); [| exact H].
  destruct (truthy _ && negb (streamStarted st)) eqn:E; [| exact H].
  apply andb_true_iff in E as [_ E]. apply negb_true_iff in E.
  destruct H as (Hopen & new & Hs & Hn & Hst & Hstr & He & Hse).
  split; [exact Hopen |]. exists new. cbn [set_fullResponse streamStarted ws].
  rewrite E in *. repeat split; try assumption.
  intros _. destruct (existsb is_stream new); [| reflexivity].
  now rewrite Hst.
Qed.

Lemma cleared_once_step (base : list outbound) (item : feed_item) (st : turn_state) :
  is_closed item = false ->
  cleared_once base st ->
  cleared_once base (state_of (step JSON_parse item st)).
Proof.
  intros Hitem. apply step_preserves with (allowed := fun i => negb (is_closed i)).
  - intros st' text H. now apply cleared_once_send.
  - intros st' a H. now apply cleared_once_capture.
  - intros st' n H. exact H.
  - intros st' x H Hx. now apply cleared_once_forward.
  - intros e st' _ H. now apply cleared_once_on_chain_end.
  - intros st' Hc. discriminate.
  - now rewrite Hitem.
Qed.

Lemma cleared_once_drive (base : list outbound) (feed : list feed_item)
    (st : turn_state) :
  stays_open feed = true ->
  cleared_once base st ->
  cleared_once base (state_of (drive JSON_parse feed st)).
Proof.
  intros Hfeed. apply drive_preserves with (allowed := fun i => negb (is_closed i)).
  - intros st' text H. now apply cleared_once_send.
  - intros st' a H. now apply cleared_once_capture.
  - intros st' n H. exact H.
  - intros st' x H Hx. now apply cleared_once_forward.
  - intros e st' _ H. now apply cleared_once_on_chain_end.
  - intros st' Hc. discriminate.
  - exact Hfeed.
Qed.

Lemma cleared_once_initial (s : socket) :
  readyState_OPEN s = true ->
  cleared_once (sent s ++ [Thinking (Some "Thinking...")])
    (initial_state (wsSend s (Thinking (Some "Thinking...")))).
Proof.
  intros Hopen. split; [simpl; now rewrite wsSend_readyState |].
  exists []. simpl. rewrite sent_wsSend_open, app_nil_r by assumption.
  repeat split; auto.
Qed.

(** When every final answer is a string, the accumulator is one
    throughout. *)
Lemma string_response_drive (feed : list feed_item) (st : turn_state) :
  forallb string_answer feed = true ->
  is_string (fullResponse st) = true ->
  is_string (fullResponse (state_of (drive JSON_parse feed st))) = true.
Proof.
  intros Hfeed.
  apply drive_preserves
    with (P := fun st => is_string (fullResponse st) = true)
         (allowed := string_answer).
  - intros st' text H. exact H.
  - intros st' a H. unfold capture. now destruct (printable _).
  - intros st' n H. exact H.
  - intros st' x H _. unfold forward. rewrite fullResponse_start_stream.
    destruct (_ && _); cbn [state_of];
      [reflexivity | now rewrite fullResponse_start_stream].
  - intros e st' He H. unfold on_chain_end.
    cbn [string_answer is_agent_end] in He.
    destruct (String.eqb (event e) "on_chain_end" && String.eqb (name e) "AgentExecutor");
      [| exact H].
    cbn [negb orb] in He.
    destruct (truthy _ && negb (streamStarted st')) eqn:E; [| exact H].
    apply andb_true_iff in E as [E _]. rewrite E in He.
    cbn [set_fullResponse fullResponse]. now rewrite orb_false_r in He.
  - intros st' _ H. exact H.
  - exact Hfeed.
Qed.

(** The messages of a whole turn on a socket that stays open: the opening
    status, what the streaming step sent, the closing messages [tail], and
    the final clearing of the indicator. *)
Lemma chat_block_sent (history : option (list chat_message)) (userMessage : value)
    (feed : list feed_item) (agent_raises : bool) (s : socket) :
  readyState_OPEN s = true ->
  stays_open feed = true ->
  exists new tail,
    sent (fst (chat_block JSON_parse history userMessage feed agent_raises s)) =
      sent s ++ Thinking (Some "Thinking...") :: new ++ tail ++ [Thinking None]
    /\ readyState_OPEN
         (fst (chat_block JSON_parse history userMessage feed agent_raises s)) = true
    /\ count is_status_null new <= 1
    /\ (existsb is_stream new = true -> count is_status_null new = 1)
    /\ (forallb string_answer feed = true ->
        count is_status_null new = (if existsb is_stream new then 1 else 0))
    /\ count is_error new = 0
    /\ count is_stream_end new = 0
    /\ count is_error tail =
       match try_block JSON_parse history userMessage feed agent_raises
               (wsSend s (Thinking (Some "Thinking..."))) with
       | Raised _ => 1
       | Done _ => 0
       end
    /\ (tail = [Error error_text]
        \/ (exists content action, tail = [StreamEnd content action])
        \/ (exists content action, tail = [StreamEnd content action; Error error_text])).
Proof.
  intros Hopen Hfeed. unfold chat_block, try_block.
  pose proof (cleared_once_initial s Hopen) as Hinit.
  set (s0 := wsSend s (Thinking (Some "Thinking..."))) in *.
  assert (Hs0 : readyState_OPEN s0 = true)
    by (unfold s0; now rewrite wsSend_readyState).
  assert (Hsent0 : sent s0 = sent s ++ [Thinking (Some "Thinking...")])
    by (unfold s0; now rewrite sent_wsSend_open).
  destruct history as [h|].
  - pose proof (cleared_once_drive _ feed _ Hfeed Hinit) as Hd.
    destruct Hd as (Ho & new & Hs & Hn & Hst & Hstr & He & Hse).
    assert (Hle : count is_status_null new <= 1)
      by (rewrite Hn; destruct (streamStarted _); lia).
    assert (Hone : existsb is_stream new = true -> count is_status_null new = 1)
      by (intros E; now rewrite Hn, (Hst E)).
    assert (Hexact : forallb string_answer feed = true ->
                     count is_status_null new = (if existsb is_stream new then 1 else 0)).
    { intros Hans.
      pose proof (string_response_drive feed (initial_state s0) Hans eq_refl) as Hr.
      now rewrite (Hstr Hr), Hn. }
    clear Hn Hst Hstr.
    assert (Hbase : forall tail,
      sent (ws (state_of (drive JSON_parse feed (initial_state s0)))) ++ tail ++ [Thinking None]
      = sent s ++ Thinking (Some "Thinking...") :: new ++ tail ++ [Thinking None]).
    { intros tail. rewrite Hs, <- !app_assoc. reflexivity. }
    destruct (drive JSON_parse feed (initial_state s0)) as [st|st]; cbn [state_of] in *.
    + destruct agent_raises.
      * exists new, [Error error_text]. cbn [fst].
        rewrite !wsSend_readyState, !sent_wsSend_open
          by (rewrite ?wsSend_readyState; assumption).
        rewrite <- Hbase, <- !app_assoc.
        repeat (split; [first [assumption | reflexivity] |]). now left.
      * destruct (update_history userMessage (fullResponse st) h).
        -- exists new, [StreamEnd (fullResponse st) (mapAction st)]. cbn [fst].
           rewrite !wsSend_readyState, !sent_wsSend_open
             by (rewrite ?wsSend_readyState; assumption).
           rewrite <- Hbase, <- !app_assoc.
           repeat (split; [first [assumption | reflexivity] |]). right; eauto.
        -- exists new, [StreamEnd (fullResponse st) (mapAction st); Error error_text].
           cbn [fst].
           rewrite !wsSend_readyState, !sent_wsSend_open
             by (rewrite ?wsSend_readyState; assumption).
           rewrite <- Hbase, <- !app_assoc.
           repeat (split; [first [assumption | reflexivity] |]). right; eauto.
    + exists new, [Error error_text]. cbn [fst].
      rewrite !wsSend_readyState, !sent_wsSend_open
        by (rewrite ?wsSend_readyState; assumption).
      rewrite <- Hbase, <- !app_assoc.
        repeat (split; [first [assumption | reflexivity] |]). now left.
  - exists [], [Error error_text]. cbn [fst].
    rewrite !wsSend_readyState, !sent_wsSend_open
      by (rewrite ?wsSend_readyState; assumption).
    rewrite Hsent0, <- !app_assoc.
    repeat (split; [first [assumption | reflexivity | (unfold count; simpl; lia)
                           | discriminate | (intros _; reflexivity)] |]).
    now left.
Qed.

Lemma chat_turn_printable (history : option (list chat_message))
    (userMessage : value) (feed : list feed_item) (agent_raises : bool)
    (s : socket) :
  printable userMessage = true ->
  chat_turn JSON_parse history userMessage feed agent_raises s
  = chat_block JSON_parse history userMessage feed agent_raises s.
Proof. intros H. unfold chat_turn. now rewrite H. Qed.

Lemma chat_turn_unprintable (history : option (list chat_message))
    (userMessage : value) (feed : list feed_item) (agent_raises : bool)
    (s : socket) :
  printable userMessage = false ->
  chat_turn JSON_parse history userMessage feed agent_raises s = (s, history).
Proof. intros H. unfold chat_turn. now rewrite H. Qed.

End Turn.

(** ** History *)

Lemma keep_manageable_last_n (h : list chat_message) :
  keep_manageable h = last_n 20 h.
Proof.
  unfold keep_manageable, last_n.
  destruct (Nat.ltb 20 (length h)) eqn:E; [reflexivity |].
  apply Nat.ltb_ge in E.
  now replace (length h - 20) with 0 by lia.
Qed.

Lemma last_n_app {A : Type} (k : nat) (a b : list A) :
  last_n k (last_n k a ++ b) = last_n k (a ++ b).
Proof.
  unfold last_n. rewrite !length_app, length_drop, !drop_app, drop_drop, !length_drop.
  destruct (Nat.le_gt_cases (length a) k) as [Hle|Hgt].
  - replace (length a - k) with 0 by lia. simpl.
    now rewrite !Nat.sub_0_r.
  - f_equal; f_equal; lia.
Qed.

Lemma length_last_n {A : Type} (k : nat) (l : list A) :
  length (last_n k l) = Nat.min k (length l).
Proof. unfold last_n. rewrite length_drop. lia. Qed.

Lemma record_exchange_entries (h : list chat_message) (x : exchange) :
  record_exchange h x = last_n 20 (h ++ exchange_entries x).
Proof.
  unfold record_exchange, update_history, exchange_entries, trim_is_truthy.
  destruct x as [u r]. simpl.
  destruct (trim_is_empty u), (trim_is_empty r); simpl;
    rewrite keep_manageable_last_n, <- ?app_assoc, ?app_nil_r; reflexivity.
Qed.

Lemma after_exchanges_entries (xs : list exchange) :
  forall h, length h <= 20 ->
  after_exchanges xs h = last_n 20 (h ++ flat_map exchange_entries xs).
Proof.
  induction xs as [|x xs IH]; intros h Hh.
  - simpl. rewrite app_nil_r. unfold last_n.
    now replace (length h - 20) with 0 by lia.
  - simpl. rewrite IH, record_exchange_entries.
    + now rewrite last_n_app, <- app_assoc.
    + rewrite record_exchange_entries, length_last_n. lia.
Qed.

(** Dropping whole exchanges when each contributes two messages. *)
Lemma drop_complete_exchanges (xs : list exchange) :
  forallb is_complete xs = true ->
  forall k, drop (2 * k) (flat_map exchange_entries xs)
            = flat_map exchange_entries (drop k xs).
Proof.
  induction xs as [|x xs IH]; intros Hall k.
  - simpl. now rewrite !drop_nil.
  - simpl in Hall. apply andb_true_iff in Hall as [Hx Hall].
    destruct k as [|k]; [reflexivity |].
    replace (2 * S k) with (2 + 2 * k) by lia.
    unfold is_complete in Hx. apply andb_true_iff in Hx as [Hu Hr].
    apply negb_true_iff in Hu, Hr.
    simpl flat_map. unfold exchange_entries at 1. rewrite Hu, Hr. simpl.
    exact (IH Hall k).
Qed.

Lemma length_complete_exchanges (xs : list exchange) :
  forallb is_complete xs = true ->
  length (flat_map exchange_entries xs) = 2 * length xs.
Proof.
  induction xs as [|x xs IH]; intros Hall; [reflexivity |].
  simpl in Hall. apply andb_true_iff in Hall as [Hx Hall].
  unfold is_complete in Hx. apply andb_true_iff in Hx as [Hu Hr].
  apply negb_true_iff in Hu, Hr.
  simpl. rewrite length_app, (IH Hall). unfold exchange_entries.
  rewrite Hu, Hr. simpl. lia.
Qed.

(** A turn that runs to its end records its exchange: the user's text
    and the response accumulated by the streaming step. *)
Lemma chat_turn_records_exchange (JSON_parse : string -> option value)
    (h : list chat_message) (user response : string) (feed : list feed_item)
    (s : socket) (st : turn_state) :
  drive JSON_parse feed (initial_state (wsSend s (Thinking (Some "Thinking..."))))
    = Done st ->
  fullResponse st = VStr response ->
  snd (chat_turn JSON_parse (Some h) (VStr user) feed false s)
  = Some (record_exchange h (user, response)).
Proof.
  intros Hdrive Hresponse. unfold chat_turn. cbn [printable].
  unfold chat_block, try_block, record_exchange.
  rewrite Hdrive, Hresponse. cbn [fst snd].
  now destruct (update_history (VStr user) (VStr response) h).
Qed.

(** ** A closed socket *)

Section ClosedSocket.

Variable JSON_parse : string -> option value.

Lemma drive_app (a b : list feed_item) (st : turn_state) :
  drive JSON_parse (a ++ b) st =
  match drive JSON_parse a st with
  | Done st' => drive JSON_parse b st'
  | Raised st' => Raised st'
  end.
Proof.
  revert st; induction a as [|item a IH]; intros st; [reflexivity |].
  simpl. destruct (step JSON_parse item st); [apply IH | reflexivity].
Qed.

(** Once the socket is closed the rest of the feed sends nothing. *)
Lemma drive_on_closed (s : socket) (feed : list feed_item) (st : turn_state) :
  readyState_OPEN s = false ->
  ws st = s ->
  ws (state_of (drive JSON_parse feed st)) = s.
Proof.
  intros Hclosed.
  apply drive_preserves with (P := fun st => ws st = s) (allowed := fun _ => true).
  - intros st' text H. simpl. rewrite H. now apply wsSend_closed.
  - intros st' a H. unfold capture. destruct (printable _); [| exact H].
    simpl. rewrite H. now apply wsSend_closed.
  - intros st' n H. exact H.
  - intros st' x H _. unfold forward, start_stream.
    destruct (streamStarted st'); destruct (_ && _); simpl; rewrite H;
      rewrite ?(wsSend_closed s) by assumption; reflexivity.
  - intros e st' _ H. unfold on_chain_end.
    destruct (_ && _); [| exact H]. destruct (_ && _); exact H.
  - intros st' _ H. simpl. rewrite H. destruct s as [o l]. simpl in *.
    now subst o.
  - now apply forallb_forall.
Qed.

(** A turn during which the socket closes: what was sent is what the
    feed before the closing sent. *)
Lemma chat_turn_closed_midway (h : list chat_message) (userMessage : value)
    (before after : list feed_item) (agent_raises : bool) (s : socket)
    (st : turn_state) :
  printable userMessage = true ->
  drive JSON_parse before (initial_state (wsSend s (Thinking (Some "Thinking..."))))
    = Done st ->
  fst (chat_turn JSON_parse (Some h) userMessage (before ++ Closed :: after)
         agent_raises s)
  = {| readyState_OPEN := false; sent := sent (ws st) |}.
Proof.
  intros Hprintable Hbefore. unfold chat_turn. rewrite Hprintable.
  unfold chat_block, try_block.
  rewrite drive_app, Hbefore. cbn [drive step].
  set (closed := {| readyState_OPEN := false; sent := sent (ws st) |}).
  pose proof (drive_on_closed closed after (close_socket st) eq_refl eq_refl) as Hws.
  destruct (drive JSON_parse after (close_socket st)) as [st'|st'];
    cbn [state_of] in Hws.
  - destruct agent_raises; [cbn [fst]; now rewrite Hws |].
    rewrite Hws. destruct (update_history _ _ _); reflexivity.
  - cbn [fst]. now rewrite Hws.
Qed.

End ClosedSocket.

(** ** The accumulated response *)

Section Accumulating.

Variable JSON_parse : string -> option value.

Lemma accumulating_send (base : list outbound) (st : turn_state) (m : outbound) :
  accumulating base st ->
  is_stream m = false -> is_stream_end m = false ->
  accumulating base (send m st).
Proof.
  intros (Hopen & new & Hs & Hf & Hst & Hse) H1 H2.
  split; [simpl; now rewrite wsSend_readyState |].
  exists (new ++ [m]). simpl.
  rewrite sent_wsSend_open, Hs, app_assoc by assumption.
  rewrite streamed_text_app, count_app, existsb_app, Hst, Hse, Hf.
  unfold count. simpl. rewrite H1, H2, orb_false_r.
  repeat split. f_equal. destruct m; try discriminate; simpl;
    now rewrite append_empty_r.
Qed.

Lemma accumulating_capture (base : list outbound) (st : turn_state) (action : value) :
  accumulating base st -> accumulating base (capture action st).
Proof.
  intros H. unfold capture. destruct (printable _).
  - now apply (accumulating_send base (set_mapAction action st)).
  - exact H.
Qed.

Lemma accumulating_forward (base : list outbound) (st : turn_state) (x : value) :
  accumulating base st ->
  (is_string (fullResponse st) = true -> printable x = true) ->
  accumulating base (state_of (forward x (start_stream st))).
Proof.
  intros (Hopen & new & Hs & Hf & Hst & Hse) Hx.
  rewrite Hf in Hx.
  rewrite (forward_string x (streamed_text new) st Hf (Hx eq_refl)).
  cbn [state_of]. unfold start_stream.
  destruct (streamStarted st) eqn:Hstarted.
  - split; [simpl; now rewrite wsSend_readyState |].
    exists (new ++ [Stream x]). simpl.
    rewrite sent_wsSend_open, Hs, app_assoc by assumption.
    rewrite streamed_text_app, count_app, existsb_app, Hst, Hse, Hf.
    unfold count, streamed_text. simpl. now rewrite append_empty_r.
  - split; [simpl; now rewrite !wsSend_readyState |].
    exists (new ++ [Thinking None; Stream x]). simpl.
    rewrite (wsSend_open (ws st)) by assumption.
    rewrite sent_wsSend_open by reflexivity. simpl.
    rewrite Hs, <- !app_assoc. simpl.
    rewrite streamed_text_app, count_app, existsb_app, Hst, Hse, Hf.
    unfold count, streamed_text. simpl. now rewrite append_empty_r.
Qed.

Lemma accumulating_drive (base : list outbound) (feed : list feed_item)
    (st : turn_state) :
  forallb before_answer feed = true ->
  accumulating base st ->
  accumulating base (state_of (drive JSON_parse feed st)).
Proof.
  intros Hfeed. apply drive_preserves with (allowed := before_answer).
  - intros st' text H. now apply accumulating_send.
  - intros st' a H. now apply accumulating_capture.
  - intros st' n H. exact H.
  - intros st' x H Hx. now apply accumulating_forward.
  - intros e st' He H. unfold before_answer, is_agent_end in He. simpl in He.
    unfold on_chain_end. apply negb_true_iff in He. now rewrite He.
  - intros st' Hc. discriminate.
  - exact Hfeed.
Qed.

End Accumulating.

(** ** Side actions on the event-log path *)

Section EventLog.

Variable JSON_parse : string -> option value.

Lemma extractSideAction_truthy (resultText : string) (action : value) :
  extractSideAction JSON_parse resultText = Some action -> truthy action = true.
Proof.
  unfold extractSideAction. destruct (JSON_parse resultText); [| discriminate].
  destruct (get_strict _ _) as [a|]; [| discriminate].
  destruct (truthy a) eqn:E; [| discriminate]. now intros [= <-].
Qed.

Lemma side_action_of_truthy (output action : value) :
  side_action_of JSON_parse output = Some action -> truthy action = true.
Proof.
  unfold side_action_of. destruct (printable output); [| discriminate].
  apply extractSideAction_truthy.
Qed.

Lemma one_action_send (base : list outbound) (st : turn_state) (m : outbound) :
  one_action base st -> is_map_action m = false -> one_action base (send m st).
Proof.
  intros (Hopen & new & Hs & Hn) Hm.
  split; [simpl; now rewrite wsSend_readyState |].
  exists (new ++ [m]). simpl.
  rewrite sent_wsSend_open, Hs, app_assoc by assumption.
  rewrite List.filter_app, Hn. simpl. rewrite Hm, app_nil_r. auto.
Qed.

Lemma one_action_forward (base : list outbound) (st : turn_state) (x : value) :
  one_action base st ->
  one_action base (state_of (forward x (start_stream st))).
Proof.
  intros H.
  assert (Hs : one_action base (start_stream st)).
  { unfold start_stream. destruct (streamStarted st); [exact H |].
    apply (one_action_send base (set_streamStarted st) (Thinking None));
      [exact H | reflexivity]. }
  unfold forward. destruct (_ && _); cbn [state_of]; [| exact Hs].
  now apply (one_action_send base (append_response x (start_stream st))).
Qed.

(** Once an action is captured, a later [on_tool_end] event sends
    nothing and changes nothing. *)
Lemma on_tool_end_keeps_first (e : stream_event) (st : turn_state) :
  truthy (mapAction st) = true -> on_tool_end JSON_parse e st = st.
Proof. intros H. unfold on_tool_end. now rewrite H, andb_false_r. Qed.

(** One event of the log keeps the invariant: the [on_tool_end] branch
    captures an action only when none is captured, and sends the one it
    captures unless its log line throws. *)
Lemma one_action_event (base : list outbound) (e : stream_event) (st : turn_state) :
  one_action base st ->
  one_action base (state_of (handle_event JSON_parse e st)).
Proof.
  intros H. unfold handle_event.
  assert (H1 : one_action base (on_tool_start e st)).
  { unfold on_tool_start. destruct (_ && _); [| exact H].
    now apply one_action_send. }
  assert (H2 : one_action base (on_tool_end JSON_parse e (on_tool_start e st))).
  { revert H1. generalize (on_tool_start e st). intros st1 H1.
    unfold on_tool_end.
    destruct (String.eqb (event e) "on_tool_end"); [| exact H1].
    destruct (truthy (mapAction st1)) eqn:Hcaptured; [exact H1 |].
    cbn [negb andb]. apply one_action_send; [| reflexivity].
    destruct (truthy (get_opt (data e) "output")); [| exact H1].
    destruct (side_action_of _ _) as [action|] eqn:Hx; [| exact H1].
    apply side_action_of_truthy in Hx.
    destruct H1 as (Hopen & new & Hs & Hn). rewrite Hcaptured in Hn.
    cbn [andb] in Hn. unfold capture.
    destruct (printable (get action "type")) eqn:Hp.
    - split; [simpl; now rewrite wsSend_readyState |].
      exists (new ++ [MapAction action]). simpl.
      rewrite sent_wsSend_open, Hs, app_assoc by assumption.
      rewrite List.filter_app, Hn, Hx, Hp. auto.
    - split; [exact Hopen |]. exists new. cbn [set_mapAction mapAction ws].
      now rewrite Hx, Hp. }
  assert (H3 : one_action base
                 (state_of (on_chat_model_stream e
                              (on_tool_end JSON_parse e (on_tool_start e st))))).
  { revert H2. generalize (on_tool_end JSON_parse e (on_tool_start e st)).
    intros st2 H2. unfold on_chat_model_stream.
    destruct (String.eqb _ _); [| exact H2].
    destruct (extractTextFromChunk _) as [text|]; [| exact H2].
    destruct (truthy text); [| exact H2].
    destruct (response_includes _ _) as [[|]|]; try exact H2.
    now apply one_action_forward. }
  destruct (on_chat_model_stream e _) as [st3|st3]; cbn [state_of] in *;
    [| exact H3].
  unfold on_chain_end. destruct (_ && _); [| exact H3].
  destruct (_ && _); exact H3.
Qed.

(** On a feed of events alone, at most one action is sent, the first one
    found, and it is the one the turn ends with. *)
Lemma event_log_first_wins (base : list outbound) (feed : list feed_item) :
  forall st,
    forallb is_event feed = true ->
    one_action base st ->
    one_action base (state_of (drive JSON_parse feed st)).
Proof.
  induction feed as [|item feed IH]; intros st Hfeed H; [exact H |].
  simpl in Hfeed. apply andb_true_iff in Hfeed as [Hitem Hfeed].
  destruct item as [| | |e|]; try discriminate.
  pose proof (one_action_event base e st H) as He. simpl.
  destruct (handle_event JSON_parse e st); [now apply IH | exact He].
Qed.

End EventLog.

(** ** The client *)

(** The client leaves its map as it is on an action whose tag it does
    not know. *)
Lemma handleMapAction_unknown_tag (now : N) (action prev : value) :
  recognized_tag action = false -> handleMapAction now action prev = prev.
Proof.
  unfold recognized_tag, handleMapAction.
  destruct (get action "type"); try reflexivity.
  intros H. apply orb_false_iff in H as [H Hc].
  apply orb_false_iff in H as [Hm Hr]. now rewrite Hm, Hr, Hc.
Qed.

(** ** The handlers at values that cannot be converted to a string *)

(** A chat request whose content cannot be logged changes nothing and
    sends nothing. *)
Lemma unprintable_content_is_dropped :
  JsonFragment.parse unprintable_payload
  = Some (VObj [("type", VStr "chat"); ("content", VObj [("toString", VNum "1")])])
  /\ on_message JsonFragment.parse 0 unprintable_payload [CbLLMNewToken "Hi"] false
       (on_connection 1700000000123 empty_server)
     = on_connection 1700000000123 empty_server.
Proof. split; reflexivity. Qed.

(** An action whose type cannot be logged is captured and carried by the
    final message without having been sent. *)
Lemma unprintable_type_is_not_sent :
  sent (fst (chat_turn JsonFragment.parse (Some []) (VStr "Cafes")
               [CbToolEnd (VStr unprintable_type_output); CbLLMNewToken "Hi"]
               false open_socket))
  = [Thinking (Some "Thinking..."); Thinking (Some "Generating response...");
     Thinking None; Stream (VStr "Hi");
     StreamEnd (VStr "Hi") (VObj [("type", VObj [("toString", VNum "1")])]);
     Thinking None].
Proof. reflexivity. Qed.

(** A final answer that is an array holding such an object, followed by
    a chunk: the indicator is cleared, the concatenation throws, and the
    turn ends with the error message. *)
Lemma unprintable_answer_fails_the_stream :
  sent (fst (chat_turn JsonFragment.parse (Some []) (VStr "Hello")
               [agent_end (VArr [VObj [("toString", VNum "1")]]);
                stream_chunk (ContentString "Hi")]
               false open_socket))
  = [Thinking (Some "Thinking..."); Thinking None; Error error_text; Thinking None].
Proof. reflexivity. Qed.

(** A place whose name cannot be converted fails the tool call after its
    helper has returned. *)
Lemma unprintable_place_fails_the_call :
  call_tool "search_places" (VObj [("query", VStr "cafe")])
    (fun t => match t with
              | SearchPlaces => Returned [unprintable_place]
              | _ => HelperThrew "fetch failed"
              end)
  = ToolError TypeErrorMessage "search_places" (VObj [("query", VStr "cafe")]).
Proof. reflexivity. Qed.

(** A declared parameter named ["__proto__"] gets no validator: the
    assignment sets the prototype of the shape and adds no key to it. *)
Lemma proto_parameter_has_no_validator :
  default ∅ (properties proto_schema) !! "__proto__"
  = Some {| prop_type := VStr "string"; prop_enum := None;
            prop_description := None |}
  /\ jsonSchemaToZod proto_schema !! "__proto__" = None
  /\ jsonSchemaToZod proto_schema !! "query"
     = Some {| base := ZString; description := None; optional := false |}.
Proof. vm_compute. repeat split. Qed.

(** * The claims *)

(** ** C1: forwarding of streamed fragments *)

(** C1, as stated, fails: a fragment that repeats earlier text is dropped.
    Four chunks arrive by the event log with texts ["the "], ["cat and "],
    ["the "], ["dog"]; the third occurs in the accumulated text and is not
    forwarded, so the client assembles ["the cat and dog"]. *)
Lemma C1_repeated_fragment_is_lost :
  let shapes := [ContentString "the "; ContentString "cat and ";
                 ContentString "the "; ContentString "dog"] in
  let st := state_of (drive JsonFragment.parse (map stream_chunk shapes)
                        (initial_state open_socket)) in
  concat_strings (map chunk_text shapes) = "the cat and the dog"
  /\ streamed_text (sent (ws st)) = "the cat and dog"
  /\ streamed_text (sent (ws st)) <> concat_strings (map chunk_text shapes).
Proof. vm_compute. repeat split. discriminate. Qed.

(** C1, amended.  The text extracted from a chunk of any supported shape
    is the text it carries.  When the fragments arrive by both channels,
    every event-log chunk replaying a token the callback delivered before
    it, the [stream] messages are exactly the callback's non-empty tokens,
    in order, and their concatenation is the text once.  When they arrive
    by the event log alone and no fragment occurs in the text accumulated
    before it, the [stream] messages are exactly the fragments, and their
    concatenation is the text once. *)
Theorem C1_forwarding_by_channel (JSON_parse : string -> option value) :
  (forall sh, extractTextFromChunk (chunk_value sh) = Ok (VStr (chunk_text sh)))
  /\ (forall (feed : list (string + chunk_shape)) (s : socket),
        readyState_OPEN s = true ->
        replays_follow [] feed = true ->
        exists st,
          drive JSON_parse (map fragment_item feed) (initial_state s) = Done st
          /\ stream_contents (sent (ws st)) =
             stream_contents (sent s) ++
             map VStr (List.filter non_empty (callback_tokens feed))
          /\ streamed_text (sent (ws st)) =
             streamed_text (sent s) +:+ concat_strings (callback_tokens feed))
  /\ (forall (shapes : list chunk_shape) (s : socket),
        readyState_OPEN s = true ->
        fresh_fragments "" (map chunk_text shapes) = true ->
        exists st,
          drive JSON_parse (map stream_chunk shapes) (initial_state s) = Done st
          /\ stream_contents (sent (ws st)) =
             stream_contents (sent s) ++ map VStr (map chunk_text shapes)
          /\ streamed_text (sent (ws st)) =
             streamed_text (sent s) +:+ concat_strings (map chunk_text shapes)).
Proof.
  assert (Htext : forall l, map toString (map VStr l) = l).
  { induction l as [|x l IH]; [reflexivity | simpl; now rewrite IH]. }
  split; [exact extract_chunk_value |]. split.
  - intros feed s Hopen Hrep.
    destruct (drive_both_channels JSON_parse feed [] "" (initial_state s))
      as (st & Hd & _ & _ & Hs); try easy.
    exists st. split; [exact Hd |]. split; [exact Hs |].
    unfold streamed_text. rewrite Hs, map_app, concat_strings_app, Htext.
    now rewrite concat_strings_non_empty.
  - intros shapes s Hopen Hfresh.
    destruct (drive_event_log JSON_parse shapes "" (initial_state s))
      as (st & Hd & _ & _ & Hs); try easy.
    exists st. split; [exact Hd |]. split; [exact Hs |].
    unfold streamed_text. now rewrite Hs, map_app, concat_strings_app, Htext.
Qed.

(** C1 at a concrete feed: ["Hel"] and ["lo"] by the callback, each
    replayed by the event log, and ["ab"], ["cd"] by the event log alone. *)
Lemma C1_forwarding_by_channel_witness :
  (exists st,
     drive JsonFragment.parse
       (map fragment_item
          [inl "Hel"; inr (ContentString "Hel"); inl "lo";
           inr (KwargsString "lo")])
       (initial_state open_socket) = Done st
     /\ stream_contents (sent (ws st)) = [VStr "Hel"; VStr "lo"]
     /\ streamed_text (sent (ws st)) = "Hello")
  /\ (exists st,
        drive JsonFragment.parse
          (map stream_chunk [ContentParts [(TextPart, "a"); (PlainPart, "b")];
                             TextField "cd"])
          (initial_state open_socket) = Done st
        /\ stream_contents (sent (ws st)) = [VStr "ab"; VStr "cd"]
        /\ streamed_text (sent (ws st)) = "abcd").
Proof.
  destruct (C1_forwarding_by_channel JsonFragment.parse) as (_ & Hboth & Hlog).
  split.
  - apply (Hboth [inl "Hel"; inr (ContentString "Hel"); inl "lo";
                  inr (KwargsString "lo")] open_socket); reflexivity.
  - apply (Hlog [ContentParts [(TextPart, "a"); (PlainPart, "b")]; TextField "cd"]
             open_socket); reflexivity.
Defined.

(** ** C2: one side action per turn *)

(** C2 fails on the callback path, which lacks the guard of the event
    log: two tool calls whose results both carry an action produce two
    [map_action] messages, and the final message carries the second. *)
Lemma C2_callbacks_send_every_action :
  let out :=
    sent (fst (chat_turn JsonFragment.parse (Some [])
                 (VStr "Cafes near the station, and the way there")
                 [CbToolStart "search_places"; CbToolEnd (VStr markers_output);
                  CbToolStart "get_directions"; CbToolEnd (VStr route_output);
                  CbLLMNewToken "Done."]
                 false open_socket)) in
  out = [Thinking (Some "Thinking...");
         Thinking (Some "Using search places...");
         MapAction markers_action;
         Thinking (Some "Generating response...");
         Thinking (Some "Using get directions...");
         MapAction route_action;
         Thinking (Some "Generating response...");
         Thinking None;
         Stream (VStr "Done.");
         StreamEnd (VStr "Done.") route_action;
         Thinking None]
  /\ count is_map_action out = 2.
Proof. vm_compute. split; reflexivity. Qed.

(** ** C3: clearing the indicator *)

(** C3, as stated, fails on the streaming path: the indicator is cleared
    when the first token is forwarded and again at the end of the turn. *)
Lemma C3_streaming_turn_clears_twice :
  sent (fst (chat_turn JsonFragment.parse (Some []) (VStr "Hello")
               [CbLLMNewToken "Hi"] false open_socket))
  = [Thinking (Some "Thinking..."); Thinking None; Stream (VStr "Hi");
     StreamEnd (VStr "Hi") VNull; Thinking None]
  /\ count is_status_null
       (sent (fst (chat_turn JsonFragment.parse (Some []) (VStr "Hello")
                     [CbLLMNewToken "Hi"] false open_socket))) <> 1.
Proof. vm_compute. split; [reflexivity | discriminate]. Qed.

(** C3, amended.  A chat request whose content cannot be converted to a
    string is dropped before anything is sent.  For every other turn on a
    socket that stays open, whatever its path (streaming, a non-streamed
    answer, or a failure), the last message is [status(null)]; over the
    whole turn it is sent once or twice, and twice whenever a token was
    streamed (once more, when streaming started).  When every final answer
    of the agent is a string it is sent exactly once on a turn without
    streamed tokens. *)
Theorem C3_status_null_per_turn (JSON_parse : string -> option value)
    (history : option (list chat_message)) (userMessage : value)
    (feed : list feed_item) (agent_raises : bool) (s : socket) :
  readyState_OPEN s = true ->
  stays_open feed = true ->
  (printable userMessage = false ->
   chat_turn JSON_parse history userMessage feed agent_raises s = (s, history))
  /\ (printable userMessage = true ->
      exists out,
        sent (fst (chat_turn JSON_parse history userMessage feed agent_raises s))
          = sent s ++ out
        /\ last out = Some (Thinking None)
        /\ 1 <= count is_status_null out <= 2
        /\ (existsb is_stream out = true -> count is_status_null out = 2)
        /\ (forallb string_answer feed = true ->
            count is_status_null out = (if existsb is_stream out then 2 else 1))).
Proof.
  intros Hopen Hfeed. split; [apply chat_turn_unprintable |].
  intros Hprintable. rewrite chat_turn_printable by exact Hprintable.
  destruct (chat_block_sent JSON_parse history userMessage feed agent_raises s Hopen Hfeed)
    as (new & tail & Hsent & _ & Hle & Hone & Hexact & _ & _ & _ & Htail).
  exists (Thinking (Some "Thinking...") :: new ++ tail ++ [Thinking None]).
  split; [exact Hsent |]. split.
  - change (Thinking (Some "Thinking...") :: new ++ tail ++ [Thinking None])
      with ((Thinking (Some "Thinking...") :: new) ++ tail ++ [Thinking None]).
    now rewrite !app_assoc, last_snoc.
  - change (Thinking (Some "Thinking...") :: new ++ tail ++ [Thinking None])
      with ([Thinking (Some "Thinking...")] ++ new ++ tail ++ [Thinking None]).
    rewrite !count_app, !existsb_app.
    assert (Hcount : count is_status_null [Thinking (Some "Thinking...")] = 0
                     /\ count is_status_null tail = 0
                     /\ count is_status_null [Thinking None] = 1
                     /\ existsb is_stream tail = false).
    { destruct Htail as [-> | [(c & a & ->) | (c & a & ->)]]; repeat split. }
    destruct Hcount as (-> & -> & -> & ->). cbn [existsb is_stream orb].
    rewrite !orb_false_r. split; [lia |]. split.
    + intros E. rewrite (Hone E). reflexivity.
    + intros Hans. rewrite (Hexact Hans).
      destruct (existsb is_stream new); reflexivity.
Qed.

(** C3 at a turn whose agent fails after calling a tool. *)
Lemma C3_status_null_per_turn_witness :
  exists out,
    sent (fst (chat_turn JsonFragment.parse (Some []) (VStr "Hello")
                 [CbToolStart "search_places"] true open_socket))
      = sent open_socket ++ out
    /\ last out = Some (Thinking None)
    /\ 1 <= count is_status_null out <= 2
    /\ (existsb is_stream out = true -> count is_status_null out = 2)
    /\ (forallb string_answer [CbToolStart "search_places"] = true ->
        count is_status_null out = (if existsb is_stream out then 2 else 1)).
Proof.
  apply (proj2 (C3_status_null_per_turn JsonFragment.parse (Some []) (VStr "Hello")
                  [CbToolStart "search_places"] true open_socket
                  eq_refl eq_refl));
    reflexivity.
Defined.

(** ** C4: history retention *)

(** C4, as stated, fails for the window of the source, twenty.  After
    twenty-one exchanges whose texts trim to nothing the history is empty;
    after twenty-one ordinary exchanges it holds twenty messages, which are
    the ten most recent exchanges and not the twenty most recent. *)
Lemma C4_window_counts_messages :
  length (after_exchanges (repeat ("", "") 21) []) = 0
  /\ after_exchanges (repeat ("hi", "yo") 21) []
     = flat_map exchange_entries (repeat ("hi", "yo") 10)
  /\ after_exchanges (repeat ("hi", "yo") 21) []
     <> flat_map exchange_entries (repeat ("hi", "yo") 20).
Proof. vm_compute. repeat split. discriminate. Qed.

(** C4, amended.  The window counts messages.  Starting from a new
    session, after any number of completed exchanges the history is the
    last twenty of the messages they contributed, in their order, so its
    length is the smaller of twenty and their number; and when every
    exchange contributed both its messages and there were more than ten,
    the history is exactly the ten most recent exchanges. *)
Theorem C4_history_retention (xs : list exchange) :
  after_exchanges xs [] = last_n 20 (flat_map exchange_entries xs)
  /\ length (after_exchanges xs []) = Nat.min 20 (length (flat_map exchange_entries xs))
  /\ (forallb is_complete xs = true ->
      10 < length xs ->
      length (after_exchanges xs []) = 20
      /\ after_exchanges xs [] = flat_map exchange_entries (last_n 10 xs)).
Proof.
  assert (H : after_exchanges xs [] = last_n 20 (flat_map exchange_entries xs)).
  { rewrite after_exchanges_entries by (simpl; lia). reflexivity. }
  split; [exact H |]. split; [now rewrite H, length_last_n |].
  intros Hall Hlen. rewrite H, length_last_n.
  pose proof (length_complete_exchanges xs Hall) as Hl.
  split; [lia |].
  unfold last_n. rewrite Hl.
  replace (2 * length xs - 20) with (2 * (length xs - 10)) by lia.
  now apply drop_complete_exchanges.
Qed.

(** C4 at twelve ordinary exchanges. *)
Lemma C4_history_retention_witness :
  length (after_exchanges (repeat ("hi", "yo") 12) []) = 20
  /\ after_exchanges (repeat ("hi", "yo") 12) []
     = flat_map exchange_entries (last_n 10 (repeat ("hi", "yo") 12)).
Proof.
  apply (proj2 (proj2 (C4_history_retention (repeat ("hi", "yo") 12))));
    [reflexivity | vm_compute; lia].
Defined.

(** ** C5: session identifiers *)

(** C5 fails: the identifier is the last six digits of the clock.  Two
    clients accepted in the same millisecond get the same identifier, as
    do two accepted a thousand seconds apart; the second overwrites the
    first's entry, closing the first removes the second's session, and the
    second's next message fails. *)
Lemma C5_identifiers_collide :
  let srv := serve_all JsonFragment.parse
               [Connection 1700000000123; Connection 1700000000123] empty_server in
  let srv' := serve_all JsonFragment.parse
                [Close 0; Message 1 (chat_payload "hello") [CbLLMNewToken "Hi"] false]
                srv in
  new_sessionId 1700000000123 = "000123"
  /\ new_sessionId 1700001000123 = "000123"
  /\ (sessionId <$> connections srv !! 0) = Some "000123"
  /\ (sessionId <$> connections srv !! 1) = Some "000123"
  /\ (readyState_OPEN <$> (conn_ws <$> connections srv !! 1)) = Some true
  /\ sessions srv !! "000123" = Some 1
  /\ size (sessions srv) = 1
  /\ sessions srv' !! "000123" = None
  /\ (sent <$> (conn_ws <$> connections srv' !! 1))
     = Some [Response; Thinking (Some "Thinking..."); Error error_text; Thinking None].
Proof. vm_compute. repeat split. Qed.

(** ** C6: extracting the side action *)

(** C6, as stated, fails: the tag is never examined, so a result whose
    [mapAction] carries an unknown tag is extracted and forwarded. *)
Lemma C6_unknown_tag_is_extracted :
  extractSideAction JsonFragment.parse teleport_output
    = Some (VObj [("type", VStr "TELEPORT")])
  /\ recognized_tag (VObj [("type", VStr "TELEPORT")]) = false
  /\ sent (ws (handleToolEnd JsonFragment.parse (VStr teleport_output)
                 (initial_state open_socket)))
     = [MapAction (VObj [("type", VStr "TELEPORT")]);
        Thinking (Some "Generating response...")].
Proof. vm_compute. repeat split. Qed.

(** C6, amended.  The extraction is a total function of the text: it
    yields nothing exactly when the text does not parse or the parsed
    document has no truthy [mapAction] field (a parsed [null] included),
    and otherwise yields that field as it is, whatever its tag.  Unknown
    tags are ignored by the client, whose map stays as it is. *)
Theorem C6_extractSideAction_total (JSON_parse : string -> option value)
    (resultText : string) :
  (extractSideAction JSON_parse resultText = None <->
     JSON_parse resultText = None
     \/ exists parsed, JSON_parse resultText = Some parsed
                       /\ truthy (get parsed "mapAction") = false)
  /\ (forall parsed,
        JSON_parse resultText = Some parsed ->
        truthy (get parsed "mapAction") = true ->
        extractSideAction JSON_parse resultText = Some (get parsed "mapAction"))
  /\ (forall now action prev,
        recognized_tag action = false ->
        handleMapAction now action prev = prev).
Proof.
  split; [| split; [| exact handleMapAction_unknown_tag]];
    unfold extractSideAction, get_strict; [split |].
  - destruct (JSON_parse resultText) as [parsed|]; [| now left].
    intros H. right. exists parsed. split; [reflexivity |].
    destruct parsed; simpl in *; try reflexivity;
      destruct (truthy _); [discriminate | reflexivity].
  - intros [-> | (parsed & -> & H)]; [reflexivity |].
    destruct (is_nullish parsed); [reflexivity | now rewrite H].
  - intros parsed -> H.
    destruct parsed; simpl in *; try discriminate; now rewrite H.
Qed.

(** C6 at the output of a place search, and at a client shown an
    action it does not know. *)
Lemma C6_extractSideAction_total_witness :
  extractSideAction JsonFragment.parse markers_output = Some markers_action
  /\ handleMapAction 1700000000123 (VObj [("type", VStr "TELEPORT")])
       (VObj [("zoom", VNum "12")])
     = VObj [("zoom", VNum "12")].
Proof.
  destruct (C6_extractSideAction_total JsonFragment.parse markers_output)
    as (_ & Hsome & Hclient).
  split.
  - apply (Hsome (VObj [("result", VArr []); ("mapAction", markers_action)]));
      reflexivity.
  - apply (Hclient 1700000000123%N (VObj [("type", VStr "TELEPORT")])
             (VObj [("zoom", VNum "12")])).
    reflexivity.
Defined.

(** ** C7: a failed turn *)

(** C7.  When the [try] block of a turn ends by an exception, on a socket
    that stays open (the content of the request being one the handler can
    log), the client is sent exactly one [error] message, the socket is
    still open, the store is as it was, and no session object is lost: a
    session that had a history before the turn has one after it, which
    the next message on the connection finds. *)
Theorem C7_failed_turn (JSON_parse : string -> option value) (c : nat)
    (payload : string) (feed : list feed_item) (agent_raises : bool)
    (srv : server) (conn : connection) (message : value)
    (r : socket * option (list chat_message)) :
  connections srv !! c = Some conn ->
  readyState_OPEN (conn_ws conn) = true ->
  stays_open feed = true ->
  JSON_parse payload = Some message ->
  get_strict message "type" = Ok (VStr "chat") ->
  printable (get message "content") = true ->
  try_block JSON_parse (history_of srv (sessionId conn)) (get message "content")
    feed agent_raises (wsSend (conn_ws conn) (Thinking (Some "Thinking...")))
    = Raised r ->
  let srv' := on_message JSON_parse c payload feed agent_raises srv in
  sessions srv' = sessions srv
  /\ length (heap srv') = length (heap srv)
  /\ (forall id, is_Some (history_of srv id) -> is_Some (history_of srv' id))
  /\ exists out,
       connections srv' !! c
         = Some {| sessionId := sessionId conn;
                   conn_ws := {| readyState_OPEN := true;
                                 sent := sent (conn_ws conn) ++ out |} |}
       /\ count is_error out = 1.
Proof.
  intros Hconn Hopen Hfeed Hparse Htype Hprintable Hraised srv'.
  destruct (chat_block_sent JSON_parse (history_of srv (sessionId conn))
              (get message "content") feed agent_raises (conn_ws conn) Hopen Hfeed)
    as (new & tail & Hsent & Hready & _ & _ & _ & Hnew & _ & Htail & _).
  rewrite Hraised in Htail.
  rewrite <- (chat_turn_printable JSON_parse _ _ feed agent_raises (conn_ws conn)
                Hprintable) in Hsent, Hready.
  unfold srv', on_message. rewrite Hconn, Hparse, Htype. cbv beta iota zeta.
  rewrite Hprintable. cbn [negb].
  rewrite Hopen, Hready. cbn [negb andb sessions heap connections].
  assert (Hlen : forall h,
    length (match sessions srv !! sessionId conn, h with
            | Some loc, Some h' => alter (set_chatHistory h') loc (heap srv)
            | _, _ => heap srv
            end) = length (heap srv)).
  { intros h. destruct (sessions srv !! sessionId conn); [| reflexivity].
    destruct h; [apply length_alter | reflexivity]. }
  split; [reflexivity |]. split; [apply Hlen |]. split.
  - intros id. unfold history_of. cbn [sessions heap].
    destruct (sessions srv !! id) as [loc|]; [| intros [x Hx]; discriminate].
    intros [x Hx]. apply fmap_Some in Hx as (se & Hse & _).
    apply lookup_lt_Some in Hse. rewrite <- (Hlen (snd (chat_turn JSON_parse
      (history_of srv (sessionId conn)) (get message "content") feed
      agent_raises (conn_ws conn)))) in Hse.
    unfold history_of in Hse.
    apply lookup_lt_is_Some in Hse as [se' Hse']. rewrite Hse'. now eexists.
  - exists (Thinking (Some "Thinking...") :: new ++ tail ++ [Thinking None]). split.
    + rewrite list_lookup_insert_eq by (eapply lookup_lt_Some; eassumption).
      f_equal. f_equal.
      destruct (fst (chat_turn _ _ _ _ _ _)) as [o l]. simpl in *. congruence.
    + change (Thinking (Some "Thinking...") :: new ++ tail ++ [Thinking None])
        with ([Thinking (Some "Thinking...")] ++ new ++ tail ++ [Thinking None]).
      rewrite !count_app, Hnew, Htail. reflexivity.
Qed.

(** C7 at a turn whose agent fails after one tool call. *)
Lemma C7_failed_turn_witness :
  let srv := on_connection 1700000000123 empty_server in
  let srv' := on_message JsonFragment.parse 0 (chat_payload "hello")
                [CbToolStart "geocode"] true srv in
  sessions srv' = sessions srv
  /\ length (heap srv') = length (heap srv)
  /\ (forall id, is_Some (history_of srv id) -> is_Some (history_of srv' id))
  /\ exists out,
       connections srv' !! 0
         = Some {| sessionId := "000123";
                   conn_ws := {| readyState_OPEN := true;
                                 sent := [Response] ++ out |} |}
       /\ count is_error out = 1.
Proof.
  apply (C7_failed_turn JsonFragment.parse 0 (chat_payload "hello")
           [CbToolStart "geocode"] true (on_connection 1700000000123 empty_server)
           {| sessionId := "000123";
              conn_ws := {| readyState_OPEN := true; sent := [Response] |} |}
           (VObj [("type", VStr "chat"); ("content", VStr "hello")])
           ({| readyState_OPEN := true;
               sent := [Response; Thinking (Some "Thinking...");
                        Thinking (Some "Using geocode...")] |}, Some []));
    reflexivity.
Defined.

(** ** C8: a closed transport *)

(** C8.  Writing to a socket that is not open changes nothing.  The close
    handler removes the connection's identifier from the store.  When the
    socket closes while a turn awaits the agent (the turn of a request
    whose content the handler can log), the messages of the connection are
    those sent before the closing, whatever the rest of the feed, and
    afterwards the store has no entry under the identifier. *)
Theorem C8_closed_transport (JSON_parse : string -> option value) :
  (forall s data, readyState_OPEN s = false -> wsSend s data = s)
  /\ (forall srv c conn,
        connections srv !! c = Some conn ->
        sessions (on_close c srv) !! sessionId conn = None
        /\ (readyState_OPEN <$> (conn_ws <$> connections (on_close c srv) !! c))
           = Some false)
  /\ (forall srv c conn payload message h before after agent_raises st,
        connections srv !! c = Some conn ->
        readyState_OPEN (conn_ws conn) = true ->
        JSON_parse payload = Some message ->
        get_strict message "type" = Ok (VStr "chat") ->
        printable (get message "content") = true ->
        history_of srv (sessionId conn) = Some h ->
        drive JSON_parse before
          (initial_state (wsSend (conn_ws conn) (Thinking (Some "Thinking..."))))
          = Done st ->
        let srv' := on_message JSON_parse c payload (before ++ Closed :: after)
                      agent_raises srv in
        sessions srv' !! sessionId conn = None
        /\ (conn_ws <$> connections srv' !! c)
           = Some {| readyState_OPEN := false; sent := sent (ws st) |}).
Proof.
  split; [exact wsSend_closed |]. split.
  - intros srv c conn Hconn. unfold on_close. rewrite Hconn. simpl. split.
    + apply lookup_delete_eq.
    + now rewrite list_lookup_insert_eq by (eapply lookup_lt_Some; eassumption).
  - intros srv c conn payload message h before after agent_raises st
      Hconn Hopen Hparse Htype Hprintable Hhist Hbefore srv'.
    unfold srv', on_message. rewrite Hconn, Hparse, Htype, Hhist.
    cbv beta iota zeta. rewrite Hprintable. cbn [negb].
    rewrite (chat_turn_closed_midway JSON_parse h _ before after agent_raises
               (conn_ws conn) st Hprintable Hbefore).
    rewrite Hopen. cbn [negb andb sessions connections readyState_OPEN]. split.
    + apply lookup_delete_eq.
    + now rewrite list_lookup_insert_eq by (eapply lookup_lt_Some; eassumption).
Qed.

(** C8 at a write to a closed socket, at a client that closes, and at
    a client that disconnects after the first token. *)
Lemma C8_closed_transport_witness :
  let srv := on_connection 1700000000123 empty_server in
  let srv' := on_message JsonFragment.parse 0 (chat_payload "hello")
                ([CbLLMNewToken "Hi"] ++ Closed :: [CbLLMNewToken " there"])
                false srv in
  wsSend {| readyState_OPEN := false; sent := [Response] |} (Thinking None)
    = {| readyState_OPEN := false; sent := [Response] |}
  /\ (sessions (on_close 0 srv) !! "000123" = None
      /\ (readyState_OPEN <$> (conn_ws <$> connections (on_close 0 srv) !! 0))
         = Some false)
  /\ (sessions srv' !! "000123" = None
      /\ (conn_ws <$> connections srv' !! 0)
         = Some {| readyState_OPEN := false;
                   sent := [Response; Thinking (Some "Thinking..."); Thinking None;
                            Stream (VStr "Hi")] |}).
Proof.
  destruct (C8_closed_transport JsonFragment.parse) as (Hsend & Hclose & Hmid).
  split; [| split].
  - apply (Hsend {| readyState_OPEN := false; sent := [Response] |} (Thinking None)).
    reflexivity.
  - apply (Hclose (on_connection 1700000000123 empty_server) 0
             {| sessionId := "000123";
                conn_ws := {| readyState_OPEN := true; sent := [Response] |} |}).
    reflexivity.
  - apply (Hmid (on_connection 1700000000123 empty_server) 0
             {| sessionId := "000123";
                conn_ws := {| readyState_OPEN := true; sent := [Response] |} |}
             (chat_payload "hello")
             (VObj [("type", VStr "chat"); ("content", VStr "hello")])
             [] [CbLLMNewToken "Hi"] [CbLLMNewToken " there"] false
             {| fullResponse := VStr "Hi"; mapAction := VNull; toolsUsed := [];
                streamStarted := true;
                ws := {| readyState_OPEN := true;
                         sent := [Response; Thinking (Some "Thinking...");
                                  Thinking None; Stream (VStr "Hi")] |} |});
      reflexivity.
Defined.

(** ** C9: the text of the final message *)

(** C9.  Take a turn, of a request whose content the handler can log,
    that runs without an exception on a socket that stays open, and whose
    feed ends with the agent's final answer.  The turn sends one
    [stream_end] message.  When no token was streamed its
    text is the final answer (the empty text when that answer is falsy);
    when tokens were streamed its text is their concatenation. *)
Theorem C9_final_text (JSON_parse : string -> option value)
    (h : list chat_message) (userMessage : value) (body : list feed_item)
    (answer : value) (s : socket) (st : turn_state) :
  printable userMessage = true ->
  readyState_OPEN s = true ->
  forallb before_answer body = true ->
  drive JSON_parse body (initial_state (wsSend s (Thinking (Some "Thinking..."))))
    = Done st ->
  exists new content action tail,
    sent (fst (chat_turn JSON_parse (Some h) userMessage
                 (body ++ [agent_end answer]) false s))
      = sent s ++ Thinking (Some "Thinking...") :: new
          ++ StreamEnd content action :: tail
    /\ count is_stream_end new = 0
    /\ count is_stream_end tail = 0
    /\ (existsb is_stream new = false ->
        content = if truthy answer then answer else VStr "")
    /\ (existsb is_stream new = true -> content = VStr (streamed_text new)).
Proof.
  intros Hprintable Hopen Hbody Hdrive.
  rewrite chat_turn_printable by exact Hprintable.
  set (s0 := wsSend s (Thinking (Some "Thinking..."))) in *.
  assert (Hinit : accumulating (sent s ++ [Thinking (Some "Thinking...")])
                    (initial_state s0)).
  { split; [unfold s0; simpl; now rewrite wsSend_readyState |].
    exists []. unfold s0. simpl.
    now rewrite sent_wsSend_open, app_nil_r by assumption. }
  pose proof (accumulating_drive JSON_parse _ body _ Hbody Hinit) as Hacc.
  rewrite Hdrive in Hacc. cbn [state_of] in Hacc.
  destruct Hacc as (Ho & new & Hs & Hf & Hst & Hse).
  unfold chat_block, try_block. fold s0.
  rewrite drive_app, Hdrive.
  change (drive JSON_parse [agent_end answer] st)
    with (Done (if truthy answer && negb (streamStarted st)
                then set_fullResponse answer st else st) : outcome turn_state).
  set (st' := if truthy answer && negb (streamStarted st)
              then set_fullResponse answer st else st).
  assert (Hws : ws st' = ws st) by (unfold st'; now destruct (_ && _)).
  assert (Hsent : forall tail,
    sent (ws st) ++ StreamEnd (fullResponse st') (mapAction st') :: tail
    = sent s ++ Thinking (Some "Thinking...") :: new
        ++ StreamEnd (fullResponse st') (mapAction st') :: tail).
  { intros tail. now rewrite Hs, <- !app_assoc. }
  assert (Hcontent :
    (existsb is_stream new = false ->
     fullResponse st' = if truthy answer then answer else VStr "")
    /\ (existsb is_stream new = true -> fullResponse st' = VStr (streamed_text new))).
  { unfold st'. rewrite Hst. split; intros Hstarted; rewrite Hstarted.
    - destruct (truthy answer); simpl; [reflexivity |].
      rewrite Hf. unfold streamed_text.
      assert (Hnone : stream_contents new = []).
      { rewrite <- Hst in Hstarted. clear -Hstarted.
        induction new as [|m new IH]; [reflexivity |].
        simpl in Hstarted. apply orb_false_iff in Hstarted as [Hm Hnew].
        destruct m; try discriminate; simpl; now apply IH. }
      now rewrite Hnone.
    - now rewrite andb_false_r. }
  exists new, (fullResponse st'), (mapAction st').
  destruct (update_history userMessage (fullResponse st') h).
  - exists [Thinking None]. cbn [fst].
    rewrite !sent_wsSend_open
      by (rewrite ?wsSend_readyState, ?Hws; assumption).
    rewrite Hws, <- !app_assoc. cbn [app]. rewrite Hsent. auto.
  - exists [Error error_text; Thinking None]. cbn [fst].
    rewrite !sent_wsSend_open
      by (rewrite ?wsSend_readyState, ?Hws; assumption).
    rewrite Hws, <- !app_assoc. cbn [app]. rewrite Hsent. auto.
Qed.

(** C9 at a turn with no streamed token and the answer ["Paris."]. *)
Lemma C9_final_text_witness :
  exists new content action tail,
    sent (fst (chat_turn JsonFragment.parse (Some []) (VStr "Capital of France?")
                 ([CbToolStart "geocode"] ++ [agent_end (VStr "Paris.")])
                 false open_socket))
      = sent open_socket ++ Thinking (Some "Thinking...") :: new
          ++ StreamEnd content action :: tail
    /\ count is_stream_end new = 0
    /\ count is_stream_end tail = 0
    /\ (existsb is_stream new = false ->
        content = if truthy (VStr "Paris.") then VStr "Paris." else VStr "")
    /\ (existsb is_stream new = true -> content = VStr (streamed_text new)).
Proof.
  apply (C9_final_text JsonFragment.parse [] (VStr "Capital of France?")
           [CbToolStart "geocode"] (VStr "Paris.") open_socket
           {| fullResponse := VStr ""; mapAction := VNull;
              toolsUsed := ["geocode"]; streamStarted := false;
              ws := {| readyState_OPEN := true;
                       sent := [Thinking (Some "Thinking...");
                                Thinking (Some "Using geocode...")] |} |});
    reflexivity.
Defined.

(** ** C10: the tool-schema translation *)



(** * Further properties *)

(** ** Chunk text extraction *)

(** X1.  Edges of [extractTextFromChunk]: a falsy chunk gives the empty
    text; a truthy chunk that is not an object throws; an object none of
    whose probed fields ([content], [text], [kwargs], [lc_kwargs],
    [message]) is present gives the empty text. *)
Theorem X1_extract_edges (chunk : value) :
  (truthy chunk = false -> extractTextFromChunk chunk = Ok (VStr ""))
  /\ (truthy chunk = true -> is_object chunk = false ->
      extractTextFromChunk chunk = Throw)
  /\ (is_object chunk = true ->
      get chunk "content" = VUndefined -> get chunk "text" = VUndefined ->
      get chunk "kwargs" = VUndefined -> get chunk "lc_kwargs" = VUndefined ->
      get chunk "message" = VUndefined ->
      extractTextFromChunk chunk = Ok (VStr "")).
Proof.
  unfold extractTextFromChunk. split; [| split].
  - now intros ->.
  - now intros -> ->.
  - intros Hobj Hc Ht Hk Hl Hm.
    assert (Htruthy : truthy chunk = true) by (destruct chunk; easy).
    rewrite Htruthy, Hobj. cbn [negb first_probe].
    unfold probe_content, probe_content_parts, probe_text, probe_kwargs,
      probe_lc_kwargs, probe_message.
    now rewrite Hc, Ht, Hk, Hl, Hm.
Qed.

Lemma X1_extract_edges_witness :
  extractTextFromChunk VNull = Ok (VStr "")
  /\ extractTextFromChunk (VStr "token") = Throw
  /\ extractTextFromChunk (VObj [("id", VStr "run-1")]) = Ok (VStr "").
Proof.
  split; [| split].
  - apply (proj1 (X1_extract_edges VNull)). reflexivity.
  - apply (proj1 (proj2 (X1_extract_edges (VStr "token")))); reflexivity.
  - apply (proj2 (proj2 (X1_extract_edges (VObj [("id", VStr "run-1")]))));
      reflexivity.
Defined.

(** X2.  The probes are tried in order and the first hit wins: a
    non-empty string [content] is the result whatever else the chunk
    holds; failing any usable [content], a truthy top-level [text] is the
    result whatever [kwargs], [lc_kwargs] and [message] hold. *)
Theorem X2_extract_priority (chunk : value) :
  is_object chunk = true ->
  (forall s, get chunk "content" = VStr s -> s <> "" ->
             extractTextFromChunk chunk = Ok (VStr s))
  /\ (get chunk "content" = VUndefined \/ get chunk "content" = VStr "" ->
      truthy (get chunk "text") = true ->
      extractTextFromChunk chunk = Ok (get chunk "text")).
Proof.
  intros Hobj.
  assert (Htruthy : truthy chunk = true) by (destruct chunk; easy).
  unfold extractTextFromChunk. rewrite Htruthy, Hobj. cbn [negb first_probe].
  split.
  - intros s Hc Hs. unfold probe_content. rewrite Hc. simpl.
    apply String.eqb_neq in Hs. now rewrite Hs.
  - intros Hc Ht. unfold probe_content, probe_content_parts, probe_text.
    destruct Hc as [-> | ->]; simpl; now rewrite Ht.
Qed.

Lemma X2_extract_priority_witness :
  extractTextFromChunk
    (VObj [("text", VStr "other"); ("content", VStr "Hi");
           ("kwargs", VObj [("content", VStr "older")])]) = Ok (VStr "Hi")
  /\ extractTextFromChunk
       (VObj [("content", VStr ""); ("text", VStr "Hi");
              ("message", VObj [("content", VStr "older")])]) = Ok (VStr "Hi").
Proof.
  split.
  - apply (proj1 (X2_extract_priority
                    (VObj [("text", VStr "other"); ("content", VStr "Hi");
                           ("kwargs", VObj [("content", VStr "older")])])
                    eq_refl) "Hi"); [reflexivity | discriminate].
  - apply (proj2 (X2_extract_priority
                    (VObj [("content", VStr ""); ("text", VStr "Hi");
                           ("message", VObj [("content", VStr "older")])])
                    eq_refl)); [now right | reflexivity].
Defined.

(** X3.  What the extraction can return on an object: the chunk's
    [text] field, or a string.  A falsy result is the empty string, so the
    handler's test [if (text && ...)] skips the empty text and nothing
    else. *)
Theorem X3_extract_result_kind (chunk v : value) :
  is_object chunk = true ->
  extractTextFromChunk chunk = Ok v ->
  (v = get chunk "text" \/ exists s, v = VStr s)
  /\ (truthy v = false -> v = VStr "").
Proof.
  intros Hobj.
  assert (Htruthy : truthy chunk = true) by (destruct chunk; easy).
  unfold extractTextFromChunk. rewrite Htruthy, Hobj. cbn [negb].
  clear Htruthy Hobj. revert v.
  set (good := fun v : value =>
         (v = get chunk "text" \/ exists s, v = VStr s)
         /\ (truthy v = false -> v = VStr "")).
  assert (Hstr : forall s, good (VStr s)).
  { intros s. split; [right; eauto |]. simpl. destruct s; [reflexivity | discriminate]. }
  assert (Hfirst : forall probes,
            Forall (fun p => forall r, p chunk = Ok (Some r) -> good r) probes ->
            forall v, first_probe probes chunk = Ok v -> good v).
  { induction 1 as [|p probes Hp _ IH]; simpl; intros v.
    - intros [= <-]. apply Hstr.
    - destruct (p chunk) as [[r|]|] eqn:E; [| apply IH | discriminate].
      intros [= <-]. now apply Hp. }
  apply (Hfirst [probe_content; probe_content_parts; probe_text;
                 probe_kwargs; probe_lc_kwargs; probe_message]).
  repeat (apply List.Forall_cons; [intros r |]); [.. | apply List.Forall_nil].
  - unfold probe_content. destruct (get chunk "content"); try discriminate.
    simpl. destruct (negb _); [intros [= E]; subst r; apply Hstr | discriminate].
  - unfold probe_content_parts.
    destruct (get chunk "content") as [| | | | |[|p ps]|]; try discriminate.
    destruct (join_checked _ _); [| discriminate].
    destruct (truthy _); [intros [= E]; subst r; apply Hstr | discriminate].
  - unfold probe_text. destruct (truthy (get chunk "text")) eqn:Ht;
      [intros [= E]; subst r | discriminate].
    split; [now left | congruence].
  - unfold probe_kwargs. destruct (truthy _); [| discriminate].
    destruct (get_opt _ _) as [| | | | |[|q qs]|]; try discriminate;
      [intros [= E]; subst r; apply Hstr |].
    destruct (join_checked _ _); [| discriminate].
    intros [= E]; subst r; apply Hstr.
  - unfold probe_lc_kwargs.
    destruct (get_opt _ _); simpl; rewrite ?andb_false_r; try discriminate.
    destruct (negb _); [intros [= E]; subst r; apply Hstr | discriminate].
  - unfold probe_message.
    destruct (get_opt _ _); simpl; rewrite ?andb_false_r; try discriminate.
    destruct (negb _); [intros [= E]; subst r; apply Hstr | discriminate].
Qed.

Lemma X3_extract_result_kind_witness :
  (VNum "7" = get (VObj [("text", VNum "7")]) "text" \/ exists s, VNum "7" = VStr s)
  /\ (truthy (VNum "7") = false -> VNum "7" = VStr "").
Proof.
  apply (X3_extract_result_kind (VObj [("text", VNum "7")]) (VNum "7"));
    reflexivity.
Defined.

(** ** The messages of a turn *)

Lemma last_action_app (a b : list outbound) :
  last_action (a ++ b) =
  fold_left (fun x m => match m with MapAction action => action | _ => x end)
    b (last_action a).
Proof. unfold last_action. now rewrite fold_left_app. Qed.

Lemma last_action_other (a b : list outbound) :
  count is_map_action b = 0 -> last_action (a ++ b) = last_action a.
Proof.
  rewrite last_action_app. generalize (last_action a).
  induction b as [|m b IH]; intros x H; [reflexivity |].
  destruct m; try discriminate; simpl; apply IH; exact H.
Qed.

Lemma step_message_kinds (out : list outbound) :
  forallb is_step_message out = true ->
  count is_stream_end out = 0 /\ count is_error out = 0
  /\ count is_response out = 0 /\ after_stream_end out = [].
Proof.
  induction out as [|m out IH]; [easy |].
  simpl. intros H. apply andb_true_iff in H as [Hm H].
  destruct (IH H) as (H1 & H2 & H3 & H4).
  destruct m; try discriminate; unfold count in *; simpl; auto.
Qed.

Lemma after_stream_end_app (a b : list outbound) :
  forallb is_step_message a = true ->
  after_stream_end (a ++ b) = after_stream_end b.
Proof.
  induction a as [|m a IH]; [reflexivity |].
  simpl. intros H. apply andb_true_iff in H as [Hm H].
  destruct m; try discriminate; simpl; now apply IH.
Qed.

Section TurnMessages.

Variable JSON_parse : string -> option value.

Lemma reporting_send (base : list outbound) (st : turn_state) (m : outbound) :
  reporting base st ->
  is_step_message m = true -> is_map_action m = false ->
  reporting base (send m st).
Proof.
  intros (Hopen & new & Hs & Ha & Hk) Hm Hna.
  split; [simpl; now rewrite wsSend_readyState |].
  exists (new ++ [m]). simpl.
  rewrite sent_wsSend_open, Hs, app_assoc by assumption.
  unfold sent_or_unlogged in *.
  rewrite last_action_other, forallb_app, Hk by (unfold count; simpl; now rewrite Hna).
  simpl. now rewrite Hm.
Qed.

Lemma reporting_capture (base : list outbound) (st : turn_state) (action : value) :
  reporting base st -> reporting base (capture action st).
Proof.
  intros (Hopen & new & Hs & Ha & Hk). unfold capture.
  destruct (printable (get action "type")) eqn:Hp.
  - split; [simpl; now rewrite wsSend_readyState |].
    exists (new ++ [MapAction action]). simpl.
    rewrite sent_wsSend_open, Hs, app_assoc by assumption.
    unfold sent_or_unlogged. rewrite last_action_app, forallb_app, Hk. auto.
  - split; [exact Hopen |]. exists new. cbn [set_mapAction mapAction ws].
    split; [exact Hs |]. split; [now right | exact Hk].
Qed.

Lemma reporting_drive (base : list outbound) (feed : list feed_item)
    (st : turn_state) :
  stays_open feed = true ->
  reporting base st ->
  reporting base (state_of (drive JSON_parse feed st)).
Proof.
  intros Hfeed. apply drive_preserves with (allowed := fun i => negb (is_closed i)).
  - intros st' text H. now apply reporting_send.
  - intros st' a H. now apply reporting_capture.
  - intros st' n H. exact H.
  - intros st' x H _.
    assert (Hs : reporting base (start_stream st')).
    { unfold start_stream. destruct (streamStarted st'); [exact H |].
      apply (reporting_send base (set_streamStarted st') (Thinking None));
        [exact H | reflexivity ..]. }
    unfold forward. destruct (_ && _); cbn [state_of]; [| exact Hs].
    now apply (reporting_send base (append_response x (start_stream st'))).
  - intros e st' _ H. unfold on_chain_end.
    destruct (_ && _); [| exact H]. destruct (_ && _); exact H.
  - intros st' Hc. discriminate.
  - exact Hfeed.
Qed.

(** The messages of a whole turn on a socket that stays open, with the
    action and the text of the final message. *)
Lemma chat_block_end (history : option (list chat_message)) (userMessage : value)
    (feed : list feed_item) (agent_raises : bool) (s : socket) :
  readyState_OPEN s = true ->
  stays_open feed = true ->
  exists new tail,
    sent (fst (chat_block JSON_parse history userMessage feed agent_raises s)) =
      sent s ++ Thinking (Some "Thinking...") :: new ++ tail ++ [Thinking None]
    /\ forallb is_step_message new = true
    /\ (tail = [Error error_text]
        \/ (exists content action b,
              tail = [StreamEnd content action]
              /\ sent_or_unlogged new action
              /\ trim_is_truthy content = Ok b)
        \/ (exists content action,
              tail = [StreamEnd content action; Error error_text]
              /\ sent_or_unlogged new action)).
Proof.
  intros Hopen Hfeed. unfold chat_block, try_block.
  set (s0 := wsSend s (Thinking (Some "Thinking..."))).
  assert (Hs0 : readyState_OPEN s0 = true)
    by (unfold s0; now rewrite wsSend_readyState).
  assert (Hsent0 : sent s0 = sent s ++ [Thinking (Some "Thinking...")])
    by (unfold s0; now rewrite sent_wsSend_open).
  assert (Hinit : reporting (sent s ++ [Thinking (Some "Thinking...")])
                    (initial_state s0)).
  { split; [exact Hs0 |]. exists []. simpl. rewrite Hsent0, app_nil_r.
    split; [reflexivity |]. split; [now left | reflexivity]. }
  destruct history as [h|].
  - pose proof (reporting_drive _ feed _ Hfeed Hinit) as (Ho & new & Hs & Ha & Hk).
    assert (Hbase : forall tail,
      sent (ws (state_of (drive JSON_parse feed (initial_state s0)))) ++ tail ++ [Thinking None]
      = sent s ++ Thinking (Some "Thinking...") :: new ++ tail ++ [Thinking None]).
    { intros tail. rewrite Hs, <- !app_assoc. reflexivity. }
    destruct (drive JSON_parse feed (initial_state s0)) as [st|st]; cbn [state_of] in *.
    + destruct agent_raises.
      * exists new, [Error error_text]. cbn [fst].
        rewrite !sent_wsSend_open by (rewrite ?wsSend_readyState; assumption).
        rewrite <- Hbase, <- !app_assoc. auto.
      * unfold update_history.
        destruct (trim_is_truthy userMessage) as [pu|];
          [destruct (trim_is_truthy (fullResponse st)) as [pa|] eqn:Hr |].
        -- exists new, [StreamEnd (fullResponse st) (mapAction st)]. cbn [fst].
           rewrite !sent_wsSend_open by (rewrite ?wsSend_readyState; assumption).
           rewrite <- Hbase, <- !app_assoc.
           split; [reflexivity |]. split; [exact Hk |]. right. left. eauto 8.
        -- exists new, [StreamEnd (fullResponse st) (mapAction st); Error error_text].
           cbn [fst].
           rewrite !sent_wsSend_open by (rewrite ?wsSend_readyState; assumption).
           rewrite <- Hbase, <- !app_assoc.
           split; [reflexivity |]. split; [exact Hk |]. right. right. eauto 8.
        -- exists new, [StreamEnd (fullResponse st) (mapAction st); Error error_text].
           cbn [fst].
           rewrite !sent_wsSend_open by (rewrite ?wsSend_readyState; assumption).
           rewrite <- Hbase, <- !app_assoc.
           split; [reflexivity |]. split; [exact Hk |]. right. right. eauto 8.
    + exists new, [Error error_text]. cbn [fst].
      rewrite !sent_wsSend_open by (rewrite ?wsSend_readyState; assumption).
      rewrite <- Hbase, <- !app_assoc. auto.
  - exists [], [Error error_text]. cbn [fst].
    rewrite !sent_wsSend_open by (rewrite ?wsSend_readyState; assumption).
    rewrite Hsent0, <- !app_assoc. auto.
Qed.

End TurnMessages.

Section TurnProperties.

Variable JSON_parse : string -> option value.

Lemma appending_send (s : socket) (st : turn_state) (m : outbound) :
  appending s st -> is_step_message m = true -> appending s (send m st).
Proof.
  intros (Hre & new & Hs & Hk & Hc) Hm. unfold appending. simpl.
  rewrite wsSend_readyState. split; [exact Hre |].
  destruct (readyState_OPEN (ws st)) eqn:Hopen.
  - exists (new ++ [m]). rewrite sent_wsSend_open, Hs, app_assoc by assumption.
    rewrite forallb_app, Hk. simpl. rewrite Hm.
    repeat split. intros Hclosed. rewrite Hre in Hclosed; [discriminate | reflexivity].
  - exists new. now rewrite wsSend_closed.
Qed.

Lemma appending_drive (s : socket) (feed : list feed_item) (st : turn_state) :
  appending s st -> appending s (state_of (drive JSON_parse feed st)).
Proof.
  apply drive_preserves with (allowed := fun _ => true).
  - intros st' text H. now apply appending_send.
  - intros st' a H. unfold capture. destruct (printable _); [| exact H].
    now apply (appending_send s (set_mapAction a st')).
  - intros st' n H. exact H.
  - intros st' x H _.
    assert (Hs : appending s (start_stream st')).
    { unfold start_stream. destruct (streamStarted st'); [exact H |].
      now apply (appending_send s (set_streamStarted st') (Thinking None)). }
    unfold forward. destruct (_ && _); cbn [state_of]; [| exact Hs].
    now apply (appending_send s (append_response x (start_stream st'))).
  - intros e st' _ H. unfold on_chain_end.
    destruct (_ && _); [| exact H]. destruct (_ && _); exact H.
  - intros st' _ (Hre & new & Hs & Hk & Hc). split; [discriminate |].
    exists new. auto.
  - now apply forallb_forall.
Qed.

(** What a whole turn does to a socket in any state: it appends, it
    never sends the greeting, it never reopens the socket, and it sends
    nothing on a closed one. *)
Lemma chat_turn_adds (history : option (list chat_message))
    (userMessage : value) (feed : list feed_item) (agent_raises : bool)
    (s : socket) :
  (readyState_OPEN
     (fst (chat_turn JSON_parse history userMessage feed agent_raises s)) = true ->
   readyState_OPEN s = true)
  /\ (exists new,
        sent (fst (chat_turn JSON_parse history userMessage feed agent_raises s))
          = sent s ++ new
        /\ count is_response new = 0
        /\ (readyState_OPEN s = false -> new = [])).
Proof.
  unfold chat_turn. destruct (printable userMessage).
  2:{ cbn [fst]. split; [auto |]. exists []. now rewrite app_nil_r. }
  set (s0 := wsSend s (Thinking (Some "Thinking..."))).
  assert (Hinit : appending s (initial_state s0)).
  { unfold appending, s0. simpl. rewrite wsSend_readyState. split; [auto |].
    destruct (readyState_OPEN s) eqn:Hopen.
    - exists [Thinking (Some "Thinking...")]. rewrite sent_wsSend_open by assumption.
      repeat split. discriminate.
    - exists []. rewrite wsSend_closed, app_nil_r by assumption. auto. }
  assert (Hend : forall s1 : socket,
            (readyState_OPEN s1 = true -> readyState_OPEN s = true)
            /\ (exists new, sent s1 = sent s ++ new
                            /\ count is_response new = 0
                            /\ (readyState_OPEN s = false -> new = [])) ->
            forall m, is_response m = false ->
              (readyState_OPEN (wsSend s1 m) = true -> readyState_OPEN s = true)
              /\ (exists new, sent (wsSend s1 m) = sent s ++ new
                              /\ count is_response new = 0
                              /\ (readyState_OPEN s = false -> new = []))).
  { intros s1 (Hre & new & Hs & Hr & Hc) m Hm. rewrite wsSend_readyState.
    split; [exact Hre |].
    destruct (readyState_OPEN s1) eqn:Hopen.
    - exists (new ++ [m]). rewrite sent_wsSend_open, Hs, app_assoc by assumption.
      rewrite count_app, Hr. unfold count. simpl. rewrite Hm.
      repeat split. intros Hclosed.
      rewrite Hre in Hclosed; [discriminate | reflexivity].
    - exists new. now rewrite wsSend_closed. }
  assert (Hpack : forall st, appending s st ->
            (readyState_OPEN (ws st) = true -> readyState_OPEN s = true)
            /\ (exists new, sent (ws st) = sent s ++ new
                            /\ count is_response new = 0
                            /\ (readyState_OPEN s = false -> new = []))).
  { intros st (Hre & new & Hs & Hk & Hc). split; [exact Hre |].
    exists new. split; [exact Hs |]. split; [| exact Hc].
    now destruct (step_message_kinds new Hk) as (_ & _ & Hr & _). }
  unfold chat_block, try_block. fold s0.
  destruct history as [h|].
  - pose proof (Hpack _ (appending_drive s feed _ Hinit)) as H1.
    destruct (drive JSON_parse feed (initial_state s0)) as [st|st];
      cbn [state_of] in H1.
    + destruct agent_raises.
      * cbn [fst]. apply Hend; [apply Hend; [exact H1 |] |]; reflexivity.
      * destruct (update_history userMessage (fullResponse st) h); cbn [fst].
        -- apply Hend; [apply Hend; [exact H1 |] |]; reflexivity.
        -- apply Hend; [apply Hend; [apply Hend; [exact H1 |] |] |]; reflexivity.
    + cbn [fst]. apply Hend; [apply Hend; [exact H1 |] |]; reflexivity.
  - cbn [fst]. apply Hend; [apply Hend; [exact (Hpack _ Hinit) |] |]; reflexivity.
Qed.

End TurnProperties.

(** X4.  A turn only adds to what the socket was sent: whatever the
    feed, the path and the state of the socket, the earlier messages are
    still there in their order, the new ones being appended; the turn never
    reopens the socket; and on a socket that is closed when the message
    arrives the whole turn sends nothing. *)
Theorem X4_turn_appends (JSON_parse : string -> option value)
    (history : option (list chat_message))
    (userMessage : value) (feed : list feed_item) (agent_raises : bool)
    (s : socket) :
  let s' := fst (chat_turn JSON_parse history userMessage feed agent_raises s) in
  (exists out, sent s' = sent s ++ out)
  /\ (readyState_OPEN s' = true -> readyState_OPEN s = true)
  /\ (readyState_OPEN s = false -> s' = s).
Proof.
  destruct (chat_turn_adds JSON_parse history userMessage feed agent_raises s)
    as (Hre & new & Hs & _ & Hc).
  cbv zeta. split; [eauto |]. split; [exact Hre |].
  intros Hclosed.
  destruct (fst (chat_turn JSON_parse history userMessage feed agent_raises s))
    as [o l] eqn:E.
  destruct s as [o0 l0]. simpl in *. subst o0.
  rewrite (Hc eq_refl), app_nil_r in Hs. subst l.
  destruct o; [| reflexivity]. now specialize (Hre eq_refl).
Qed.

Lemma X4_turn_appends_witness :
  fst (chat_turn JsonFragment.parse (Some []) (VStr "Hello")
         [CbLLMNewToken "Hi"] false
         {| readyState_OPEN := false; sent := [Response] |})
  = {| readyState_OPEN := false; sent := [Response] |}.
Proof.
  apply (X4_turn_appends JsonFragment.parse (Some []) (VStr "Hello")
           [CbLLMNewToken "Hi"] false
           {| readyState_OPEN := false; sent := [Response] |}).
  reflexivity.
Defined.

(** X5.  The order of a turn's messages on a socket that stays open, for
    a request whose content the handler can log (any other is dropped
    before anything is sent).  The first is the "Thinking..." status.  At
    most one [stream_end] and at most one [error] are sent, and at least
    one of the two: the client is always told how the turn ended.  Nothing
    streamed and no map action follows the [stream_end]. *)
Theorem X5_turn_order (JSON_parse : string -> option value)
    (history : option (list chat_message)) (userMessage : value)
    (feed : list feed_item) (agent_raises : bool) (s : socket) :
  printable userMessage = true ->
  readyState_OPEN s = true ->
  stays_open feed = true ->
  exists out,
    sent (fst (chat_turn JSON_parse history userMessage feed agent_raises s))
      = sent s ++ out
    /\ head out = Some (Thinking (Some "Thinking..."))
    /\ count is_stream_end out <= 1
    /\ count is_error out <= 1
    /\ 1 <= count is_stream_end out + count is_error out
    /\ forallb (fun m => negb (is_stream m) && negb (is_map_action m))
         (after_stream_end out) = true.
Proof.
  intros Hprintable Hopen Hfeed.
  rewrite chat_turn_printable by exact Hprintable.
  destruct (chat_block_end JSON_parse history userMessage feed agent_raises s Hopen Hfeed)
    as (new & tail & Hsent & Hk & Htail).
  destruct (step_message_kinds new Hk) as (Hse & He & _ & _).
  exists (Thinking (Some "Thinking...") :: new ++ tail ++ [Thinking None]).
  split; [exact Hsent |]. split; [reflexivity |].
  change (Thinking (Some "Thinking...") :: new ++ tail ++ [Thinking None])
    with ((Thinking (Some "Thinking...") :: new) ++ tail ++ [Thinking None]).
  assert (Hk' : forallb is_step_message (Thinking (Some "Thinking...") :: new) = true)
    by exact Hk.
  rewrite after_stream_end_app by exact Hk'.
  rewrite !count_app.
  change (count is_stream_end (Thinking (Some "Thinking...") :: new))
    with (count is_stream_end new).
  change (count is_error (Thinking (Some "Thinking...") :: new))
    with (count is_error new).
  rewrite Hse, He.
  destruct Htail as [-> | [(c & a & b & -> & _) | (c & a & -> & _)]];
    unfold count; simpl; repeat split; lia.
Qed.

Lemma X5_turn_order_witness :
  exists out,
    sent (fst (chat_turn JsonFragment.parse (Some []) (VStr "Hello")
                 [CbLLMNewToken "Hi"] false open_socket))
      = sent open_socket ++ out
    /\ head out = Some (Thinking (Some "Thinking..."))
    /\ count is_stream_end out <= 1
    /\ count is_error out <= 1
    /\ 1 <= count is_stream_end out + count is_error out
    /\ forallb (fun m => negb (is_stream m) && negb (is_map_action m))
         (after_stream_end out) = true.
Proof.
  apply (X5_turn_order JsonFragment.parse (Some []) (VStr "Hello")
           [CbLLMNewToken "Hi"] false open_socket); reflexivity.
Defined.

(** X6.  On a socket that stays open, the action carried by the
    [stream_end] message is the action of the last [map_action] message of
    the turn, and null when the turn sent none, with one exception: an
    action whose [type] cannot be converted to a string is captured but
    not sent, the log line between the two throwing, and the final message
    may carry it.  So the final message never names an action with a
    printable type that the client was not already sent. *)
Theorem X6_final_action_was_sent (JSON_parse : string -> option value)
    (history : option (list chat_message)) (userMessage : value)
    (feed : list feed_item) (agent_raises : bool) (s : socket) :
  readyState_OPEN s = true ->
  stays_open feed = true ->
  exists out,
    sent (fst (chat_turn JSON_parse history userMessage feed agent_raises s))
      = sent s ++ out
    /\ forall content action,
         In (StreamEnd content action) out ->
         action = last_action out \/ printable (get action "type") = false.
Proof.
  intros Hopen Hfeed. unfold chat_turn.
  destruct (printable userMessage).
  2:{ exists []. cbn [fst]. rewrite app_nil_r. split; [reflexivity |].
      intros content action []. }
  destruct (chat_block_end JSON_parse history userMessage feed agent_raises s Hopen Hfeed)
    as (new & tail & Hsent & Hk & Htail).
  exists (Thinking (Some "Thinking...") :: new ++ tail ++ [Thinking None]).
  split; [exact Hsent |]. intros content action Hin.
  assert (Hlast : count is_map_action (tail ++ [Thinking None]) = 0 ->
                  last_action (Thinking (Some "Thinking...") :: new ++ tail ++ [Thinking None])
                  = last_action new).
  { intros H0.
    change (Thinking (Some "Thinking...") :: new ++ tail ++ [Thinking None])
      with (([Thinking (Some "Thinking...")] ++ new) ++ tail ++ [Thinking None]).
    rewrite last_action_other by exact H0.
    now rewrite last_action_app. }
  assert (Hnew : ~ In (StreamEnd content action) new).
  { intros Hn. rewrite forallb_forall in Hk. now specialize (Hk _ Hn). }
  destruct Hin as [Hin | Hin]; [discriminate |].
  apply in_app_or in Hin as [Hin | Hin]; [contradiction |].
  destruct Htail as [-> | [(c & a & b & -> & Ha & _) | (c & a & -> & Ha)]];
    rewrite Hlast by reflexivity; simpl in Hin;
    repeat (destruct Hin as [Hin | Hin]; try discriminate; try contradiction);
    injection Hin as <- <-; exact Ha.
Qed.

(** X6 at a turn whose two tool results both carry an action. *)
Lemma X6_final_action_was_sent_witness :
  exists out,
    sent (fst (chat_turn JsonFragment.parse (Some []) (VStr "Cafes")
                 [CbToolEnd (VStr markers_output); CbToolEnd (VStr route_output)]
                 false open_socket))
      = sent open_socket ++ out
    /\ forall content action,
         In (StreamEnd content action) out ->
         action = last_action out \/ printable (get action "type") = false.
Proof.
  apply (X6_final_action_was_sent JsonFragment.parse (Some []) (VStr "Cafes")
           [CbToolEnd (VStr markers_output); CbToolEnd (VStr route_output)]
           false open_socket); reflexivity.
Defined.

(** X7.  A tool start reported by both channels is announced once: after
    the callback has announced a tool, the event-log report of the same
    tool sends nothing and changes nothing.  More generally an event-log
    report is dropped whenever the tool's name is among the tools already
    used in the turn, a second use of the same tool included. *)
Theorem X7_tool_start_once (JSON_parse : string -> option value)
    (toolName : string) (st : turn_state) :
  drive JSON_parse [CbToolStart toolName; tool_start_event toolName] st
    = Done (handleToolStart toolName st)
  /\ (In toolName (toolsUsed st) ->
      drive JSON_parse [tool_start_event toolName] st = Done st).
Proof.
  assert (Hdrop : forall st', In toolName (toolsUsed st') ->
            step JSON_parse (tool_start_event toolName) st' = Done st').
  { intros st' Hin. unfold step, tool_start_event, handle_event.
    unfold on_tool_start, on_tool_end, on_chat_model_stream, on_chain_end. simpl.
    assert (Hex : existsb (String.eqb toolName) (toolsUsed st') = true).
    { apply existsb_exists. exists toolName. split; [exact Hin | apply String.eqb_refl]. }
    now rewrite Hex. }
  split.
  - cbn [drive step]. rewrite Hdrop; [reflexivity |].
    simpl. apply in_or_app. right. now left.
  - intros Hin. cbn [drive]. now rewrite Hdrop.
Qed.

Lemma X7_tool_start_once_witness :
  drive JsonFragment.parse [tool_start_event "geocode"]
    (handleToolStart "geocode" (initial_state open_socket))
  = Done (handleToolStart "geocode" (initial_state open_socket)).
Proof.
  apply (proj2 (X7_tool_start_once JsonFragment.parse "geocode"
                  (handleToolStart "geocode" (initial_state open_socket)))).
  simpl. now left.
Defined.

(** ** The server *)

Lemma chat_dispatch {A : Type} (v : value) (a b : A) :
  match v with VStr "chat" => a | _ => b end
  = match v with VStr t => if String.eqb t "chat" then a else b | _ => b end.
Proof.
  destruct v as [| | | |t| |]; try reflexivity.
  repeat (destruct t as [|[[|] [|] [|] [|] [|] [|] [|] [|]] t]; try reflexivity).
Qed.

Section ServerFacts.

Variable JSON_parse : string -> option value.

Lemma on_message_other (c : nat) (payload : string) (feed : list feed_item)
    (agent_raises : bool) (srv : server) :
  is_chat_request JSON_parse payload = false ->
  on_message JSON_parse c payload feed agent_raises srv = srv.
Proof.
  unfold is_chat_request, on_message. intros H.
  destruct (connections srv !! c); [| reflexivity].
  destruct (JSON_parse payload) as [message|]; [| reflexivity].
  destruct (get_strict message "type") as [t|]; [| reflexivity].
  destruct t as [| | | |t| |]; try reflexivity.
  repeat (destruct t as [|[[|] [|] [|] [|] [|] [|] [|] [|]] t];
          try reflexivity; try discriminate).
Qed.

Lemma is_chat_request_true (payload : string) :
  is_chat_request JSON_parse payload = true ->
  exists message,
    JSON_parse payload = Some message
    /\ get_strict message "type" = Ok (VStr "chat").
Proof.
  unfold is_chat_request.
  destruct (JSON_parse payload) as [message|]; [| discriminate].
  destruct (get_strict message "type") as [[| | | |t| |]|] eqn:Ht;
    try discriminate.
  intros H. apply String.eqb_eq in H. subst t. eauto.
Qed.

(** The effect of a chat request on the server. *)
Lemma on_message_chat (c : nat) (payload : string) (feed : list feed_item)
    (agent_raises : bool) (srv : server) (conn : connection) (message : value) :
  connections srv !! c = Some conn ->
  JSON_parse payload = Some message ->
  get_strict message "type" = Ok (VStr "chat") ->
  printable (get message "content") = true ->
  on_message JSON_parse c payload feed agent_raises srv =
  let r := chat_turn JSON_parse (history_of srv (sessionId conn))
             (get message "content") feed agent_raises (conn_ws conn) in
  {| sessions :=
       if readyState_OPEN (conn_ws conn) && negb (readyState_OPEN (fst r))
       then delete (sessionId conn) (sessions srv)
       else sessions srv;
     heap :=
       match sessions srv !! sessionId conn, snd r with
       | Some loc, Some h => alter (set_chatHistory h) loc (heap srv)
       | _, _ => heap srv
       end;
     connections :=
       <[c := {| sessionId := sessionId conn; conn_ws := fst r |}]>
         (connections srv) |}.
Proof.
  intros Hconn Hparse Htype Hprintable. unfold on_message.
  now rewrite Hconn, Hparse, Htype, Hprintable.
Qed.

(** A chat request whose content cannot be logged changes nothing. *)
Lemma on_message_unprintable (c : nat) (payload : string) (feed : list feed_item)
    (agent_raises : bool) (srv : server) (message : value) :
  JSON_parse payload = Some message ->
  printable (get message "content") = false ->
  on_message JSON_parse c payload feed agent_raises srv = srv.
Proof.
  intros Hparse Hprintable. unfold on_message.
  destruct (connections srv !! c); [| reflexivity].
  rewrite Hparse.
  destruct (get_strict message "type") as [t|]; [| reflexivity].
  rewrite chat_dispatch. destruct t; try reflexivity.
  destruct (String.eqb _ _); [| reflexivity].
  now rewrite Hprintable.
Qed.

(** Either the message changes nothing, or it is a chat request, with a
    content that can be logged, on a connection the server knows. *)
Lemma on_message_cases (c : nat) (payload : string) (feed : list feed_item)
    (agent_raises : bool) (srv : server) :
  on_message JSON_parse c payload feed agent_raises srv = srv
  \/ exists conn message,
       connections srv !! c = Some conn
       /\ JSON_parse payload = Some message
       /\ get_strict message "type" = Ok (VStr "chat")
       /\ printable (get message "content") = true.
Proof.
  destruct (is_chat_request JSON_parse payload) eqn:E.
  - destruct (connections srv !! c) as [conn|] eqn:Hc.
    + destruct (is_chat_request_true payload E) as (message & Hp & Ht).
      destruct (printable (get message "content")) eqn:Hpr.
      * right. eauto 6.
      * left. now apply (on_message_unprintable c payload feed agent_raises srv message).
    + left. unfold on_message. now rewrite Hc.
  - left. now apply on_message_other.
Qed.

Lemma heap_length_on_message (c : nat) (payload : string) (feed : list feed_item)
    (agent_raises : bool) (srv : server) :
  length (heap (on_message JSON_parse c payload feed agent_raises srv))
  = length (heap srv).
Proof.
  destruct (on_message_cases c payload feed agent_raises srv)
    as [-> | (conn & message & Hc & Hp & Ht & Hpr)]; [reflexivity |].
  rewrite (on_message_chat _ _ _ _ _ _ _ Hc Hp Ht Hpr). cbv zeta. cbn [heap].
  destruct (sessions srv !! sessionId conn); [| reflexivity].
  destruct (snd _); [apply length_alter | reflexivity].
Qed.

(** After a message the store holds a subset of what it held. *)
Lemma sessions_on_message (c : nat) (payload : string) (feed : list feed_item)
    (agent_raises : bool) (srv : server) (id : string) (loc : nat) :
  sessions (on_message JSON_parse c payload feed agent_raises srv) !! id = Some loc ->
  sessions srv !! id = Some loc.
Proof.
  destruct (on_message_cases c payload feed agent_raises srv)
    as [-> | (conn & message & Hc & Hp & Ht & Hpr)]; [easy |].
  rewrite (on_message_chat _ _ _ _ _ _ _ Hc Hp Ht Hpr). cbv zeta. cbn [sessions].
  destruct (_ && _); [| easy].
  intros H. now apply lookup_delete_Some in H as [_ H].
Qed.

Lemma store_ok_serve (i : input) (srv : server) :
  store_ok srv -> store_ok (serve JSON_parse i srv).
Proof.
  intros Hok. destruct i as [now|c payload feed agent_raises|c]; simpl.
  - intros id loc. unfold on_connection. cbn [sessions heap].
    rewrite length_app. simpl. intros H.
    destruct (decide (new_sessionId now = id)) as [<-|Hne].
    + rewrite lookup_insert_eq in H. injection H as <-. split; [lia |].
      intros id' H'.
      destruct (decide (new_sessionId now = id')) as [E|Hne']; [now symmetry |].
      rewrite lookup_insert_ne in H' by assumption.
      apply Hok in H' as [Hlt _]. lia.
    + rewrite lookup_insert_ne in H by assumption.
      destruct (Hok _ _ H) as [Hlt Hinj]. split; [lia |].
      intros id' H'.
      destruct (decide (new_sessionId now = id')) as [E|Hne'].
      * subst id'. rewrite lookup_insert_eq in H'. injection H' as <-. lia.
      * rewrite lookup_insert_ne in H' by assumption. now apply Hinj.
  - intros id loc H. rewrite heap_length_on_message.
    apply sessions_on_message in H. destruct (Hok _ _ H) as [Hlt Hinj].
    split; [exact Hlt |]. intros id' H'.
    apply sessions_on_message in H'. now apply Hinj.
  - unfold on_close. destruct (connections srv !! c) as [conn|]; [| exact Hok].
    intros id loc. cbn [sessions heap]. intros H.
    apply lookup_delete_Some in H as [_ H]. destruct (Hok _ _ H) as [Hlt Hinj].
    split; [exact Hlt |]. intros id' H'.
    apply lookup_delete_Some in H' as [_ H']. now apply Hinj.
Qed.

Lemma serve_all_preserves (P : server -> Prop) :
  (forall i srv, P srv -> P (serve JSON_parse i srv)) ->
  forall inputs srv, P srv -> P (serve_all JSON_parse inputs srv).
Proof.
  intros Hstep inputs. unfold serve_all.
  induction inputs as [|i inputs IH]; intros srv H; [exact H |].
  simpl. apply IH, Hstep, H.
Qed.

Lemma store_ok_reachable (inputs : list input) :
  store_ok (serve_all JSON_parse inputs empty_server).
Proof.
  apply serve_all_preserves; [apply store_ok_serve |].
  intros id loc H. simpl in H. now rewrite lookup_empty in H.
Qed.

End ServerFacts.

Section ServerInvariants.

Variable JSON_parse : string -> option value.

Lemma leak_free_serve (i : input) (srv : server) :
  leak_free srv -> leak_free (serve JSON_parse i srv).
Proof.
  intros Hfree. destruct i as [now|c payload feed agent_raises|c]; simpl.
  - intros id loc. unfold on_connection. cbn [sessions connections]. intros H.
    destruct (decide (new_sessionId now = id)) as [<-|Hne].
    + exists (length (connections srv)). eexists. split; [| split].
      * rewrite lookup_app_r by lia. now rewrite Nat.sub_diag.
      * reflexivity.
      * reflexivity.
    + rewrite lookup_insert_ne in H by assumption.
      destruct (Hfree _ _ H) as (c & conn & Hc & Hid & Hopen).
      exists c, conn. split; [| auto].
      rewrite lookup_app_l; [exact Hc | now apply lookup_lt_Some in Hc].
  - destruct (on_message_cases JSON_parse c payload feed agent_raises srv)
      as [-> | (conn & message & Hc & Hp & Ht & Hpr)]; [exact Hfree |].
    rewrite (on_message_chat _ _ _ _ _ _ _ _ Hc Hp Ht Hpr). cbv zeta.
    set (r := chat_turn JSON_parse (history_of srv (sessionId conn))
                (get message "content") feed agent_raises (conn_ws conn)).
    intros id loc. cbn [sessions connections]. intros H.
    assert (H0 : sessions srv !! id = Some loc
                 /\ (id = sessionId conn ->
                     readyState_OPEN (conn_ws conn) = true ->
                     readyState_OPEN (fst r) = true)).
    { destruct (readyState_OPEN (conn_ws conn) && negb (readyState_OPEN (fst r)))
        eqn:Hclosed.
      - apply lookup_delete_Some in H as [Hne H]. split; [exact H |].
        intros E. now symmetry in E.
      - split; [exact H |]. intros _ Hopen. rewrite Hopen in Hclosed.
        simpl in Hclosed. now apply negb_false_iff in Hclosed. }
    destruct H0 as [H0 Hkeep].
    destruct (Hfree _ _ H0) as (c' & conn' & Hc' & Hid & Hopen).
    destruct (decide (c' = c)) as [->|Hne].
    + rewrite Hc in Hc'. injection Hc' as <-.
      exists c. eexists. split; [| split].
      * apply list_lookup_insert_eq. now apply lookup_lt_Some in Hc.
      * exact Hid.
      * simpl. apply Hkeep; [now symmetry | exact Hopen].
    + exists c', conn'. split; [| auto].
      now rewrite list_lookup_insert_ne by auto.
  - unfold on_close. destruct (connections srv !! c) as [conn|] eqn:Hc;
      [| exact Hfree].
    intros id loc. cbn [sessions connections]. intros H.
    apply lookup_delete_Some in H as [Hne H].
    destruct (Hfree _ _ H) as (c' & conn' & Hc' & Hid & Hopen).
    exists c', conn'. split; [| auto].
    rewrite list_lookup_insert_ne; [exact Hc' |].
    intros E. subst c'. rewrite Hc in Hc'. congruence.
Qed.

Lemma greeted_serve (i : input) (srv : server) :
  greeted srv -> greeted (serve JSON_parse i srv).
Proof.
  intros Hg. destruct i as [now|c payload feed agent_raises|c]; simpl.
  - intros c conn. unfold on_connection. cbn [connections]. intros H.
    apply lookup_app_Some in H as [H | [_ H]]; [now apply (Hg c) |].
    apply list_lookup_singleton_Some in H as [_ <-].
    exists []. auto.
  - destruct (on_message_cases JSON_parse c payload feed agent_raises srv)
      as [-> | (conn & message & Hc & Hp & Ht & Hpr)]; [exact Hg |].
    rewrite (on_message_chat _ _ _ _ _ _ _ _ Hc Hp Ht Hpr). cbv zeta.
    destruct (chat_turn_adds JSON_parse (history_of srv (sessionId conn))
                (get message "content") feed agent_raises (conn_ws conn))
      as (_ & new & Hn & Hrn & _).
    set (r := chat_turn JSON_parse (history_of srv (sessionId conn))
                (get message "content") feed agent_raises (conn_ws conn)) in *.
    clearbody r.
    intros c' conn'. cbn [connections]. intros H.
    destruct (decide (c' = c)) as [->|Hne].
    + rewrite list_lookup_insert_eq in H by (now apply lookup_lt_Some in Hc).
      injection H as H. subst conn'. cbn [conn_ws].
      destruct (Hg _ _ Hc) as (rest & Hs & Hr).
      exists (rest ++ new). rewrite Hn, Hs, count_app, Hr, Hrn. auto.
    + rewrite list_lookup_insert_ne in H by auto. now apply (Hg c').
  - unfold on_close. destruct (connections srv !! c) as [conn|] eqn:Hc;
      [| exact Hg].
    intros c' conn'. cbn [connections]. intros H.
    destruct (decide (c' = c)) as [->|Hne].
    + rewrite list_lookup_insert_eq in H by (now apply lookup_lt_Some in Hc).
      injection H as H. subst conn'. simpl. now apply (Hg c).
    + rewrite list_lookup_insert_ne in H by auto. now apply (Hg c').
Qed.

Lemma alter_same_history (heap0 : list session) (loc : nat) (sess : session)
    (h : list chat_message) :
  heap0 !! loc = Some sess -> chatHistory sess = h ->
  alter (set_chatHistory h) loc heap0 = heap0.
Proof.
  intros Hl Hh. apply list_eq. intros i.
  destruct (decide (i = loc)) as [->|Hne].
  - rewrite list_lookup_alter_eq, Hl. simpl. f_equal.
    destruct sess. simpl in *. now subst.
  - now rewrite list_lookup_alter_ne by auto.
Qed.

End ServerInvariants.

(** ** Properties of the server *)

(** X8.  Inbound messages that are not chat requests (a payload that
    does not parse, a parsed null, a document whose [type] is not
    ["chat"]) are dropped without any effect: removing them from what the
    event loop delivers leaves the server in the same state, sockets
    included. *)
Theorem X8_other_requests_dropped (JSON_parse : string -> option value)
    (inputs : list input) (srv : server) :
  serve_all JSON_parse inputs srv
  = serve_all JSON_parse
      (List.filter (fun i => negb (is_other_request JSON_parse i)) inputs) srv.
Proof.
  unfold serve_all. revert srv.
  induction inputs as [|i inputs IH]; intros srv; [reflexivity |].
  simpl. destruct (is_other_request JSON_parse i) eqn:E; simpl.
  - destruct i as [|c payload feed agent_raises|]; try discriminate.
    simpl in E. apply negb_true_iff in E. simpl.
    rewrite on_message_other by exact E. apply IH.
  - apply IH.
Qed.

(** X9.  What a completed turn records is what the next message on the
    connection reads: after a chat request whose turn runs to its end on
    an open socket, with user text [user] and final response [response],
    the stored history of the connection's session is the history before
    with that exchange recorded. *)
Theorem X9_turn_recorded (JSON_parse : string -> option value) (c : nat)
    (payload : string) (feed : list feed_item) (srv : server)
    (conn : connection) (message : value) (h : list chat_message)
    (user response : string) (st : turn_state) :
  connections srv !! c = Some conn ->
  readyState_OPEN (conn_ws conn) = true ->
  stays_open feed = true ->
  JSON_parse payload = Some message ->
  get_strict message "type" = Ok (VStr "chat") ->
  get message "content" = VStr user ->
  history_of srv (sessionId conn) = Some h ->
  drive JSON_parse feed
    (initial_state (wsSend (conn_ws conn) (Thinking (Some "Thinking..."))))
    = Done st ->
  fullResponse st = VStr response ->
  history_of (on_message JSON_parse c payload feed false srv) (sessionId conn)
  = Some (record_exchange h (user, response)).
Proof.
  intros Hc Hopen Hfeed Hp Ht Hu Hh Hd Hr.
  assert (Hpr : printable (get message "content") = true) by now rewrite Hu.
  rewrite (on_message_chat _ _ _ _ _ _ _ _ Hc Hp Ht Hpr). cbv zeta.
  rewrite Hh, Hu.
  rewrite (chat_turn_records_exchange JSON_parse h user response feed
             (conn_ws conn) st Hd Hr).
  destruct (chat_block_sent JSON_parse (Some h) (VStr user) feed false (conn_ws conn)
              Hopen Hfeed) as (_ & _ & _ & Hready & _).
  rewrite <- (chat_turn_printable JSON_parse (Some h) (VStr user) feed false
                (conn_ws conn) eq_refl) in Hready.
  rewrite Hopen, Hready. cbn [negb andb].
  unfold history_of in *. cbn [sessions heap].
  destruct (sessions srv !! sessionId conn) as [loc|]; [| discriminate].
  rewrite list_lookup_alter_eq.
  destruct (heap srv !! loc); [reflexivity | discriminate].
Qed.

Lemma X9_turn_recorded_witness :
  history_of
    (on_message JsonFragment.parse 0 (chat_payload "hello")
       [CbLLMNewToken "Hi"] false (on_connection 1700000000123 empty_server))
    "000123"
  = Some (record_exchange [] ("hello", "Hi")).
Proof.
  apply (X9_turn_recorded JsonFragment.parse 0 (chat_payload "hello")
           [CbLLMNewToken "Hi"] (on_connection 1700000000123 empty_server)
           {| sessionId := "000123";
              conn_ws := {| readyState_OPEN := true; sent := [Response] |} |}
           (VObj [("type", VStr "chat"); ("content", VStr "hello")])
           [] "hello" "Hi"
           {| fullResponse := VStr "Hi"; mapAction := VNull; toolsUsed := [];
              streamStarted := true;
              ws := {| readyState_OPEN := true;
                       sent := [Response; Thinking (Some "Thinking...");
                                Thinking None; Stream (VStr "Hi")] |} |});
    reflexivity.
Defined.

(** X10.  Sessions do not share state.  In every state the server can
    reach, a message on one connection leaves every other connection's
    socket as it was, and leaves the store entry and the history of every
    session with another identifier as they were. *)
Theorem X10_sessions_isolated (JSON_parse : string -> option value)
    (inputs : list input) (c : nat) (payload : string)
    (feed : list feed_item) (agent_raises : bool) (conn : connection) :
  let srv := serve_all JSON_parse inputs empty_server in
  let srv' := on_message JSON_parse c payload feed agent_raises srv in
  connections srv !! c = Some conn ->
  (forall c', c' <> c -> connections srv' !! c' = connections srv !! c')
  /\ (forall id, id <> sessionId conn ->
        sessions srv' !! id = sessions srv !! id
        /\ history_of srv' id = history_of srv id).
Proof.
  intros srv srv' Hc.
  pose proof (store_ok_reachable JSON_parse inputs) as Hok. fold srv in Hok.
  unfold srv'.
  destruct (on_message_cases JSON_parse c payload feed agent_raises srv)
    as [-> | (conn' & message & Hc' & Hp & Ht & Hpr)]; [easy |].
  rewrite Hc in Hc'. injection Hc' as <-.
  rewrite (on_message_chat _ _ _ _ _ _ _ _ Hc Hp Ht Hpr). cbv zeta.
  generalize (chat_turn JSON_parse (history_of srv (sessionId conn))
                (get message "content") feed agent_raises (conn_ws conn)).
  intros r. split.
  - intros c' Hne. cbn [connections]. now rewrite list_lookup_insert_ne by auto.
  - intros id Hne.
    assert (Hs : (if readyState_OPEN (conn_ws conn)
                     && negb (readyState_OPEN (fst r))
                  then delete (sessionId conn) (sessions srv)
                  else sessions srv) !! id = sessions srv !! id).
    { destruct (_ && _); [| reflexivity]. now rewrite lookup_delete_ne by auto. }
    split; [exact Hs |].
    unfold history_of. cbn [sessions heap]. rewrite Hs.
    destruct (sessions srv !! id) as [loc|] eqn:Hid; [| reflexivity].
    destruct (sessions srv !! sessionId conn) as [loc'|] eqn:Hid'; [| reflexivity].
    destruct (snd _); [| reflexivity].
    rewrite list_lookup_alter_ne; [reflexivity |].
    intros ->. destruct (Hok _ _ Hid) as [_ Hinj].
    apply Hne. symmetry. now apply Hinj.
Qed.

Lemma X10_sessions_isolated_witness :
  let srv := serve_all JsonFragment.parse
               [Connection 1700000000123; Connection 1700000000456] empty_server in
  let srv' := on_message JsonFragment.parse 0 (chat_payload "hello")
                [CbLLMNewToken "Hi"] false srv in
  (forall c', c' <> 0 -> connections srv' !! c' = connections srv !! c')
  /\ (forall id, id <> "000123" ->
        sessions srv' !! id = sessions srv !! id
        /\ history_of srv' id = history_of srv id).
Proof.
  apply (X10_sessions_isolated JsonFragment.parse
           [Connection 1700000000123; Connection 1700000000456] 0
           (chat_payload "hello") [CbLLMNewToken "Hi"] false
           {| sessionId := "000123";
              conn_ws := {| readyState_OPEN := true; sent := [Response] |} |}).
  reflexivity.
Defined.

(** X11.  The store does not leak sessions: in every state the server
    can reach, each identifier in the store is the identifier of a
    connection whose socket is open. *)
Theorem X11_no_session_leak (JSON_parse : string -> option value)
    (inputs : list input) :
  leak_free (serve_all JSON_parse inputs empty_server).
Proof.
  apply serve_all_preserves; [apply leak_free_serve |].
  intros id loc H. simpl in H. now rewrite lookup_empty in H.
Qed.

(** X12.  The greeting is sent once per connection and before anything
    else: in every state the server can reach, what a connection was sent
    starts with the greeting and holds no other. *)
Theorem X12_greeting_first_and_once (JSON_parse : string -> option value)
    (inputs : list input) :
  greeted (serve_all JSON_parse inputs empty_server).
Proof.
  apply serve_all_preserves; [apply greeted_serve |].
  intros c conn H. simpl in H. now rewrite lookup_nil in H.
Qed.

(** X13.  A turn whose agent fails records nothing: when the agent ends
    the feed by throwing, or the event loop throws on an event, no session
    object changes, so the failed question is not part of any history. *)
Theorem X13_failed_turn_not_recorded (JSON_parse : string -> option value)
    (inputs : list input) (c : nat) (payload : string)
    (feed : list feed_item) (agent_raises : bool) :
  let srv := serve_all JSON_parse inputs empty_server in
  (forall conn,
     connections srv !! c = Some conn ->
     agent_raises = true
     \/ exists st,
          drive JSON_parse feed
            (initial_state (wsSend (conn_ws conn) (Thinking (Some "Thinking..."))))
          = Raised st) ->
  heap (on_message JSON_parse c payload feed agent_raises srv) = heap srv.
Proof.
  intros srv Hfail.
  destruct (on_message_cases JSON_parse c payload feed agent_raises srv)
    as [-> | (conn & message & Hc & Hp & Ht & Hpr)]; [reflexivity |].
  rewrite (on_message_chat _ _ _ _ _ _ _ _ Hc Hp Ht Hpr). cbv zeta. cbn [heap].
  destruct (sessions srv !! sessionId conn) as [loc|] eqn:Hid; [| reflexivity].
  unfold chat_turn. rewrite Hpr. unfold chat_block, try_block, history_of.
  rewrite Hid.
  destruct (heap srv !! loc) as [sess|] eqn:Hl; [| reflexivity].
  cbn [fmap option_fmap option_map].
  assert (Hsame : alter (set_chatHistory (chatHistory sess)) loc (heap srv) = heap srv)
    by now apply (alter_same_history (heap srv) loc sess).
  destruct (Hfail conn Hc) as [-> | (st & ->)].
  - destruct (drive _ _ _); exact Hsame.
  - exact Hsame.
Qed.

Lemma X13_failed_turn_not_recorded_witness :
  heap (on_message JsonFragment.parse 0 (chat_payload "hello")
          [CbToolStart "geocode"] true
          (serve_all JsonFragment.parse [Connection 1700000000123] empty_server))
  = heap (serve_all JsonFragment.parse [Connection 1700000000123] empty_server).
Proof.
  apply (X13_failed_turn_not_recorded JsonFragment.parse
           [Connection 1700000000123] 0 (chat_payload "hello")
           [CbToolStart "geocode"] true).
  intros conn _. now left.
Defined.

(** ** The tool-schema translation, at its edges *)



(** ** The client's map *)

Lemma lookup_set_field (k k' : string) (v : value) (fields : list (string * value)) :
  lookup_field k (set_field k' v fields)
  = if String.eqb k k' then v else lookup_field k fields.
Proof.
  induction fields as [|[k0 v0] fields IH]; simpl.
  - now destruct (String.eqb k k').
  - destruct (String.eqb k' k0) eqn:E0; simpl.
    + apply String.eqb_eq in E0. subst k0.
      now destruct (String.eqb k k').
    + destruct (String.eqb k k0) eqn:E1; [| exact IH].
      apply String.eqb_eq in E1. subst k0.
      now rewrite String.eqb_sym, E0.
Qed.

Lemma get_spread (prev : value) (updates : list (string * value)) (k : string) :
  get (spread prev updates) k = assigned k updates (get prev k).
Proof.
  unfold spread, assigned. cbn [get].
  assert (H : forall fields,
    lookup_field k
      (fold_left (fun fields kv => set_field (fst kv) (snd kv) fields) updates fields)
    = fold_left (fun acc kv => if String.eqb k (fst kv) then snd kv else acc)
        updates (lookup_field k fields)).
  { induction updates as [|[k' v] updates IH]; intros fields; [reflexivity |].
    cbn [fold_left fst snd]. now rewrite IH, lookup_set_field. }
  rewrite H. now destruct prev.
Qed.

Lemma assigned_untouched (k : string) (updates : list (string * value)) (old : value) :
  existsb (String.eqb k) (map fst updates) = false ->
  assigned k updates old = old.
Proof.
  unfold assigned. revert old.
  induction updates as [|[k' v] updates IH]; intros old H; [reflexivity |].
  simpl in H. apply orb_false_iff in H as [Hk H].
  cbn [fold_left fst snd]. rewrite Hk. now apply IH.
Qed.

(** X15.  What a server action does to the map.  A route replaces the
    markers: it empties them, shows the action's route and asks to fit the
    bounds, leaving center and zoom alone.  Markers replace the route: the
    route and its key are cleared and the markers are the action's (none
    when it has none).  Centering touches neither markers nor route.  No
    action touches a field other than the ones its kind assigns, the
    selected place among them. *)
Theorem X15_map_action_effects (now : N) (action prev : value) :
  (get action "type" = VStr "SHOW_ROUTE" ->
   get (handleMapAction now action prev) "markers" = VArr []
   /\ get (handleMapAction now action prev) "route" = get action "route"
   /\ get (handleMapAction now action prev) "fitBounds" = VBool true
   /\ get (handleMapAction now action prev) "center" = get prev "center"
   /\ get (handleMapAction now action prev) "zoom" = get prev "zoom")
  /\ (get action "type" = VStr "SHOW_MARKERS" ->
      get (handleMapAction now action prev) "route" = VNull
      /\ get (handleMapAction now action prev) "routeKey" = VNull
      /\ get (handleMapAction now action prev) "markers"
         = or_else (get action "markers") (VArr []))
  /\ (get action "type" = VStr "CENTER" ->
      get (handleMapAction now action prev) "markers" = get prev "markers"
      /\ get (handleMapAction now action prev) "route" = get prev "route")
  /\ (forall tag k,
        get action "type" = VStr tag ->
        existsb (String.eqb k) (assigned_fields tag) = false ->
        get (handleMapAction now action prev) k = get prev k)
  /\ get (handleMapAction now action prev) "selectedPlace"
     = get prev "selectedPlace".
Proof.
  split; [| split; [| split; [| split]]].
  - intros Ht. unfold handleMapAction. rewrite Ht. cbn [String.eqb Ascii.eqb Bool.eqb].
    rewrite !get_spread. repeat split.
  - intros Ht. unfold handleMapAction. rewrite Ht. cbn [String.eqb Ascii.eqb Bool.eqb].
    rewrite !get_spread. repeat split.
  - intros Ht. unfold handleMapAction. rewrite Ht. cbn [String.eqb Ascii.eqb Bool.eqb].
    rewrite !get_spread. repeat split.
  - intros tag k Ht Hk. unfold handleMapAction. rewrite Ht.
    unfold assigned_fields in Hk.
    destruct (String.eqb tag "SHOW_MARKERS");
      [rewrite get_spread; now apply assigned_untouched |].
    destruct (String.eqb tag "SHOW_ROUTE");
      [rewrite get_spread; now apply assigned_untouched |].
    destruct (String.eqb tag "CENTER");
      [rewrite get_spread; now apply assigned_untouched | reflexivity].
  - unfold handleMapAction. destruct (get action "type"); try reflexivity.
    destruct (String.eqb _ "SHOW_MARKERS"); [now rewrite get_spread |].
    destruct (String.eqb _ "SHOW_ROUTE"); [now rewrite get_spread |].
    destruct (String.eqb _ "CENTER"); [now rewrite get_spread | reflexivity].
Qed.

(** X15 at a route drawn over a map that shows one marker. *)
Lemma X15_map_action_effects_witness :
  get (handleMapAction 1700000000123 route_action
         (VObj [("center", VArr [VNum "40.7128"; VNum "-74.006"]);
                ("zoom", VNum "12");
                ("markers", VArr [VObj [("title", VStr "Cafe")]]);
                ("route", VNull); ("selectedPlace", VNull)])) "markers" = VArr []
  /\ get (handleMapAction 1700000000123 route_action
         (VObj [("center", VArr [VNum "40.7128"; VNum "-74.006"]);
                ("zoom", VNum "12");
                ("markers", VArr [VObj [("title", VStr "Cafe")]]);
                ("route", VNull); ("selectedPlace", VNull)])) "route" = VArr [].
Proof.
  pose proof (proj1 (X15_map_action_effects 1700000000123 route_action
           (VObj [("center", VArr [VNum "40.7128"; VNum "-74.006"]);
                  ("zoom", VNum "12");
                  ("markers", VArr [VObj [("title", VStr "Cafe")]]);
                  ("route", VNull); ("selectedPlace", VNull)])) eq_refl)
    as (Hm & Hr & _).
  exact (conj Hm Hr).
Defined.

(** X16.  The fallbacks of center and zoom.  Markers without a center or
    a zoom keep the map's; a zoom of 0, being falsy, counts as missing.
    Centering has a fallback for the zoom only: without a center it leaves
    the map with an undefined center. *)
Theorem X16_center_and_zoom (now : N) (action prev : value) :
  (get action "type" = VStr "SHOW_MARKERS" ->
   get (handleMapAction now action prev) "center"
   = (if truthy (get action "center") then get action "center"
      else get prev "center")
   /\ get (handleMapAction now action prev) "zoom"
      = (if truthy (get action "zoom") then get action "zoom"
         else get prev "zoom"))
  /\ (get action "type" = VStr "CENTER" ->
      get (handleMapAction now action prev) "center" = get action "center"
      /\ get (handleMapAction now action prev) "zoom"
         = (if truthy (get action "zoom") then get action "zoom"
            else get prev "zoom"))
  /\ (get action "type" = VStr "CENTER" ->
      get action "center" = VUndefined ->
      get action "zoom" = VNum "0" ->
      get (handleMapAction now action prev) "center" = VUndefined
      /\ get (handleMapAction now action prev) "zoom" = get prev "zoom").
Proof.
  split; [| split].
  - intros Ht. unfold handleMapAction. rewrite Ht. cbn [String.eqb Ascii.eqb Bool.eqb].
    rewrite !get_spread. split; reflexivity.
  - intros Ht. unfold handleMapAction. rewrite Ht. cbn [String.eqb Ascii.eqb Bool.eqb].
    rewrite !get_spread. split; reflexivity.
  - intros Ht Hc Hz. unfold handleMapAction. rewrite Ht.
    cbn [String.eqb Ascii.eqb Bool.eqb].
    rewrite !get_spread. unfold assigned. cbn [fold_left fst snd String.eqb Ascii.eqb Bool.eqb].
    rewrite Hc, Hz. split; reflexivity.
Qed.

(** X16 at a centering action that carries a zoom of 0 and no center. *)
Lemma X16_center_and_zoom_witness :
  get (handleMapAction 1700000000123
         (VObj [("type", VStr "CENTER"); ("zoom", VNum "0")])
         (VObj [("center", VArr [VNum "40.7128"; VNum "-74.006"]);
                ("zoom", VNum "12")])) "center" = VUndefined
  /\ get (handleMapAction 1700000000123
         (VObj [("type", VStr "CENTER"); ("zoom", VNum "0")])
         (VObj [("center", VArr [VNum "40.7128"; VNum "-74.006"]);
                ("zoom", VNum "12")])) "zoom"
     = get (VObj [("center", VArr [VNum "40.7128"; VNum "-74.006"]);
                  ("zoom", VNum "12")]) "zoom".
Proof.
  apply (proj2 (proj2 (X16_center_and_zoom 1700000000123
           (VObj [("type", VStr "CENTER"); ("zoom", VNum "0")])
           (VObj [("center", VArr [VNum "40.7128"; VNum "-74.006"]);
                  ("zoom", VNum "12")]))));
    reflexivity.
Defined.

(** ** The chat panel *)

Lemma trim_start_is_empty (s : string) :
  trim_is_empty (trim_start s) = trim_is_empty s.
Proof.
  induction s as [|c s IH]; [reflexivity |]. simpl.
  destruct (is_white_space c) eqn:Hc; simpl; [exact IH | now rewrite Hc].
Qed.

Lemma trim_end_is_empty (s : string) :
  trim_is_empty (trim_end s) = trim_is_empty s.
Proof.
  induction s as [|c s IH]; [reflexivity |]. simpl.
  destruct (trim_end s) as [|d r].
  - simpl in IH. rewrite <- IH, andb_true_r.
    destruct (is_white_space c) eqn:Hc; simpl; [reflexivity | now rewrite Hc].
  - change (trim_is_empty (String c (String d r)))
      with (is_white_space c && trim_is_empty (String d r)).
    now rewrite IH.
Qed.

Lemma trim_end_empty (s : string) :
  trim_end s = "" <-> trim_is_empty s = true.
Proof.
  induction s as [|c s IH]; [easy |]. simpl.
  destruct (trim_end s) as [|d r].
  - destruct IH as [IH _]. rewrite (IH eq_refl), andb_true_r.
    destruct (is_white_space c); easy.
  - split; [discriminate |]. intros H. apply andb_true_iff in H as [_ H].
    apply IH in H. discriminate.
Qed.

Lemma trim_empty (s : string) :
  trim s = "" <-> trim_is_empty s = true.
Proof.
  unfold trim. now rewrite trim_end_empty, trim_start_is_empty.
Qed.

Lemma trim_is_empty_trim (s : string) :
  trim_is_empty (trim s) = trim_is_empty s.
Proof.
  unfold trim. now rewrite trim_end_is_empty, trim_start_is_empty.
Qed.

(** What [trim_start] returns is empty or starts with a character that
    is not white space. *)
Lemma trim_start_head (s : string) :
  trim_start s = ""
  \/ exists c r, trim_start s = String c r /\ is_white_space c = false.
Proof.
  induction s as [|c s IH]; [now left |]. simpl.
  destruct (is_white_space c) eqn:Hc; [exact IH | right; eauto].
Qed.

Lemma trim_end_head (c : ascii) (r : string) :
  is_white_space c = false ->
  exists r', trim_end (String c r) = String c r'.
Proof.
  intros Hc. simpl. destruct (trim_end r); rewrite ?Hc; eauto.
Qed.

Lemma trim_end_idempotent (s : string) :
  trim_end (trim_end s) = trim_end s.
Proof.
  induction s as [|c s IH]; [reflexivity |]. simpl.
  destruct (trim_end s) as [|d r] eqn:E.
  - destruct (is_white_space c) eqn:Hc; simpl; [reflexivity | now rewrite Hc].
  - change (trim_end (String c (String d r)))
      with (match trim_end (String d r) with
            | EmptyString =>
                if is_white_space c then EmptyString else String c EmptyString
            | rest => String c rest
            end).
    now rewrite IH.
Qed.

Lemma trim_idempotent (s : string) : trim (trim s) = trim s.
Proof.
  unfold trim. destruct (trim_start_head s) as [H|(c & r & H & Hc)]; rewrite H.
  - reflexivity.
  - destruct (trim_end_head c r Hc) as (r' & Hr). rewrite Hr.
    cbn [trim_start]. rewrite Hc, <- Hr. apply trim_end_idempotent.
Qed.

Lemma truthy_trim (s : string) :
  truthy (VStr (trim s)) = negb (trim_is_empty s).
Proof.
  cbn [truthy]. destruct (trim_is_empty s) eqn:E.
  - apply trim_empty in E. now rewrite E.
  - destruct (String.eqb (trim s) "") eqn:E'; [| reflexivity].
    apply String.eqb_eq, trim_empty in E'. congruence.
Qed.

(** An idle, enabled panel submits an input that is not blank. *)
Lemma handleSubmit_idle (input : string) (cl : client) :
  is_idle cl -> trim_is_empty input = false ->
  handleSubmit input false cl = Some (trim input).
Proof.
  intros (Ht & Hs & _) Hi. unfold handleSubmit.
  now rewrite truthy_trim, Hi, Ht, Hs.
Qed.

(** X17.  What the chat panel submits.  A submission happens only when
    the panel is enabled, no status is shown and nothing is being streamed,
    and the text handed on is the trimmed input: it is not blank, trimming
    it again changes nothing, and the server's history block will keep it
    as it is.  A blank input is never submitted; an idle, enabled panel
    submits every other input. *)
Theorem X17_submit_guard (input : string) (disabled : bool) (cl : client) :
  (forall m,
     handleSubmit input disabled cl = Some m ->
     m = trim input
     /\ trim_is_empty m = false
     /\ trim m = m
     /\ trim_is_truthy (VStr m) = Ok true
     /\ disabled = false
     /\ status_shown (thinkingStatus cl) = false
     /\ streamingContent cl = "")
  /\ (trim_is_empty input = true -> handleSubmit input disabled cl = None)
  /\ (is_idle cl -> trim_is_empty input = false ->
      handleSubmit input false cl = Some (trim input)).
Proof.
  pose proof truthy_trim as Hblank.
  split; [| split].
  - intros m. unfold handleSubmit. rewrite Hblank.
    destruct (trim_is_empty input) eqn:Hi; [discriminate |].
    destruct disabled; [discriminate |].
    destruct (status_shown _); [discriminate |].
    cbn [truthy negb andb].
    destruct (String.eqb (streamingContent cl) "") eqn:Hs; [| discriminate].
    intros [= <-]. apply String.eqb_eq in Hs.
    assert (Hm : trim_is_empty (trim input) = false)
      by now rewrite trim_is_empty_trim.
    repeat split; try assumption; try reflexivity.
    + apply trim_idempotent.
    + cbn [trim_is_truthy]. now rewrite Hm.
  - intros Hi. unfold handleSubmit. now rewrite Hblank, Hi.
  - apply handleSubmit_idle.
Qed.

(** X17 at an input with white space around it, on a fresh panel. *)
Lemma X17_submit_guard_witness :
  "Find cafes" = trim "  Find cafes "
  /\ trim_is_empty "Find cafes" = false
  /\ trim "Find cafes" = "Find cafes"
  /\ trim_is_truthy (VStr "Find cafes") = Ok true
  /\ false = false
  /\ status_shown None = false
  /\ "" = "".
Proof.
  apply (proj1 (X17_submit_guard "  Find cafes " false
                  {| messages := []; thinkingStatus := None;
                     streamingContent := ""; streamingRef := "";
                     mapState := VObj [] |}) "Find cafes").
  reflexivity.
Defined.

(** ** The client's message handler *)

Lemma receive_app (a b : list (N * outbound)) (cl : client) :
  receive (a ++ b) cl = receive b (receive a cl).
Proof. apply fold_left_app. Qed.

Lemma receive_cons (tm : N * outbound) (t : list (N * outbound)) (cl : client) :
  receive (tm :: t) cl = receive t (onmessage (fst tm) (snd tm) cl).
Proof. reflexivity. Qed.

(** An error message followed by the clearing of the indicator leaves
    the client idle, whatever its state was. *)
Lemma error_then_clear_idle (n n' : N) (text : string) (cl : client) :
  is_idle (onmessage n' (Thinking None) (onmessage n (Error text) cl)).
Proof. repeat split. Qed.

(** A final message whose text the server could trim resets the
    streaming state. *)
Lemma stream_end_resets (wire : value -> value) (n : N) (content action : value)
    (b : bool) (cl : client) :
  faithful_on_text wire ->
  trim_is_truthy content = Ok b ->
  is_idle (onmessage n (deliver wire (StreamEnd content action)) cl).
Proof.
  intros (Hstr & Hnull & Hundef) Hc. cbn [deliver onmessage].
  assert (Hw : exists b', trim_is_truthy (wire content) = Ok b').
  { destruct content; try discriminate;
      rewrite ?Hstr, ?Hnull, ?Hundef; simpl; eauto. }
  destruct Hw as (b' & Hw). unfold or_else.
  destruct (truthy (VStr (streamingRef cl)));
    [cbn [trim_is_truthy] | rewrite Hw]; repeat split.
Qed.

(** The messages of the streaming step, when their streamed texts are
    strings, leave the transcript alone and add the texts to the
    accumulator. *)
Lemma receive_text (wire : value -> value) (new : list outbound) :
  faithful_on_text wire ->
  forall (timed : list (N * outbound)) (cl : client),
    map snd timed = map (deliver wire) new ->
    forallb text_message new = true ->
    messages (receive timed cl) = messages cl
    /\ streamingRef (receive timed cl) = streamingRef cl +:+ streamed_text new.
Proof.
  intros (Hstr & _). induction new as [|m new IH]; intros timed cl Ht Hk.
  - destruct timed; [| discriminate]. simpl. now rewrite append_empty_r.
  - destruct timed as [|[n m'] timed]; [discriminate |].
    simpl in Ht. injection Ht as Hm Ht. subst m'.
    simpl in Hk. apply andb_true_iff in Hk as [Hm Hk].
    change (receive ((n, deliver wire m) :: timed) cl)
      with (receive timed (onmessage n (deliver wire m) cl)).
    destruct (IH timed (onmessage n (deliver wire m) cl) Ht Hk) as [IHm IHr].
    rewrite IHm, IHr.
    destruct m as [status|content|action| | |]; try discriminate.
    + split; reflexivity.
    + destruct content; try discriminate. cbn [deliver]. rewrite Hstr.
      cbn [onmessage printable negb messages streamingRef toString].
      split; [reflexivity |].
      unfold streamed_text. cbn [stream_contents map concat_strings toString].
      now rewrite append_assoc.
    + split; reflexivity.
Qed.

Section TextOnly.

Variable JSON_parse : string -> option value.

Lemma text_only_send (base : list outbound) (m : outbound) (st : turn_state) :
  text_message m = true -> text_only base st -> text_only base (send m st).
Proof.
  intros Hm (new & Hs & Hk). unfold text_only, send, wsSend. cbn [ws].
  destruct (readyState_OPEN (ws st)); [| now exists new].
  exists (new ++ [m]). cbn [sent].
  rewrite Hs, app_assoc, forallb_app, Hk. simpl. now rewrite Hm.
Qed.

Lemma text_only_forward (base : list outbound) (x : value) (st : turn_state) :
  is_string x = true ->
  text_only base st ->
  text_only base (state_of (forward x (start_stream st))).
Proof.
  intros Hx H.
  assert (Hs : text_only base (start_stream st)).
  { unfold start_stream. destruct (streamStarted st); [exact H |].
    now apply (text_only_send base (Thinking None) (set_streamStarted st)). }
  unfold forward. destruct (_ && _); cbn [state_of]; [| exact Hs].
  now apply (text_only_send base (Stream x) (append_response x (start_stream st))).
Qed.

Lemma text_only_capture (base : list outbound) (action : value) (st : turn_state) :
  text_only base st -> text_only base (capture action st).
Proof.
  intros H. unfold capture. destruct (printable _); [| exact H].
  now apply (text_only_send base (MapAction action) (set_mapAction action st)).
Qed.

Lemma text_only_step (base : list outbound) (item : feed_item) (st : turn_state) :
  textual item = true ->
  text_only base st ->
  text_only base (state_of (step JSON_parse item st)).
Proof.
  intros Hitem H. destruct item as [token|toolName|output|e|]; cbn [step state_of].
  - unfold handleLLMNewToken. destruct (truthy _); [| exact H].
    now apply text_only_forward.
  - now apply (text_only_send base _ (push_toolsUsed toolName st)).
  - unfold handleToolEnd. apply text_only_send; [reflexivity |].
    destruct (side_action_of _ _); [| exact H].
    now apply text_only_capture.
  - unfold handle_event.
    assert (H1 : text_only base (on_tool_start e st)).
    { unfold on_tool_start. destruct (_ && _); [| exact H].
      now apply (text_only_send base _ (push_toolsUsed (name e) st)). }
    assert (H2 : text_only base (on_tool_end JSON_parse e (on_tool_start e st))).
    { unfold on_tool_end. destruct (_ && _); [| exact H1].
      apply text_only_send; [reflexivity |].
      destruct (truthy _); [| exact H1].
      destruct (side_action_of _ _); [| exact H1].
      now apply text_only_capture. }
    set (st2 := on_tool_end JSON_parse e (on_tool_start e st)) in *.
    assert (H3 : text_only base (state_of (on_chat_model_stream e st2))).
    { unfold on_chat_model_stream. cbn [textual] in Hitem.
      destruct (String.eqb (event e) "on_chat_model_stream"); [| exact H2].
      cbn [negb orb] in Hitem.
      destruct (extractTextFromChunk _) as [text|]; [| exact H2].
      destruct (truthy text) eqn:Ht; [| exact H2].
      rewrite orb_false_r in Hitem.
      destruct (response_includes _ _) as [[|]|]; try exact H2.
      now apply text_only_forward. }
    destruct (on_chat_model_stream e st2) as [st3|st3]; cbn [state_of] in *;
      [| exact H3].
    unfold on_chain_end. destruct (_ && _); [| exact H3].
    destruct (_ && _); exact H3.
  - exact H.
Qed.

Lemma text_only_drive (base : list outbound) (feed : list feed_item) :
  forall st,
    forallb textual feed = true ->
    text_only base st ->
    text_only base (state_of (drive JSON_parse feed st)).
Proof.
  induction feed as [|item feed IH]; intros st Hfeed H; [exact H |].
  simpl in Hfeed. apply andb_true_iff in Hfeed as [Hitem Hfeed].
  pose proof (text_only_step base item st Hitem H) as Hs. simpl.
  destruct (step JSON_parse item st); [now apply IH | exact Hs].
Qed.

(** A turn that ends with the agent's answer, a string, after a feed of
    textual items: its messages, the text [r] of its final message, and
    the exchange it records. *)
Lemma answered_turn (h : list chat_message) (u a : string) (body : list feed_item)
    (s : socket) (st : turn_state) :
  readyState_OPEN s = true ->
  forallb before_answer body = true ->
  forallb textual body = true ->
  drive JSON_parse body (initial_state (wsSend s (Thinking (Some "Thinking..."))))
    = Done st ->
  exists new r action,
    sent (fst (chat_turn JSON_parse (Some h) (VStr u)
                 (body ++ [agent_end (VStr a)]) false s))
      = sent s ++ Thinking (Some "Thinking...") :: new
          ++ [StreamEnd (VStr r) action; Thinking None]
    /\ forallb text_message new = true
    /\ (r = streamed_text new \/ streamed_text new = "")
    /\ snd (chat_turn JSON_parse (Some h) (VStr u)
              (body ++ [agent_end (VStr a)]) false s)
       = Some (record_exchange h (u, r)).
Proof.
  intros Hopen Hbody Htext Hdrive.
  set (s0 := wsSend s (Thinking (Some "Thinking..."))) in *.
  assert (Hsent0 : sent s0 = sent s ++ [Thinking (Some "Thinking...")])
    by (unfold s0; now rewrite sent_wsSend_open).
  assert (Hinit : accumulating (sent s ++ [Thinking (Some "Thinking...")])
                    (initial_state s0)).
  { split; [unfold s0; simpl; now rewrite wsSend_readyState |].
    exists []. simpl. now rewrite Hsent0, app_nil_r. }
  assert (Hinit' : text_only (sent s ++ [Thinking (Some "Thinking...")])
                     (initial_state s0)).
  { exists []. simpl. now rewrite Hsent0, app_nil_r. }
  pose proof (accumulating_drive JSON_parse _ body _ Hbody Hinit) as Hacc.
  pose proof (text_only_drive _ body _ Htext Hinit') as Htxt.
  rewrite Hdrive in Hacc, Htxt. cbn [state_of] in Hacc, Htxt.
  destruct Hacc as (Ho & new & Hs & Hf & Hst & Hse).
  destruct Htxt as (new' & Hs' & Hk).
  assert (new' = new) by (rewrite Hs in Hs'; now apply app_inv_head in Hs').
  subst new'.
  set (st' := if truthy (VStr a) && negb (streamStarted st)
              then set_fullResponse (VStr a) st else st).
  assert (Hend : drive JSON_parse (body ++ [agent_end (VStr a)]) (initial_state s0)
                 = Done st').
  { rewrite drive_app, Hdrive. reflexivity. }
  assert (Hws : ws st' = ws st) by (unfold st'; now destruct (_ && _)).
  assert (Hr : exists r, fullResponse st' = VStr r
                         /\ (r = streamed_text new \/ streamed_text new = "")).
  { unfold st'. destruct (truthy (VStr a) && negb (streamStarted st)) eqn:E.
    - exists a. split; [reflexivity | right].
      apply andb_true_iff in E as [_ E]. apply negb_true_iff in E.
      rewrite E in Hst. unfold streamed_text.
      assert (Hnone : stream_contents new = []).
      { clear -Hst. induction new as [|m new IH]; [reflexivity |].
        simpl in Hst. apply orb_false_iff in Hst as [Hm Hnew].
        destruct m; try discriminate; simpl; now apply IH. }
      now rewrite Hnone.
    - exists (streamed_text new). split; [exact Hf | now left]. }
  destruct Hr as (r & Hr & Hcases).
  exists new, r, (mapAction st').
  split; [| split; [exact Hk | split; [exact Hcases |]]].
  - unfold chat_turn. cbn [printable]. unfold chat_block, try_block.
    fold s0. rewrite Hend, Hr.
    unfold update_history. cbn [trim_is_truthy fst].
    rewrite !sent_wsSend_open
      by (rewrite ?wsSend_readyState, ?Hws; assumption).
    rewrite Hws, Hs, <- !app_assoc. reflexivity.
  - now apply chat_turn_records_exchange with (st := st').
Qed.

End TextOnly.

(** ** Server and client together *)

(** X18.  After every turn on a socket that stays open, of a request
    whose content the handler can log, and however the turn ends (an
    answer, a failure of the agent, a failure while the history is updated,
    a missing session), a client that received the turn's messages shows no
    status and streams nothing, whatever its state was before: the chat
    panel accepts the next input that is not blank. *)
Theorem X18_client_idle_after_turn (JSON_parse : string -> option value)
    (wire : value -> value) (history : option (list chat_message))
    (userMessage : value) (feed : list feed_item) (agent_raises : bool)
    (s : socket) (out : list outbound) (timed : list (N * outbound))
    (cl : client) :
  faithful_on_text wire ->
  printable userMessage = true ->
  readyState_OPEN s = true ->
  stays_open feed = true ->
  sent (fst (chat_turn JSON_parse history userMessage feed agent_raises s))
    = sent s ++ out ->
  map snd timed = map (deliver wire) out ->
  is_idle (receive timed cl)
  /\ forall input,
       trim_is_empty input = false ->
       handleSubmit input false (receive timed cl) = Some (trim input).
Proof.
  intros Hwire Hprintable Hopen Hfeed Hsent Htimed.
  rewrite chat_turn_printable in Hsent by exact Hprintable.
  assert (Hidle : is_idle (receive timed cl)).
  { destruct (chat_block_end JSON_parse history userMessage feed agent_raises s
                Hopen Hfeed) as (new & tail & Hs & _ & Htail).
    rewrite Hs in Hsent. apply app_inv_head in Hsent. subst out.
    change (Thinking (Some "Thinking...") :: new ++ tail ++ [Thinking None])
      with ((Thinking (Some "Thinking...") :: new) ++ tail ++ [Thinking None])
      in Htimed.
    rewrite map_app in Htimed.
    apply map_eq_app in Htimed as (t1 & t2 & -> & _ & Ht2).
    rewrite receive_app. generalize (receive t1 cl). intros cl1.
    destruct Htail as [->|[(content & action & b & -> & _ & Hc)
                          |(content & action & -> & _)]].
    - destruct t2 as [|[n1 m1] [|[n2 m2] [|]]]; try discriminate.
      simpl in Ht2. injection Ht2 as -> ->. apply error_then_clear_idle.
    - destruct t2 as [|[n1 m1] [|[n2 m2] [|]]]; try discriminate.
      cbn [map app snd] in Ht2. injection Ht2 as -> ->.
      cbn [receive fold_left fst snd].
      pose proof (stream_end_resets wire n1 content action b cl1
                    Hwire Hc) as (_ & H2 & H3).
      repeat split; assumption.
    - destruct t2 as [|[n1 m1] [|[n2 m2] [|[n3 m3] [|]]]]; try discriminate.
      cbn [map app snd] in Ht2. injection Ht2 as -> -> ->.
      apply error_then_clear_idle. }
  split; [exact Hidle |]. intros input. now apply handleSubmit_idle.
Qed.

(** X18 at a turn that streams one token, received by a client that was
    showing a stale status. *)
Lemma X18_client_idle_after_turn_witness :
  is_idle
    (receive [(1, Thinking (Some "Thinking...")); (2, Thinking None);
              (3, Stream (VStr "Hello")); (4, StreamEnd (VStr "Hello") VNull);
              (5, Thinking None)]%N
       {| messages := []; thinkingStatus := Some "Using geocode...";
          streamingContent := "stale"; streamingRef := "stale";
          mapState := VObj [] |})
  /\ forall input,
       trim_is_empty input = false ->
       handleSubmit input false
         (receive [(1, Thinking (Some "Thinking...")); (2, Thinking None);
                   (3, Stream (VStr "Hello")); (4, StreamEnd (VStr "Hello") VNull);
                   (5, Thinking None)]%N
            {| messages := []; thinkingStatus := Some "Using geocode...";
               streamingContent := "stale"; streamingRef := "stale";
               mapState := VObj [] |})
       = Some (trim input).
Proof.
  apply (X18_client_idle_after_turn JsonFragment.parse (fun v => v) (Some [])
           (VStr "Hi") [CbLLMNewToken "Hello"] false open_socket
           [Thinking (Some "Thinking..."); Thinking None; Stream (VStr "Hello");
            StreamEnd (VStr "Hello") VNull; Thinking None]).
  - repeat split.
  - reflexivity.
  - reflexivity.
  - reflexivity.
  - reflexivity.
  - reflexivity.
Defined.

(** X19.  The transcript and the history agree.  The user sends a text
    on an open socket; the turn runs without an exception on a socket that
    stays open, every streamed text being a string, and ends with the
    agent's answer, a string.  Then the client's transcript gains the
    user's text and, unless it is blank, one assistant entry; the text [r]
    of that entry is the text the server records as the assistant's side of
    the exchange. *)
Theorem X19_transcript_matches_history (JSON_parse : string -> option value)
    (wire : value -> value) (h : list chat_message) (u a : string)
    (body : list feed_item) (s : socket) (st : turn_state)
    (out : list outbound) (timed : list (N * outbound)) (cl : client) :
  faithful_on_text wire ->
  readyState_OPEN s = true ->
  forallb before_answer body = true ->
  forallb textual body = true ->
  drive JSON_parse body (initial_state (wsSend s (Thinking (Some "Thinking..."))))
    = Done st ->
  sent (fst (chat_turn JSON_parse (Some h) (VStr u)
               (body ++ [agent_end (VStr a)]) false s)) = sent s ++ out ->
  map snd timed = map (deliver wire) out ->
  exists r,
    snd (chat_turn JSON_parse (Some h) (VStr u)
           (body ++ [agent_end (VStr a)]) false s)
      = Some (record_exchange h (u, r))
    /\ messages (receive timed (fst (sendMessage true u cl)))
       = messages cl
           ++ user_says u :: (if trim_is_empty r then [] else [assistant_says r])
    /\ snd (sendMessage true u cl)
       = Some (VObj [("type", VStr "chat"); ("content", VStr u)]).
Proof.
  intros Hwire Hopen Hbody Htext Hdrive Hsent Htimed.
  destruct (answered_turn JSON_parse h u a body s st Hopen Hbody Htext Hdrive)
    as (new & r & action & Hs & Hk & Hcases & Hh).
  exists r. split; [exact Hh |]. split; [| reflexivity].
  rewrite Hs in Hsent. apply app_inv_head in Hsent. subst out.
  cbn [map] in Htimed. rewrite map_app in Htimed.
  destruct timed as [|[n0 m0] timed]; [discriminate |].
  cbn [map snd] in Htimed. injection Htimed as -> Htimed.
  apply map_eq_app in Htimed as (t1 & t2 & -> & Ht1 & Ht2).
  destruct t2 as [|[n1 m1] [|[n2 m2] [|]]]; try discriminate.
  cbn [map snd] in Ht2. injection Ht2 as -> ->.
  rewrite receive_cons, receive_app. cbn [fst snd deliver].
  set (cl1 := onmessage n0 (Thinking (Some "Thinking..."))
                (fst (sendMessage true u cl))).
  destruct (receive_text wire new Hwire t1 cl1 Ht1 Hk) as [Hm Hr].
  change (streamingRef cl1) with "" in Hr.
  change (messages cl1) with (messages cl ++ [user_says u]) in Hm.
  change ("" +:+ streamed_text new) with (streamed_text new) in Hr.
  generalize dependent (receive t1 cl1). intros cl2 Hm Hr.
  destruct Hwire as (Hstr & _).
  cbn [receive fold_left fst snd deliver]. rewrite Hstr.
  cbn [onmessage]. rewrite Hr.
  assert (Hfinal : or_else (VStr (streamed_text new)) (VStr r) = VStr r).
  { destruct Hcases as [->| ->]; [| reflexivity].
    unfold or_else. now destruct (truthy _). }
  rewrite Hfinal. cbn [trim_is_truthy toString].
  destruct (trim_is_empty r); cbn [negb messages]; rewrite Hm, <- ?app_assoc;
    reflexivity.
Qed.

(** X19 at a turn that streams two tokens. *)
Lemma X19_transcript_matches_history_witness :
  exists r,
    snd (chat_turn JsonFragment.parse (Some []) (VStr "Capital of France?")
           ([CbLLMNewToken "Par"; CbLLMNewToken "is."]
              ++ [agent_end (VStr "Paris.")]) false open_socket)
      = Some (record_exchange [] ("Capital of France?", r))
    /\ messages
         (receive [(1, Thinking (Some "Thinking...")); (2, Thinking None);
                   (3, Stream (VStr "Par")); (4, Stream (VStr "is."));
                   (5, StreamEnd (VStr "Paris.") VNull); (6, Thinking None)]%N
            (fst (sendMessage true "Capital of France?"
                    {| messages := []; thinkingStatus := None;
                       streamingContent := ""; streamingRef := "";
                       mapState := VObj [] |})))
       = [] ++ user_says "Capital of France?"
              :: (if trim_is_empty r then [] else [assistant_says r])
    /\ snd (sendMessage true "Capital of France?"
              {| messages := []; thinkingStatus := None;
                 streamingContent := ""; streamingRef := "";
                 mapState := VObj [] |})
       = Some (VObj [("type", VStr "chat");
                     ("content", VStr "Capital of France?")]).
Proof.
  apply (X19_transcript_matches_history JsonFragment.parse (fun v => v) []
           "Capital of France?" "Paris."
           [CbLLMNewToken "Par"; CbLLMNewToken "is."] open_socket
           {| fullResponse := VStr "Paris."; mapAction := VNull;
              toolsUsed := []; streamStarted := true;
              ws := {| readyState_OPEN := true;
                       sent := [Thinking (Some "Thinking..."); Thinking None;
                                Stream (VStr "Par"); Stream (VStr "is.")] |} |}
           [Thinking (Some "Thinking..."); Thinking None; Stream (VStr "Par");
            Stream (VStr "is."); StreamEnd (VStr "Paris.") VNull; Thinking None]).
  - repeat split.
  - reflexivity.
  - reflexivity.
  - reflexivity.
  - reflexivity.
  - reflexivity.
  - reflexivity.
Defined.

(** ** The tool server *)

Lemma call_tool_result (name : string) (args : value)
    (helper : forall t, helper_outcome (helper_result t)) (action : value) :
  call_tool name args helper = ToolResult action ->
  exists t result,
    tool_named name = Some t
    /\ is_nullish args = false
    /\ helper t = Returned result
    /\ builds_action t result = true
    /\ action = mapAction_of t args result.
Proof.
  unfold call_tool. destruct (tool_named name) as [t|]; [| discriminate].
  destruct (is_nullish args); [discriminate |].
  destruct (helper t) as [result|m] eqn:Hh; [| discriminate].
  destruct (builds_action t result) eqn:Hb; [| discriminate].
  intros [= <-]. now exists t, result.
Qed.

(** X20.  The action a successful tool call builds, as it is before the
    reply is serialized.  It is null only for a place search that found
    nothing.  Otherwise it is an object, so truthy, tagged [SHOW_ROUTE]
    for the directions tool and [SHOW_MARKERS] for every other tool, with
    at least one marker: a tag the client acts on. *)
Theorem X20_tool_reply_action (name : string) (args : value)
    (helper : forall t, helper_outcome (helper_result t)) (action : value) :
  call_tool name args helper = ToolResult action ->
  exists t,
    tool_named name = Some t
    /\ ((action = VNull /\ lists_places t = true)
        \/ (truthy action = true
            /\ recognized_tag action = true
            /\ get action "type"
               = VStr (if draws_route t then "SHOW_ROUTE" else "SHOW_MARKERS")
            /\ (draws_route t = false ->
                exists m ms, get action "markers" = VArr (m :: ms)))).
Proof.
  intros H. apply call_tool_result in H as (t & result & Ht & _ & _ & _ & ->).
  exists t. split; [exact Ht |].
  destruct t; cbn [mapAction_of helper_result] in *.
  - destruct result as [|p ps]; [now left |].
    right. repeat split. intros _. now exists (place_marker p), (map place_marker ps).
  - right. repeat split. intros _. eexists. eexists. reflexivity.
  - right. repeat split. discriminate.
  - right. repeat split. intros _. eexists. eexists. reflexivity.
  - right. repeat split. intros _. eexists. eexists. reflexivity.
  - destruct result as [|p ps]; [now left |].
    right. repeat split. intros _. now exists (place_marker p), (map place_marker ps).
Qed.

(** X20 at a search that finds two cafes. *)
Lemma X20_tool_reply_action_witness :
  exists t,
    tool_named "search_places" = Some t
    /\ ((mapAction_of SearchPlaces (VObj [("query", VStr "cafe")]) cafes = VNull
         /\ lists_places t = true)
        \/ (truthy (mapAction_of SearchPlaces (VObj [("query", VStr "cafe")]) cafes)
            = true
            /\ recognized_tag
                 (mapAction_of SearchPlaces (VObj [("query", VStr "cafe")]) cafes)
               = true
            /\ get (mapAction_of SearchPlaces (VObj [("query", VStr "cafe")]) cafes)
                 "type"
               = VStr (if draws_route t then "SHOW_ROUTE" else "SHOW_MARKERS")
            /\ (draws_route t = false ->
                exists m ms,
                  get (mapAction_of SearchPlaces (VObj [("query", VStr "cafe")]) cafes)
                    "markers" = VArr (m :: ms)))).
Proof.
  apply (X20_tool_reply_action "search_places" (VObj [("query", VStr "cafe")])
           sample_helper).
  reflexivity.
Defined.

(** X21.  When a tool call fails.  The reply is an error exactly when
    the name is not one of the six tools, or the call came without
    arguments, or the helper threw, or the helper returned a place whose
    name or address the marker template cannot convert to a string.  An
    unknown name is reported by name without the arguments being read; a
    call of a known tool without arguments fails with a TypeError even
    when its helper would have returned; a helper's error is passed on
    with its message; a template that throws gives a TypeError after the
    helper has returned.  An error reply echoes the name and the arguments
    of the call. *)
Theorem X21_tool_call_failures (name : string) (args : value)
    (helper : forall t, helper_outcome (helper_result t)) :
  (tool_named name = None ->
   call_tool name args helper
   = ToolError (ErrorMessage ("Unknown tool: " +:+ name)) name args)
  /\ (forall t,
        tool_named name = Some t -> is_nullish args = true ->
        call_tool name args helper = ToolError TypeErrorMessage name args)
  /\ (forall t message,
        tool_named name = Some t -> is_nullish args = false ->
        helper t = HelperThrew message ->
        call_tool name args helper = ToolError (ErrorMessage message) name args)
  /\ (forall t result,
        tool_named name = Some t -> is_nullish args = false ->
        helper t = Returned result -> builds_action t result = false ->
        call_tool name args helper = ToolError TypeErrorMessage name args)
  /\ (forall error n a,
        call_tool name args helper = ToolError error n a ->
        n = name /\ a = args
        /\ (tool_named name = None
            \/ is_nullish args = true
            \/ (exists t message,
                  tool_named name = Some t /\ helper t = HelperThrew message)
            \/ (exists t result,
                  tool_named name = Some t /\ helper t = Returned result
                  /\ builds_action t result = false)))
  /\ (forall t result,
        tool_named name = Some t -> is_nullish args = false ->
        helper t = Returned result -> builds_action t result = true ->
        call_tool name args helper = ToolResult (mapAction_of t args result)).
Proof.
  unfold call_tool. split; [| split; [| split; [| split; [| split]]]].
  - intros Hn. now rewrite Hn.
  - intros t Ht Ha. now rewrite Ht, Ha.
  - intros t m Ht Ha Hh. now rewrite Ht, Ha, Hh.
  - intros t r Ht Ha Hh Hb. now rewrite Ht, Ha, Hh, Hb.
  - intros error n a. destruct (tool_named name) as [t|].
    + destruct (is_nullish args).
      * intros [= _ <- <-]. auto.
      * destruct (helper t) as [r|m] eqn:Hh.
        -- destruct (builds_action t r) eqn:Hb; [discriminate |].
           intros [= _ <- <-]. repeat split. right. right. right. now exists t, r.
        -- intros [= _ <- <-]. repeat split. right. right. left. now exists t, m.
    + intros [= _ <- <-]. auto.
  - intros t r Ht Ha Hh Hb. now rewrite Ht, Ha, Hh, Hb.
Qed.

(** X21 at a search called without arguments while the helper would find
    two cafes. *)
Lemma X21_tool_call_failures_witness :
  call_tool "search_places" VUndefined sample_helper
  = ToolError TypeErrorMessage "search_places" VUndefined.
Proof.
  apply (proj1 (proj2 (X21_tool_call_failures "search_places" VUndefined
                         sample_helper)) SearchPlaces);
    reflexivity.
Defined.

(** X22.  A tool's action on the client's map, for the action as the tool
    server built it.  After directions the map shows the route found and no
    markers.  After a place search that found places it shows one marker per
    place, in order, and no route, and keeps its zoom.  After a single-place
    tool it shows one marker and no route, centered on that marker. *)
Theorem X22_tool_action_on_map (now : N) (name : string) (args : value)
    (helper : forall t, helper_outcome (helper_result t)) (action prev : value) :
  call_tool name args helper = ToolResult action ->
  truthy action = true ->
  exists t,
    tool_named name = Some t
    /\ (forall route,
          t = GetDirections -> helper GetDirections = Returned route ->
          get (handleMapAction now action prev) "markers" = VArr []
          /\ get (handleMapAction now action prev) "route" = routeCoordinates route
          /\ get (handleMapAction now action prev) "fitBounds" = VBool true)
    /\ (forall places,
          (t = SearchPlaces /\ helper SearchPlaces = Returned places)
          \/ (t = NearbySearch /\ helper NearbySearch = Returned places) ->
          get (handleMapAction now action prev) "markers"
          = VArr (map place_marker places)
          /\ get (handleMapAction now action prev) "route" = VNull
          /\ get (handleMapAction now action prev) "zoom" = get prev "zoom"
          /\ get (handleMapAction now action prev) "fitBounds" = VBool true)
    /\ (draws_route t = false -> lists_places t = false ->
        exists marker,
          get (handleMapAction now action prev) "markers" = VArr [marker]
          /\ get (handleMapAction now action prev) "route" = VNull
          /\ get (handleMapAction now action prev) "center" = get marker "position"
          /\ get (handleMapAction now action prev) "center" = get action "center").
Proof.
  intros H Htruthy.
  apply call_tool_result in H as (t & result & Ht & _ & Hh & _ & ->).
  exists t. split; [exact Ht |].
  destruct t; cbn [mapAction_of helper_result] in *.
  - destruct result as [|p ps]; [discriminate |].
    split; [intros r [=] |]. split; [| intros _ [=]].
    intros places [[_ Hp]|[[=] _]]. rewrite Hh in Hp. injection Hp as <-.
    unfold handleMapAction.
    cbn [get lookup_field String.eqb Ascii.eqb Bool.eqb Nat.ltb Nat.leb length].
    rewrite !get_spread. repeat split.
  - split; [intros r [=] |]. split; [intros places [[[=] _]|[[=] _]] |].
    intros _ _. exists (place_marker result).
    unfold handleMapAction, place_marker.
    cbn [get lookup_field String.eqb Ascii.eqb Bool.eqb].
    rewrite !get_spread. repeat split.
  - split; [| split; [intros places [[[=] _]|[[=] _]] | intros [=]]].
    intros r _ Hr. rewrite Hh in Hr. injection Hr as <-.
    unfold handleMapAction.
    cbn [get lookup_field String.eqb Ascii.eqb Bool.eqb].
    rewrite !get_spread. repeat split.
  - split; [intros r [=] |]. split; [intros places [[[=] _]|[[=] _]] |].
    intros _ _.
    exists (VObj [("position", VArr [geo_lat result; geo_lng result]);
                  ("title", formattedAddress result)]).
    unfold handleMapAction.
    cbn [get lookup_field String.eqb Ascii.eqb Bool.eqb].
    rewrite !get_spread. repeat split.
  - split; [intros r [=] |]. split; [intros places [[[=] _]|[[=] _]] |].
    intros _ _.
    exists (VObj [("position", VArr [get args "lat"; get args "lng"]);
                  ("title", or_else result (VStr "Location"))]).
    unfold handleMapAction.
    change (get (VObj [("type", VStr "SHOW_MARKERS"); ?x; ?y; ?z]) "type")
      with (VStr "SHOW_MARKERS").
    cbn [String.eqb Ascii.eqb Bool.eqb].
    rewrite !get_spread. repeat split.
  - destruct result as [|p ps]; [discriminate |].
    split; [intros r [=] |]. split; [| intros _ [=]].
    intros places [[[=] _]|[_ Hp]]. rewrite Hh in Hp. injection Hp as <-.
    unfold handleMapAction.
    change (Nat.ltb 0 (length (p :: ps))) with true. cbv iota.
    change (get (VObj [("type", VStr "SHOW_MARKERS"); ?x; ?y; ?z]) "type")
      with (VStr "SHOW_MARKERS").
    cbn [String.eqb Ascii.eqb Bool.eqb].
    rewrite !get_spread. repeat split.
Qed.

(** X22 at a search that finds two cafes, on the initial map. *)
Lemma X22_tool_action_on_map_witness :
  exists t,
    tool_named "search_places" = Some t
    /\ (forall route,
          t = GetDirections -> sample_helper GetDirections = Returned route ->
          get (handleMapAction 1700000000123
                 (mapAction_of SearchPlaces (VObj [("query", VStr "cafe")]) cafes)
                 (VObj [("zoom", VNum "12"); ("markers", VArr []);
                        ("route", VNull)])) "markers" = VArr []
          /\ get (handleMapAction 1700000000123
                 (mapAction_of SearchPlaces (VObj [("query", VStr "cafe")]) cafes)
                 (VObj [("zoom", VNum "12"); ("markers", VArr []);
                        ("route", VNull)])) "route" = routeCoordinates route
          /\ get (handleMapAction 1700000000123
                 (mapAction_of SearchPlaces (VObj [("query", VStr "cafe")]) cafes)
                 (VObj [("zoom", VNum "12"); ("markers", VArr []);
                        ("route", VNull)])) "fitBounds" = VBool true)
    /\ (forall places,
          (t = SearchPlaces /\ sample_helper SearchPlaces = Returned places)
          \/ (t = NearbySearch /\ sample_helper NearbySearch = Returned places) ->
          get (handleMapAction 1700000000123
                 (mapAction_of SearchPlaces (VObj [("query", VStr "cafe")]) cafes)
                 (VObj [("zoom", VNum "12"); ("markers", VArr []);
                        ("route", VNull)])) "markers"
          = VArr (map place_marker places)
          /\ get (handleMapAction 1700000000123
                 (mapAction_of SearchPlaces (VObj [("query", VStr "cafe")]) cafes)
                 (VObj [("zoom", VNum "12"); ("markers", VArr []);
                        ("route", VNull)])) "route" = VNull
          /\ get (handleMapAction 1700000000123
                 (mapAction_of SearchPlaces (VObj [("query", VStr "cafe")]) cafes)
                 (VObj [("zoom", VNum "12"); ("markers", VArr []);
                        ("route", VNull)])) "zoom"
             = get (VObj [("zoom", VNum "12"); ("markers", VArr []);
                          ("route", VNull)]) "zoom"
          /\ get (handleMapAction 1700000000123
                 (mapAction_of SearchPlaces (VObj [("query", VStr "cafe")]) cafes)
                 (VObj [("zoom", VNum "12"); ("markers", VArr []);
                        ("route", VNull)])) "fitBounds" = VBool true)
    /\ (draws_route t = false -> lists_places t = false ->
        exists marker,
          get (handleMapAction 1700000000123
                 (mapAction_of SearchPlaces (VObj [("query", VStr "cafe")]) cafes)
                 (VObj [("zoom", VNum "12"); ("markers", VArr []);
                        ("route", VNull)])) "markers" = VArr [marker]
          /\ get (handleMapAction 1700000000123
                 (mapAction_of SearchPlaces (VObj [("query", VStr "cafe")]) cafes)
                 (VObj [("zoom", VNum "12"); ("markers", VArr []);
                        ("route", VNull)])) "route" = VNull
          /\ get (handleMapAction 1700000000123
                 (mapAction_of SearchPlaces (VObj [("query", VStr "cafe")]) cafes)
                 (VObj [("zoom", VNum "12"); ("markers", VArr []);
                        ("route", VNull)])) "center" = get marker "position"
          /\ get (handleMapAction 1700000000123
                 (mapAction_of SearchPlaces (VObj [("query", VStr "cafe")]) cafes)
                 (VObj [("zoom", VNum "12"); ("markers", VArr []);
                        ("route", VNull)])) "center"
             = get (mapAction_of SearchPlaces (VObj [("query", VStr "cafe")]) cafes)
                 "center").
Proof.
  apply (X22_tool_action_on_map 1700000000123 "search_places"
           (VObj [("query", VStr "cafe")]) sample_helper);
    reflexivity.
Defined.

(** ** The status of a tool *)

Lemma includes_underscore_cons (c : ascii) (s : string) :
  includes (String c s) "_" = Ascii.eqb "_" c || includes s "_".
Proof.
  cbn [includes starts_with]. rewrite andb_true_r.
  now destruct (Ascii.eqb "_" c).
Qed.

Lemma includes_underscore_app (a b : string) :
  includes (a +:+ b) "_" = includes a "_" || includes b "_".
Proof.
  induction a as [|c a IH]; [reflexivity |].
  rewrite append_cons, !includes_underscore_cons, IH. apply orb_assoc.
Qed.

Lemma replace_underscores_clean (s : string) :
  includes (replace_underscores s) "_" = false.
Proof.
  induction s as [|c s IH]; [reflexivity |].
  cbn [replace_underscores]. rewrite includes_underscore_cons, IH, orb_false_r.
  destruct (Ascii.eqb c "_") eqn:E; [reflexivity |].
  now rewrite Ascii.eqb_sym.
Qed.

Lemma replace_underscores_id (s : string) :
  includes s "_" = false -> replace_underscores s = s.
Proof.
  induction s as [|c s IH]; [reflexivity |].
  rewrite includes_underscore_cons. intros H.
  apply orb_false_iff in H as [Hc Hs].
  cbn [replace_underscores]. rewrite Ascii.eqb_sym, Hc. now rewrite IH.
Qed.

Lemma replace_underscores_length (s : string) :
  String.length (replace_underscores s) = String.length s.
Proof.
  induction s as [|c s IH]; [reflexivity |]. simpl. now rewrite IH.
Qed.

Lemma length_append (a b : string) :
  String.length (a +:+ b) = String.length a + String.length b.
Proof.
  induction a as [|c a IH]; [reflexivity |].
  rewrite append_cons. simpl. now rewrite IH.
Qed.

(** X23.  The status shown while a tool runs names the tool with every
    underscore replaced, not only the first: the text holds no underscore,
    is the tool's name between ["Using "] and ["..."] when the name has
    none, and always has the length of the name plus nine.  Both the
    callback and the event branch send this text. *)
Theorem X23_tool_status_text (JSON_parse : string -> option value)
    (toolName : string) (s : socket) :
  includes (using_status toolName) "_" = false
  /\ String.length (using_status toolName) = String.length toolName + 9
  /\ (includes toolName "_" = false ->
      using_status toolName = "Using " +:+ toolName +:+ "...")
  /\ (readyState_OPEN s = true ->
      sent (ws (state_of (step JSON_parse (CbToolStart toolName) (initial_state s))))
      = sent s ++ [Thinking (Some (using_status toolName))]
      /\ sent (ws (state_of (step JSON_parse (tool_start_event toolName)
                               (initial_state s))))
         = sent s ++ [Thinking (Some (using_status toolName))]).
Proof.
  unfold using_status. split; [| split; [| split]].
  - now rewrite !includes_underscore_app, replace_underscores_clean.
  - rewrite !length_append, replace_underscores_length. simpl. lia.
  - intros H. now rewrite replace_underscores_id.
  - intros Hopen. split.
    + cbn [step state_of]. unfold handleToolStart. cbn [send ws push_toolsUsed].
      now rewrite sent_wsSend_open.
    + cbn [step state_of tool_start_event]. unfold handle_event.
      unfold on_tool_start at 1. cbn [event name toolsUsed initial_state existsb negb andb
                                      String.eqb Ascii.eqb Bool.eqb].
      unfold on_tool_end, on_chat_model_stream, on_chain_end.
      cbn [event name send push_toolsUsed String.eqb Ascii.eqb Bool.eqb andb
           state_of ws].
      now rewrite sent_wsSend_open.
Qed.

(** X23 at the nearby search. *)
Lemma X23_tool_status_text_witness :
  using_status "search" = "Using " +:+ "search" +:+ "..."
  /\ sent (ws (state_of (step JsonFragment.parse (CbToolStart "nearby_search")
                           (initial_state open_socket))))
     = sent open_socket ++ [Thinking (Some (using_status "nearby_search"))].
Proof.
  split.
  - apply (proj1 (proj2 (proj2 (X23_tool_status_text JsonFragment.parse "search"
                                  open_socket)))).
    reflexivity.
  - apply (proj1 (proj2 (proj2 (proj2 (X23_tool_status_text JsonFragment.parse
                                         "nearby_search" open_socket)))
                    eq_refl)).
Defined.

(** ** An action that arrives twice *)

Lemma or_else_twice (x y : value) : or_else x (or_else x y) = or_else x y.
Proof. unfold or_else. now destruct (truthy x). Qed.

(** X24.  The server sends a captured action twice, once as it is
    captured and once with the final message.  On the client the second
    application changes nothing but the time stamp: reading any field after
    applying an action twice gives what applying it once, at the later
    time, gives. *)
Theorem X24_action_applied_twice (n1 n2 : N) (action prev : value) (k : string) :
  get (handleMapAction n2 action (handleMapAction n1 action prev)) k
  = get (handleMapAction n2 action prev) k.
Proof.
  unfold handleMapAction.
  destruct (get action "type") as [| | | |tag| |]; try reflexivity.
  destruct (String.eqb tag "SHOW_MARKERS").
  { rewrite !get_spread. unfold assigned.
    cbn [fold_left fst snd String.eqb Ascii.eqb Bool.eqb].
    rewrite !or_else_twice.
    repeat (destruct (String.eqb k _); [reflexivity |]). reflexivity. }
  destruct (String.eqb tag "SHOW_ROUTE").
  { rewrite !get_spread. unfold assigned.
    cbn [fold_left fst snd String.eqb Ascii.eqb Bool.eqb].
    repeat (destruct (String.eqb k _); [reflexivity |]). reflexivity. }
  destruct (String.eqb tag "CENTER"); [| reflexivity].
  rewrite !get_spread. unfold assigned.
  cbn [fold_left fst snd String.eqb Ascii.eqb Bool.eqb].
  rewrite !or_else_twice.
  repeat (destruct (String.eqb k _); [reflexivity |]). reflexivity.
Qed.
